(** * Textract normalizer: invoice and prescription parsers

    A shallow embedding of [src/main.py] (the classes
    [TextractInvoiceParser], [TextractPrescriptionParser] and
    [TextractNormalizer]) together with the properties its specification
    states about them.

    Modelling conventions.
    - A Python [str] is a list of Unicode code points ([pystr]).  Literals
      are written as UTF-8 text and decoded by [u].  The character tables
      ([is_space], [lower], [is_upper], ...) are those of Python for the
      code points below 256 (Basic Latin and Latin-1 Supplement); a code
      point above that range is treated as a caseless symbol that is
      neither a digit nor white space.
    - [re.search] is a backtracking matcher ([Re.search]) over a small
      regular-expression syntax; every pattern of the source is one
      definition of type [Re.regex].
    - A Python [float] is the exact rational it denotes ([Q]); binary64
      rounding is not modelled.  [round(x, 2)] is rounding to the nearest
      hundredth, ties to even.
    - An exception that leaves the function where it is raised is a
      [Raise] result; [ValueError]s caught on the spot are [None].
    - A JSON object with optional keys is a record of [option]s. *)

From Stdlib Require Import QArith Qround Lqa.
From Stdlib Require Import String Ascii.
From stdpp Require Import gmap list sorting.

Local Open Scope N_scope.

(** ** Python strings *)

Module PyStr.

Abbreviation char := N.
Abbreviation pystr := (list N).

(** Decoding of a UTF-8 byte sequence into code points (used for the
    literals of this file only). *)
Fixpoint utf8_decode (bs : list N) : pystr :=
  match bs with
  | [] => []
  | b :: r =>
      if b <? 128 then b :: utf8_decode r
      else if b <? 224 then
        match r with
        | b1 :: r1 => ((b - 192) * 64 + (b1 - 128)) :: utf8_decode r1
        | _ => []
        end
      else if b <? 240 then
        match r with
        | b1 :: b2 :: r2 =>
            ((b - 224) * 4096 + (b1 - 128) * 64 + (b2 - 128)) :: utf8_decode r2
        | _ => []
        end
      else
        match r with
        | b1 :: b2 :: b3 :: r3 =>
            ((b - 240) * 262144 + (b1 - 128) * 4096 + (b2 - 128) * 64 + (b3 - 128))
              :: utf8_decode r3
        | _ => []
        end
  end.

Definition u (s : string) : pystr :=
  utf8_decode (List.map N_of_ascii (list_ascii_of_string s)).

Definition in_range (lo hi c : char) : bool := (lo <=? c) && (c <=? hi).

(** [str.isspace] on one character, also the class [\s] of [re]. *)
Definition is_space (c : char) : bool :=
  in_range 9 13 c || in_range 28 32 c || (c =? 133) || (c =? 160).

(** Decimal digits, the class [\d] of [re]. *)
Definition is_digit (c : char) : bool := in_range 48 57 c.

Definition is_upper (c : char) : bool :=
  in_range 65 90 c || in_range 192 214 c || in_range 216 222 c.

Definition is_lower (c : char) : bool :=
  in_range 97 122 c || (c =? 170) || (c =? 181) || (c =? 186)
  || in_range 223 246 c || in_range 248 255 c.

(** Simple lower-case mapping of one character. *)
Definition lower_char (c : char) : char := if is_upper c then c + 32 else c.

(** [str.lower()] *)
Definition lower (s : pystr) : pystr := List.map lower_char s.

(** [str.isupper()]: at least one cased character and no lower-case one. *)
Definition isupper (s : pystr) : bool :=
  forallb (fun c => negb (is_lower c)) s && existsb is_upper s.

Definition eqb (s t : pystr) : bool := bool_decide (s = t).

Fixpoint starts_with (p s : pystr) : bool :=
  match p, s with
  | [], _ => true
  | a :: p', b :: s' => (a =? b) && starts_with p' s'
  | _ :: _, [] => false
  end.

(** [p in s] *)
Fixpoint contains (p s : pystr) : bool :=
  starts_with p s ||
  match s with
  | [] => false
  | _ :: s' => contains p s'
  end.

(** [str.replace] for a one-character pattern and replacement. *)
Definition replace_char (a b : char) (s : pystr) : pystr :=
  List.map (fun c => if c =? a then b else c) s.

Fixpoint lstrip (sp : char -> bool) (s : pystr) : pystr :=
  match s with
  | c :: s' => if sp c then lstrip sp s' else s
  | [] => []
  end.

Definition rstrip (sp : char -> bool) (s : pystr) : pystr :=
  rev (lstrip sp (rev s)).

(** [str.strip()] *)
Definition strip (s : pystr) : pystr := rstrip is_space (lstrip is_space s).

(** [sep.join(parts)] *)
Fixpoint join (sep : pystr) (parts : list pystr) : pystr :=
  match parts with
  | [] => []
  | [p] => p
  | p :: rest => p ++ sep ++ join sep rest
  end.

End PyStr.
Import PyStr.

(** ** Regular expressions: the fragment of [re] the source uses *)

Module Re.

(** One item of a character set. *)
Inductive citem :=
| CChar (c : char)            (* a literal character *)
| CRange (lo hi : char)       (* [lo-hi] *)
| CDigit                      (* \d *)
| CSpace.                     (* \s *)

Inductive regex :=
| Eps
| Lit (c : char)                                   (* one literal character *)
| Cls (cs : list citem)                            (* [...] or \d or \s *)
| Rep (cs : list citem) (lo : nat) (hi : option nat) (* greedy {lo,hi} on a set *)
| Opt (r : regex)                                  (* r? *)
| Seq (r1 r2 : regex)
| Alt (r1 r2 : regex)                              (* r1|r2, left first *)
| Grp (i : nat) (r : regex).                       (* capturing group number i *)

(** Under IGNORECASE a literal matches a character with the same
    lower-case form; so does every member of a set. *)
Definition item_matches (ic : bool) (x : char) (it : citem) : bool :=
  match it with
  | CChar c => if ic then lower_char x =? lower_char c else x =? c
  | CRange lo hi =>
      if ic then
        existsb (fun y => lower_char x =? lower_char y)
                (List.map N.of_nat (seq (N.to_nat lo) (S (N.to_nat hi) - N.to_nat lo)))
      else in_range lo hi x
  | CDigit => is_digit x
  | CSpace => is_space x
  end.

Definition in_set (ic : bool) (cs : list citem) (x : char) : bool :=
  existsb (item_matches ic x) cs.

Definition captures := list (nat * pystr).

Section Matcher.
Context {A : Type}.

(** Greedy repetition of a one-character test: take as many characters as
    allowed, then give characters back one at a time until the rest of
    the pattern ([k]) matches.  [n] counts the characters taken. *)
Fixpoint rep (p : char -> bool) (lo : nat) (hi : option nat) (n : nat)
    (s : pystr) (k : pystr -> option A) : option A :=
  let stop := if (lo <=? n)%nat then k s else None in
  match s with
  | x :: s' =>
      if p x && match hi with Some h => (n <? h)%nat | None => true end then
        match rep p lo hi (S n) s' k with
        | Some a => Some a
        | None => stop
        end
      else stop
  | [] => stop
  end.

(** [rmatch ic r s caps k] matches [r] at the head of [s] and hands the
    remaining input and the captures to the continuation [k]; alternatives
    are tried in the order of a backtracking matcher. *)
Fixpoint rmatch (ic : bool) (r : regex) (s : pystr) (caps : captures)
    (k : pystr -> captures -> option A) : option A :=
  match r with
  | Eps => k s caps
  | Lit c =>
      match s with
      | x :: s' => if item_matches ic x (CChar c) then k s' caps else None
      | [] => None
      end
  | Cls cs =>
      match s with
      | x :: s' => if in_set ic cs x then k s' caps else None
      | [] => None
      end
  | Rep cs lo hi => rep (in_set ic cs) lo hi 0 s (fun s' => k s' caps)
  | Opt r1 =>
      match rmatch ic r1 s caps k with
      | Some a => Some a
      | None => k s caps
      end
  | Seq r1 r2 => rmatch ic r1 s caps (fun s' caps' => rmatch ic r2 s' caps' k)
  | Alt r1 r2 =>
      match rmatch ic r1 s caps k with
      | Some a => Some a
      | None => rmatch ic r2 s caps k
      end
  | Grp i r1 =>
      rmatch ic r1 s caps
        (fun s' caps' => k s' ((i, take (length s - length s') s) :: caps'))
  end.

End Matcher.

(** A match object: the text matched (group 0) and the groups that took
    part in the match. *)
Record rematch := { whole : pystr; groups : captures }.

(** [m.group(i)] for [i >= 1]; [None] when the group did not take part. *)
Definition group (i : nat) (m : rematch) : option pystr :=
  snd <$> List.find (fun p => (fst p =? i)%nat) (groups m).

(** Match at the head of [s] without requiring the end of [s]; also gives
    the text left over. *)
Definition match_prefix (ic : bool) (r : regex) (s : pystr)
  : option (rematch * pystr) :=
  rmatch ic r s []
    (fun s' caps =>
       Some ({| whole := take (length s - length s') s; groups := caps |}, s')).

(** [re.search(r, s)]: the leftmost match. *)
Fixpoint search (ic : bool) (r : regex) (s : pystr) : option rematch :=
  match match_prefix ic r s with
  | Some (m, _) => Some m
  | None =>
      match s with
      | [] => None
      | _ :: s' => search ic r s'
      end
  end.

(** [if re.search(r, s):] *)
Definition test (ic : bool) (r : regex) (s : pystr) : bool :=
  match search ic r s with
  | Some _ => true
  | None => false
  end.

(** [m.group(i)] for a group that takes part in every match of its
    pattern. *)
Definition group_text (i : nat) (m : rematch) : pystr := default [] (group i m).

(** Pattern builders. *)
Fixpoint lits (s : pystr) : regex :=
  match s with
  | [] => Eps
  | [c] => Lit c
  | c :: s' => Seq (Lit c) (lits s')
  end.

Definition str (s : string) : regex := lits (u s).

Fixpoint seqs (rs : list regex) : regex :=
  match rs with
  | [] => Eps
  | [r] => r
  | r :: rs' => Seq r (seqs rs')
  end.

Fixpoint alts (rs : list regex) : regex :=
  match rs with
  | [] => Eps
  | [r] => r
  | r :: rs' => Alt r (alts rs')
  end.

Definition digit : list citem := [CDigit].
Definition space : list citem := [CSpace].
Definition star (cs : list citem) : regex := Rep cs 0 None.
Definition plus (cs : list citem) : regex := Rep cs 1 None.
Definition opt1 (cs : list citem) : regex := Rep cs 0 (Some 1%nat).
Definition chars (s : string) : list citem := List.map CChar (u s).

End Re.

(** ** Numbers and dates of the Python library *)

Module PyNum.

(** White space that [int()] and [float()] strip from both ends. *)
Definition num_space (c : char) : bool :=
  in_range 9 13 c || (c =? 32) || (c =? 133) || (c =? 160).

Definition strip_num (s : pystr) : pystr := rstrip num_space (lstrip num_space s).

(** Underscores are allowed only between two digits; they are dropped. *)
Fixpoint drop_underscores (prev_digit : bool) (s : pystr) : option pystr :=
  match s with
  | [] => Some []
  | c :: s' =>
      if c =? 95 then
        if prev_digit && match s' with d :: _ => is_digit d | [] => false end
        then drop_underscores false s'
        else None
      else cons c <$> drop_underscores (is_digit c) s'
  end.

Definition digits_val (ds : pystr) : Z :=
  fold_left (fun acc d => (acc * 10 + (Z.of_N d - 48))%Z) ds 0%Z.

Definition all_digits (s : pystr) : bool :=
  forallb is_digit s && negb (bool_decide (s = [])).

(** Splits an optional leading sign off; [true] for a minus sign. *)
Definition split_sign (s : pystr) : bool * pystr :=
  match s with
  | 45 :: r => (true, r)
  | 43 :: r => (false, r)
  | _ => (false, s)
  end.

(** [int(s)] for a string; [None] stands for [ValueError]. *)
Definition py_int (s : pystr) : option Z :=
  let '(neg, body) := split_sign (strip_num s) in
  b ← drop_underscores false body;
  if all_digits b
  then Some (if neg then (- digits_val b)%Z else digits_val b)
  else None.

Fixpoint span_digits (s : pystr) : pystr * pystr :=
  match s with
  | c :: s' =>
      if is_digit c then let '(ds, r) := span_digits s' in (c :: ds, r)
      else ([], s)
  | [] => ([], [])
  end.

(** The value of a Python float: a finite number, an infinity, or NaN. *)
Inductive pyfloat :=
| FNum (q : Q)
| FInf (neg : bool)
| FNan.

Definition pow10 (e : Z) : Q :=
  if (0 <=? e)%Z then inject_Z (10 ^ e) else (1 # Z.to_pos (10 ^ (- e))).

Definition decimal_value (neg : bool) (mant : Z) (e : Z) : Q :=
  Qred ((if neg then - inject_Z mant else inject_Z mant) * pow10 e)%Q.

(** Exponent part: empty, or [e]/[E], an optional sign and digits. *)
Definition parse_exponent (s : pystr) : option Z :=
  match s with
  | [] => Some 0%Z
  | c :: r =>
      if (c =? 101) || (c =? 69) then
        let '(neg, ds) := split_sign r in
        if all_digits ds
        then Some (if neg then (- digits_val ds)%Z else digits_val ds)
        else None
      else None
  end.

(** [float(s)] for a string; [None] stands for [ValueError]. *)
Definition py_float (s : pystr) : option pyfloat :=
  let '(neg, body) := split_sign (strip_num s) in
  let name := lower body in
  if eqb name (u "inf") || eqb name (u "infinity") then Some (FInf neg)
  else if eqb name (u "nan") then Some FNan
  else
    b ← drop_underscores false body;
    let '(ip, r1) := span_digits b in
    let '(fp, r2) :=
      match r1 with
      | 46 :: r => span_digits r
      | _ => ([], r1)
      end in
    if bool_decide (ip ++ fp = []) then None
    else
      e ← parse_exponent r2;
      Some (FNum (decimal_value neg (digits_val (ip ++ fp))
                                (e - Z.of_nat (length fp)))).

End PyNum.
Import PyNum.

Module PyDate.

(** A [datetime.date]. *)
Record date := { year : Z; month : Z; day : Z }.

Definition is_leap (y : Z) : bool :=
  ((y mod 4 =? 0) && (negb (y mod 100 =? 0) || (y mod 400 =? 0)))%Z.

Definition days_in_month (y m : Z) : Z :=
  (if m =? 2 then (if is_leap y then 29 else 28)
   else if (m =? 4) || (m =? 6) || (m =? 9) || (m =? 11) then 30
   else 31)%Z.

(** [date(year, month, day)]; [None] stands for [ValueError]. *)
Definition new_date (y m d : Z) : option date :=
  if ((1 <=? y) && (y <=? 9999) && (1 <=? m) && (m <=? 12)
      && (1 <=? d) && (d <=? days_in_month y m))%Z
  then Some {| year := y; month := m; day := d |}
  else None.

(** The regular expression [strptime] builds for the format
    ["%d/%m/%Y"]:
    [(?P<d>3[0-1]|[1-2]\d|0[1-9]|[1-9]| [1-9])/(?P<m>1[0-2]|0[1-9]|[1-9])/(?P<Y>\d\d\d\d)] *)
Definition format_dmY : Re.regex :=
  let d19 := Re.Cls [Re.CRange 49 57] in
  Re.seqs
    [ Re.Grp 1 (Re.alts
        [ Re.Seq (Re.Lit 51) (Re.Cls [Re.CRange 48 49]);
          Re.Seq (Re.Cls [Re.CRange 49 50]) (Re.Cls Re.digit);
          Re.Seq (Re.Lit 48) d19;
          d19;
          Re.Seq (Re.Lit 32) d19 ]);
      Re.Lit 47;
      Re.Grp 2 (Re.alts
        [ Re.Seq (Re.Lit 49) (Re.Cls [Re.CRange 48 50]);
          Re.Seq (Re.Lit 48) d19;
          d19 ]);
      Re.Lit 47;
      Re.Grp 3 (Re.Rep Re.digit 4 (Some 4%nat)) ].

(** [datetime.strptime(s, "%d/%m/%Y").date()]; [None] stands for
    [ValueError] (no match, unconverted data, or an impossible date). *)
Definition strptime_dmY (s : pystr) : option date :=
  '(m, rest) ← Re.match_prefix true format_dmY s;
  if bool_decide (rest = []) then
    d ← Re.group 1 m ≫= py_int;
    mo ← Re.group 2 m ≫= py_int;
    y ← Re.group 3 m ≫= py_int;
    new_date y mo d
  else None.

End PyDate.
Import PyDate.

(** ** Exceptions that escape a function *)

Inductive exn := TypeError | KeyError.

Inductive result (A : Type) :=
| Ok (a : A)
| Raise (e : exn).
Arguments Ok {A} a.
Arguments Raise {A} e.

#[global] Instance result_ret : MRet result := fun A a => Ok a.
#[global] Instance result_fmap : FMap result := fun A B f r =>
  match r with
  | Ok a => Ok (f a)
  | Raise e => Raise e
  end.
#[global] Instance result_bind : MBind result := fun A B f r =>
  match r with
  | Ok a => f a
  | Raise e => Raise e
  end.

(** [d[key]] on a JSON object whose key may be absent. *)
Definition getitem {A : Type} (o : option A) : result A :=
  match o with
  | Some a => Ok a
  | None => Raise KeyError
  end.

(** [d.strftime()] written without its format argument: the call is
    rejected with [TypeError] whatever the date. *)
Definition strftime_noarg (d : date) : result pystr := Raise TypeError.

(** A [for] loop whose body may raise. *)
Fixpoint foldM {A S : Type} (f : S -> A -> result S) (s : S) (l : list A)
  : result S :=
  match l with
  | [] => Ok s
  | a :: l' => s' ← f s a; foldM f s' l'
  end.

(** ** The block graph and the records *)

(** One entry of [Relationships]: [{"Type": ..., "Ids": [...]}]. *)
Record Relationship := { Type_ : pystr; Ids : list pystr }.

(** One block of the OCR output; every key may be absent. *)
Record Block := {
  Id : option pystr;
  BlockType : option pystr;
  Text : option pystr;
  Confidence : option Q;
  RowIndex : option Z;
  ColumnIndex : option Z;
  Relationships : option (list Relationship)
}.

(** The OCR response: [{"Blocks": [...]}], the key may be absent. *)
Record textract_json := { Blocks : option (list Block) }.

(** [data.get("Blocks", [])] *)
Definition blocks_of (data : textract_json) : list Block := default [] (Blocks data).

(** [block.get("BlockType") == name] *)
Definition has_type (name : string) (b : Block) : bool :=
  bool_decide (BlockType b = Some (u name)).

Record PrescriptionMedication := {
  drug_name : option pystr;
  dosage_text : option pystr;
  frequency_text : option pystr;
  duration_days : option Z;
  quantity : option Z
}.

Record Prescription := {
  prescription_date : option pystr;
  prescriber_name : option pystr;
  prescriber_id : option pystr;
  language : pystr;
  medications : list PrescriptionMedication;
  notes : option pystr;
  rx_warnings : list pystr;
  rx_quality_score : Q
}.

Record InvoiceLineItem := {
  description : option pystr;
  qty : option pyfloat;
  unit_price : option pyfloat;
  total : option pyfloat
}.

(** What the two paths of [_find_date] put under ["value"]: the result of
    [strftime] (a string) or a [date] object. *)
Inductive datevalue :=
| DateStr (s : pystr)
| DateObj (d : date).

Record Invoice := {
  invoice_number : option pystr;
  issue_date : option datevalue;
  due_date : option datevalue;
  supplier_name : option pystr;
  currency : option pystr;
  invoice_total : option pyfloat;
  line_items : list InvoiceLineItem;
  warnings : list pystr;
  quality_score : Q
}.

(** ** Quality score of an invoice ([TextractNormalizer.calc_quality_score]) *)

Local Open Scope Q_scope.

Definition Qsum (l : list Q) : Q := fold_right Qplus 0 l.

(** [statistics.mean] of a non-empty list. *)
Definition mean (l : list Q) : Q := Qsum l / inject_Z (Z.of_nat (length l)).

(** Nearest integer, ties to even. *)
Definition round_half_even (x : Q) : Z :=
  let f := Qfloor x in
  match Qcompare (x - inject_Z f) (1 # 2) with
  | Lt => f
  | Gt => (f + 1)%Z
  | Eq => if Z.even f then f else (f + 1)%Z
  end.

(** [round(x, 2)] *)
Definition round2 (x : Q) : Q := Qred (inject_Z (round_half_even (x * 100)) / 100).

(** [required_fields_found / total_required if total_required else 0] *)
Definition coverage_of (required_fields_found total_required : nat) : Q :=
  if (total_required =? 0)%nat then 0
  else inject_Z (Z.of_nat required_fields_found) / inject_Z (Z.of_nat total_required).

(** [1 if coverage == 1 else 0.5] *)
Definition validation_of (coverage : Q) : Q :=
  if Qeq_bool coverage 1 then 1 else (1 # 2).

Definition calc_quality_score (textract_confidences : list Q)
    (required_fields_found total_required : nat) : Q :=
  let tex_conf :=
    if bool_decide (textract_confidences = []) then 0 else mean textract_confidences in
  let coverage := coverage_of required_fields_found total_required in
  let validation := validation_of coverage in
  let score := (4 # 10) * tex_conf + (4 # 10) * coverage + (2 # 10) * validation in
  round2 score.

Local Close Scope Q_scope.

(** The first element of a list for which [f] gives a result: a loop that
    returns from its body. *)
Fixpoint first_some {A B : Type} (f : A -> option B) (l : list A) : option B :=
  match l with
  | [] => None
  | a :: l' =>
      match f a with
      | Some b => Some b
      | None => first_some f l'
      end
  end.

(** ** The invoice parser *)

Module TextractInvoiceParser.
Import Re.

Inductive field :=
| F_invoice_number
| F_issue_date
| F_supplier_name
| F_invoice_total.

Definition field_name (f : field) : pystr :=
  match f with
  | F_invoice_number => u "invoice_number"
  | F_issue_date => u "issue_date"
  | F_supplier_name => u "supplier_name"
  | F_invoice_total => u "invoice_total"
  end.

Definition REQUIRED_FIELDS : list field :=
  [F_invoice_number; F_issue_date; F_supplier_name; F_invoice_total].

(** An element of [self.lines]. *)
Record Line := { text : pystr; confidence : Q }.

(** What an extractor returns: [{"value": ..., "confidence": ...}]. *)
Record Found (V : Type) := { value : V; found_confidence : Q }.
Arguments value {V} _.
Arguments found_confidence {V} _.

(** What [_find_total] returns. *)
Record FoundTotal := {
  total_value : option pyfloat;
  total_currency : pystr;
  total_confidence : Q
}.

Definition _extract_lines (data : textract_json) : list Line :=
  flat_map
    (fun block =>
       if has_type "LINE" block
       then [ {| text := strip (default [] (Text block));
                 confidence := default 0%Q (Confidence block) |} ]
       else [])
    (blocks_of data).

(** [(s\.r\.l\.|spa|ltd|inc|marilab|company|sede)] *)
Definition supplier_re : regex :=
  Grp 1 (alts [str "s.r.l."; str "spa"; str "ltd"; str "inc"; str "marilab";
               str "company"; str "sede"]).

(** [(numero documento|fattura n|invoice number|n\.)] *)
Definition invoice_number_kw : regex :=
  Grp 1 (alts [str "numero documento"; str "fattura n"; str "invoice number";
               str "n."]).

(** [\d{3,}] *)
Definition digits3_re : regex := Rep digit 3 None.

(** [(data documento|issue date)] *)
Definition issue_date_kw : regex := Grp 1 (alts [str "data documento"; str "issue date"]).

(** [(scadenza|due date)] *)
Definition due_date_kw : regex := Grp 1 (alts [str "scadenza"; str "due date"]).

(** [(\d{1,2}[/-]\d{1,2}[/-]\d{2,4})] *)
Definition date_re : regex :=
  Grp 1 (seqs [Rep digit 1 (Some 2%nat); Cls (chars "/-");
               Rep digit 1 (Some 2%nat); Cls (chars "/-");
               Rep digit 2 (Some 4%nat)]).

(** [(totale|invoice total|importo)] *)
Definition total_kw : regex := Grp 1 (alts [str "totale"; str "invoice total"; str "importo"]).

(** [([€$])?\s?([\d\.,]+)] *)
Definition total_re : regex :=
  seqs [Opt (Grp 1 (Cls (chars "€$"))); opt1 space; Grp 2 (plus (CDigit :: chars ".,"))].

Definition _find_supplier_name (lines : list Line) : option (Found pystr) :=
  first_some
    (fun line =>
       if test true supplier_re (text line)
       then Some {| value := text line; found_confidence := confidence line |}
       else None)
    (take 5 lines).

Definition _find_invoice_number (lines : list Line) : option (Found pystr) :=
  first_some
    (fun line =>
       if test true invoice_number_kw (text line) then
         m ← search false digits3_re (text line);
         Some {| value := whole m; found_confidence := confidence line |}
       else None)
    lines.

(** The keyword-gated loop of [_find_date].  Its [return] builds the
    result from [strftime()] called without a format, so the loop never
    returns a value: a line that has the keyword and a date that parses
    raises. *)
Fixpoint find_date_gated (keyword_pattern : regex) (lines : list Line)
  : result (option (Found datevalue)) :=
  match lines with
  | [] => Ok None
  | line :: rest =>
      if test true keyword_pattern (text line) then
        match search false date_re (text line) with
        | Some m =>
            match strptime_dmY (group_text 1 m) with
            | Some d =>
                v ← strftime_noarg d;
                Ok (Some {| value := DateStr v; found_confidence := confidence line |})
            | None => find_date_gated keyword_pattern rest
            end
        | None => find_date_gated keyword_pattern rest
        end
      else find_date_gated keyword_pattern rest
  end.

(** The fallback loop of [_find_date]: the first line with a date that
    parses; the value is the [date] object itself. *)
Definition find_date_fallback (lines : list Line) : option (Found datevalue) :=
  first_some
    (fun line =>
       m ← search false date_re (text line);
       d ← strptime_dmY (group_text 1 m);
       Some {| value := DateObj d; found_confidence := confidence line |})
    lines.

Definition _find_date (keyword_pattern : regex) (fallback : bool)
    (lines : list Line) : result (option (Found datevalue)) :=
  r ← find_date_gated keyword_pattern lines;
  match r with
  | Some f => Ok (Some f)
  | None => Ok (if fallback then find_date_fallback lines else None)
  end.

Definition _safe_float (val : pystr) : option pyfloat :=
  py_float (replace_char 44 46 val).

(** The body of the loop of [_find_total] for one line. *)
Definition total_of_line (line : Line) : option FoundTotal :=
  if test true total_kw (text line) then
    m ← search false total_re (text line);
    let currency :=
      match group 1 m with
      | Some (c :: g) => c :: g
      | _ => u "EUR"
      end in
    let amount := _safe_float (group_text 2 m) in
    Some {| total_value := amount; total_currency := currency;
            total_confidence := confidence line |}
  else None.

Definition _find_total (lines : list Line) : option FoundTotal :=
  first_some total_of_line (rev lines).

Definition _get_text (cell : Block) (block_map : gmap pystr Block) : result pystr :=
  words ← foldM
    (fun words rel =>
       if bool_decide (Type_ rel = u "CHILD") then
         foldM
           (fun words cid =>
              word ← getitem (block_map !! cid);
              if has_type "WORD" word || has_type "SELECTION_ELEMENT" word
              then Ok (words ++ [default [] (Text word)])
              else Ok words)
           words (Ids rel)
       else Ok words)
    [] (default [] (Relationships cell));
  Ok (strip (join (u " ") words)).

(** [{b["Id"]: b for b in blocks}]: a later block replaces an earlier one
    with the same id. *)
Definition build_block_map (blocks : list Block) : result (gmap pystr Block) :=
  foldM (fun m b => id ← getitem (Id b); Ok (<[id := b]> m)) ∅ blocks.

(** The [rows] dictionary built for one TABLE block: row index to
    (column index to cell text). *)
Definition table_rows (block_map : gmap pystr Block) (block : Block)
  : result (gmap Z (gmap Z pystr)) :=
  foldM
    (fun rows rel =>
       if bool_decide (Type_ rel = u "CHILD") then
         foldM
           (fun rows cid =>
              cell ← getitem (block_map !! cid);
              ty ← getitem (BlockType cell);
              if bool_decide (ty = u "CELL") then
                row ← getitem (RowIndex cell);
                col ← getitem (ColumnIndex cell);
                text ← _get_text cell block_map;
                Ok (<[row := <[col := text]> (default ∅ (rows !! row))]> rows)
              else Ok rows)
           rows (Ids rel)
       else Ok rows)
    ∅ (default [] (Relationships block)).

(** [sorted(rows.keys())] *)
Definition sorted_keys (rows : gmap Z (gmap Z pystr)) : list Z :=
  merge_sort Z.le (map_to_list rows).*1.

Definition line_item (row : gmap Z pystr) : InvoiceLineItem :=
  {| description := Some (default [] (row !! 1%Z));
     qty := _safe_float (default [] (row !! 2%Z));
     unit_price := _safe_float (default [] (row !! 3%Z));
     total := _safe_float (default [] (row !! 4%Z)) |}.

(** What the row with index [r] adds to the line items: one item when the
    row has at least four columns. *)
Definition row_contribution (rows : gmap Z (gmap Z pystr)) (r : Z)
  : list InvoiceLineItem :=
  let row := default ∅ (rows !! r) in
  if (4 <=? size row)%nat then [line_item row] else [].

(** The line items of one table: the loop over [sorted(rows.keys())]. *)
Definition row_items (rows : gmap Z (gmap Z pystr)) : list InvoiceLineItem :=
  flat_map (row_contribution rows) (sorted_keys rows).

(** The body of the loop over the blocks in [_extract_line_items]: a
    TABLE block appends the items of its rows. *)
Definition add_table_items (block_map : gmap pystr Block)
    (items : list InvoiceLineItem) (block : Block) : result (list InvoiceLineItem) :=
  if has_type "TABLE" block then
    rows ← table_rows block_map block;
    Ok (items ++ row_items rows)
  else Ok items.

Definition _extract_line_items (data : textract_json) : result (list InvoiceLineItem) :=
  block_map ← build_block_map (blocks_of data);
  foldM (add_table_items block_map) [] (blocks_of data).

(** [getattr(self.invoice, f) is None] *)
Definition is_none (inv : Invoice) (f : field) : bool :=
  match f with
  | F_invoice_number => bool_decide (invoice_number inv = None)
  | F_issue_date => bool_decide (issue_date inv = None)
  | F_supplier_name => bool_decide (supplier_name inv = None)
  | F_invoice_total => bool_decide (invoice_total inv = None)
  end.

Definition missing_warning (f : field) : pystr :=
  u "Missing required field: " ++ field_name f.

Definition low_coverage_warning : pystr :=
  u "Some key fields not extracted with high confidence".

Definition _collect_warnings (inv : Invoice) (found_fields : nat) : list pystr :=
  flat_map (fun f => if is_none inv f then [missing_warning f] else []) REQUIRED_FIELDS
  ++ (if (found_fields <? length REQUIRED_FIELDS)%nat then [low_coverage_warning] else []).

(** The record under construction together with the locals of
    [_parse_data]. *)
Record parse_state := {
  invoice : Invoice;
  confidences : list Q;
  found_fields : nat
}.

(** [Invoice()] *)
Definition empty_invoice : Invoice :=
  {| invoice_number := None; issue_date := None; due_date := None;
     supplier_name := None; currency := None; invoice_total := None;
     line_items := []; warnings := []; quality_score := 0%Q |}.

Definition set_supplier_name (v : option pystr) (i : Invoice) : Invoice :=
  {| invoice_number := invoice_number i; issue_date := issue_date i;
     due_date := due_date i; supplier_name := v; currency := currency i;
     invoice_total := invoice_total i; line_items := line_items i;
     warnings := warnings i; quality_score := quality_score i |}.

Definition set_invoice_number (v : option pystr) (i : Invoice) : Invoice :=
  {| invoice_number := v; issue_date := issue_date i;
     due_date := due_date i; supplier_name := supplier_name i; currency := currency i;
     invoice_total := invoice_total i; line_items := line_items i;
     warnings := warnings i; quality_score := quality_score i |}.

Definition set_issue_date (v : option datevalue) (i : Invoice) : Invoice :=
  {| invoice_number := invoice_number i; issue_date := v;
     due_date := due_date i; supplier_name := supplier_name i; currency := currency i;
     invoice_total := invoice_total i; line_items := line_items i;
     warnings := warnings i; quality_score := quality_score i |}.

Definition set_due_date (v : option datevalue) (i : Invoice) : Invoice :=
  {| invoice_number := invoice_number i; issue_date := issue_date i;
     due_date := v; supplier_name := supplier_name i; currency := currency i;
     invoice_total := invoice_total i; line_items := line_items i;
     warnings := warnings i; quality_score := quality_score i |}.

Definition set_total (v : option pyfloat) (c : option pystr) (i : Invoice) : Invoice :=
  {| invoice_number := invoice_number i; issue_date := issue_date i;
     due_date := due_date i; supplier_name := supplier_name i; currency := c;
     invoice_total := v; line_items := line_items i;
     warnings := warnings i; quality_score := quality_score i |}.

Definition set_line_items (v : list InvoiceLineItem) (i : Invoice) : Invoice :=
  {| invoice_number := invoice_number i; issue_date := issue_date i;
     due_date := due_date i; supplier_name := supplier_name i; currency := currency i;
     invoice_total := invoice_total i; line_items := v;
     warnings := warnings i; quality_score := quality_score i |}.

Definition set_quality_score (v : Q) (i : Invoice) : Invoice :=
  {| invoice_number := invoice_number i; issue_date := issue_date i;
     due_date := due_date i; supplier_name := supplier_name i; currency := currency i;
     invoice_total := invoice_total i; line_items := line_items i;
     warnings := warnings i; quality_score := v |}.

Definition set_warnings (v : list pystr) (i : Invoice) : Invoice :=
  {| invoice_number := invoice_number i; issue_date := issue_date i;
     due_date := due_date i; supplier_name := supplier_name i; currency := currency i;
     invoice_total := invoice_total i; line_items := line_items i;
     warnings := v; quality_score := quality_score i |}.

(** One [if found:] block of [_parse_data]: store the field, record the
    confidence, and count the field when it is a required one. *)
Definition record_field (upd : Invoice -> Invoice) (conf : Q) (required : bool)
    (st : parse_state) : parse_state :=
  {| invoice := upd (invoice st);
     confidences := confidences st ++ [conf];
     found_fields := if required then S (found_fields st) else found_fields st |}.

Definition _parse_data (data : textract_json) (lines : list Line) : result parse_state :=
  let st := {| invoice := empty_invoice; confidences := []; found_fields := 0 |} in
  let st :=
    match _find_supplier_name lines with
    | Some supplier =>
        record_field (set_supplier_name (Some (value supplier)))
                     (found_confidence supplier) true st
    | None => st
    end in
  let st :=
    match _find_invoice_number lines with
    | Some inv_num =>
        record_field (set_invoice_number (Some (value inv_num)))
                     (found_confidence inv_num) true st
    | None => st
    end in
  issue ← _find_date issue_date_kw true lines;
  let st :=
    match issue with
    | Some d => record_field (set_issue_date (Some (value d))) (found_confidence d) true st
    | None => st
    end in
  due ← _find_date due_date_kw false lines;
  let st :=
    match due with
    | Some d => record_field (set_due_date (Some (value d))) (found_confidence d) false st
    | None => st
    end in
  let st :=
    match _find_total lines with
    | Some t =>
        record_field (set_total (total_value t) (Some (total_currency t)))
                     (total_confidence t) true st
    | None => st
    end in
  items ← _extract_line_items data;
  let inv := set_line_items items (invoice st) in
  let inv :=
    set_quality_score
      (calc_quality_score (confidences st) (found_fields st) (length REQUIRED_FIELDS)) inv in
  let inv := set_warnings (_collect_warnings inv (found_fields st)) inv in
  Ok {| invoice := inv; confidences := confidences st; found_fields := found_fields st |}.

(** [TextractInvoiceParser(textract_json)]: the constructor. *)
Definition init (data : textract_json) : result parse_state :=
  _parse_data data (_extract_lines data).

End TextractInvoiceParser.

(** ** The prescription parser *)

(** Truth value of an optional string or integer: [None], the empty string
    and [0] are false. *)
Definition truthy_str (o : option pystr) : bool :=
  match o with
  | Some (_ :: _) => true
  | _ => false
  end.

Definition truthy_int (o : option Z) : bool :=
  match o with
  | Some n => negb (n =? 0)%Z
  | None => false
  end.

(** [try: ... except (ValueError, TypeError): continue] around a body
    whose [ValueError]s are already [None]: a [TypeError] is swallowed as
    well, anything else escapes. *)
Definition except_continue {A : Type} (r : result (option A)) : result (option A) :=
  match r with
  | Ok o => Ok o
  | Raise TypeError => Ok None
  | Raise e => Raise e
  end.

Module TextractPrescriptionParser.
Import Re.

Definition _extract_lines (data : textract_json) : list pystr :=
  flat_map
    (fun block =>
       if has_type "LINE" block then
         match Text block with
         | Some t => [t]
         | None => []
         end
       else [])
    (blocks_of data).

(** [(\d{1,2})[/\-\.](\d{1,2})[/\-\.](\d{2,4})] *)
Definition numeric_date_re : regex :=
  seqs [Grp 1 (Rep digit 1 (Some 2%nat)); Cls (chars "/-.");
        Grp 2 (Rep digit 1 (Some 2%nat)); Cls (chars "/-.");
        Grp 3 (Rep digit 2 (Some 4%nat))].

(** [(\d{1,2})\s+([a-zA-Z]+)\s+(\d{2,4})] *)
Definition named_date_re : regex :=
  seqs [Grp 1 (Rep digit 1 (Some 2%nat)); plus space;
        Grp 2 (plus [CRange 97 122; CRange 65 90]); plus space;
        Grp 3 (Rep digit 2 (Some 4%nat))].

Definition month_map : list (pystr * Z) :=
  [(u "gennaio", 1); (u "febbraio", 2); (u "marzo", 3); (u "aprile", 4);
   (u "maggio", 5); (u "giugno", 6); (u "luglio", 7); (u "agosto", 8);
   (u "settembre", 9); (u "ottobre", 10); (u "novembre", 11); (u "dicembre", 12)]%Z.

(** [month_map.get(name)] *)
Definition month_map_get (name : pystr) : option Z :=
  snd <$> List.find (fun p => eqb (fst p) name) month_map.

(** The body of the [try] of [_parse_date] for one matching pattern.
    [Ok None]: a [ValueError], or no month of that name.  Every path that
    reaches a [return] goes through [strftime()] without a format. *)
Definition parse_date_body (text : pystr) (m : rematch) : result (option pystr) :=
  if contains (u "/") text || contains (u "-") text || contains (u ".") text then
    match py_int (group_text 1 m), py_int (group_text 2 m), py_int (group_text 3 m) with
    | Some day, Some month, Some year =>
        let year :=
          if (year <? 100)%Z
          then (year + (if (year <? 50)%Z then 2000 else 1900))%Z
          else year in
        match new_date year month day with
        | Some d => Some <$> strftime_noarg d
        | None => Ok None
        end
    | _, _, _ => Ok None
    end
  else
    match py_int (group_text 1 m), py_int (group_text 3 m) with
    | Some day, Some year =>
        match month_map_get (lower (group_text 2 m)) with
        | Some month =>
            if (month =? 0)%Z then Ok None
            else
              match new_date year month day with
              | Some d => Some <$> strftime_noarg d
              | None => Ok None
              end
        | None => Ok None
        end
    | _, _ => Ok None
    end.

Fixpoint parse_date_loop (text : pystr) (patterns : list regex)
  : result (option pystr) :=
  match patterns with
  | [] => Ok None
  | pattern :: rest =>
      match search false pattern text with
      | Some m =>
          r ← except_continue (parse_date_body text m);
          match r with
          | Some v => Ok (Some v)
          | None => parse_date_loop text rest
          end
      | None => parse_date_loop text rest
      end
  end.

Definition _parse_date (text : pystr) : result (option pystr) :=
  parse_date_loop text [numeric_date_re; named_date_re].

(** The loop shared by the four attribute extractors: the first pattern
    that matches and whose conversion succeeds gives the result. *)
Definition first_pattern {A : Type} (patterns : list regex)
    (convert : rematch -> option A) (text : pystr) : option A :=
  first_some (fun pattern => search true pattern text ≫= convert) patterns.

Definition colon_opt : regex := opt1 (chars ":").

Definition quantity_patterns : list regex :=
  [ (* qta\s*[:]?\s*(\d+) *)
    seqs [str "qta"; star space; colon_opt; star space; Grp 1 (plus digit)];
    (* n\.\s*(\d+) *)
    seqs [str "n."; star space; Grp 1 (plus digit)];
    (* quantit[àa]\s*[:]?\s*(\d+) *)
    seqs [str "quantit"; Cls (chars "àa"); star space; colon_opt; star space;
          Grp 1 (plus digit)];
    (* (\d+)\s*(compresse|cp|fiale|fl|ml|g|mg|µg) *)
    seqs [Grp 1 (plus digit); star space;
          Grp 2 (alts [str "compresse"; str "cp"; str "fiale"; str "fl";
                       str "ml"; str "g"; str "mg"; str "µg"])] ].

Definition _parse_quantity (text : pystr) : option Z :=
  first_pattern quantity_patterns (fun m => py_int (group_text 1 m)) text.

Definition duration_patterns : list regex :=
  [ (* per\s*(\d+)\s*giorni *)
    seqs [str "per"; star space; Grp 1 (plus digit); star space; str "giorni"];
    (* (\d+)\s*giorni *)
    seqs [Grp 1 (plus digit); star space; str "giorni"];
    (* durata\s*[:]?\s*(\d+)\s*g *)
    seqs [str "durata"; star space; colon_opt; star space; Grp 1 (plus digit);
          star space; str "g"] ].

Definition _parse_duration (text : pystr) : option Z :=
  first_pattern duration_patterns (fun m => py_int (group_text 1 m)) text.

Definition frequency_patterns : list regex :=
  [ (* (\d+)\s*volte\s*al\s*giorno *)
    seqs [Grp 1 (plus digit); star space; str "volte"; star space; str "al";
          star space; str "giorno"];
    (* (\d+)\s*[xX]\s*die *)
    seqs [Grp 1 (plus digit); star space; Cls (chars "xX"); star space; str "die"];
    (* ogni\s*(\d+)\s*ore *)
    seqs [str "ogni"; star space; Grp 1 (plus digit); star space; str "ore"];
    (* (\d+)\s*[cp]\s*al\s*dì *)
    seqs [Grp 1 (plus digit); star space; Cls (chars "cp"); star space; str "al";
          star space; str "dì"] ].

Definition _parse_frequency (text : pystr) : option pystr :=
  first_pattern frequency_patterns
    (fun m => Some (group_text 1 m ++ u " volte al giorno")) text.

Definition unit_re : regex := Grp 2 (alts [str "mg"; str "ml"; str "g"; str "µg"]).

Definition amount_re : regex := Grp 1 (seqs [plus digit; opt1 (chars ".,"); star digit]).

Definition dosage_patterns : list regex :=
  [ (* ( \d+ [\.,]? \d* ) \s* ( mg|ml|g|µg )      (tokens spaced out) *)
    seqs [amount_re; star space; unit_re];
    (* dose \s* [:]? \s* ( \d+ [\.,]? \d* ) \s* ( mg|ml|g|µg ) *)
    seqs [str "dose"; star space; colon_opt; star space; amount_re; star space; unit_re] ].

Definition _parse_dosage (text : pystr) : option pystr :=
  first_pattern dosage_patterns
    (fun m =>
       let amount := replace_char 44 46 (group_text 1 m) in
       let unit := group_text 2 m in
       Some (amount ++ u " " ++ unit))
    text.

(** [any(term in line.lower() for term in terms)] *)
Definition any_term (terms : list string) (line : pystr) : bool :=
  existsb (fun term => contains (u term) (lower line)) terms.

Definition _calculate_quality_score (p : Prescription) : Q :=
  let point (b : bool) : Q := if b then 1%Q else 0%Q in
  let score :=
    (point (truthy_str (prescription_date p))
     + point (truthy_str (prescriber_name p))
     + point (truthy_str (prescriber_id p))
     + point (negb (bool_decide (medications p = [])))
     + point (existsb (fun m => truthy_str (drug_name m)) (medications p)))%Q in
  let ratio := (score / 5)%Q in
  Qred (if Qle_bool ratio 1 then ratio else 1%Q).

(** First loop of [_parse_data]: the first line that contains "data" and
    from which [_parse_date] gets a non-empty result. *)
Fixpoint find_prescription_date (lines : list pystr) : result (option pystr) :=
  match lines with
  | [] => Ok None
  | line :: rest =>
      if contains (u "data") (lower line) then
        date_obj ← _parse_date line;
        if truthy_str date_obj then Ok date_obj
        else find_prescription_date rest
      else find_prescription_date rest
  end.

(** [[A-Z0-9]{11,16}] *)
Definition prescriber_id_re : regex :=
  Rep [CRange 65 90; CRange 48 57] 11 (Some 16%nat).

(** Second loop: the last matching line wins for the name and for the id. *)
Definition prescriber_step (acc : option pystr * option pystr) (line : pystr)
  : option pystr * option pystr :=
  let '(name, id) := acc in
  let name :=
    if any_term ["dott"; "dr."; "medico"; "farmacista"]%string line
    then Some line else name in
  let id :=
    if any_term ["codice fiscale"; "cf:"; "id"]%string line then
      match search false prescriber_id_re line with
      | Some id_match => Some (whole id_match)
      | None => id
      end
    else id in
  (name, id).

Definition find_prescriber (lines : list pystr) : option pystr * option pystr :=
  fold_left prescriber_step lines (None, None).

(** [PrescriptionMedication(drug_name=line)] *)
Definition new_med (line : pystr) : PrescriptionMedication :=
  {| drug_name := Some line; dosage_text := None; frequency_text := None;
     duration_days := None; quantity := None |}.

(** A header line opens a new medication. *)
Definition is_header (line : pystr) : bool :=
  isupper line
  || any_term ["compresse"; "capsule"; "fiale"; "crema"; "pomata"]%string line.

(** The [elif current_med:] branch: a continuation line fills the
    attributes that are still false. *)
Definition continue_med (med : PrescriptionMedication) (line : pystr)
  : PrescriptionMedication :=
  {| drug_name := drug_name med;
     dosage_text :=
       if negb (truthy_str (dosage_text med)) then _parse_dosage line
       else dosage_text med;
     frequency_text :=
       if negb (truthy_str (frequency_text med)) then _parse_frequency line
       else frequency_text med;
     duration_days :=
       if negb (truthy_int (duration_days med)) then _parse_duration line
       else duration_days med;
     quantity :=
       if negb (truthy_int (quantity med)) then _parse_quantity line
       else quantity med |}.

(** Third loop: the state is [current_med] and the medications appended
    so far. *)
Definition med_step
    (acc : option PrescriptionMedication * list PrescriptionMedication)
    (line : pystr)
  : option PrescriptionMedication * list PrescriptionMedication :=
  let '(current_med, meds) := acc in
  if is_header line then
    (Some (new_med line),
     match current_med with
     | Some med => meds ++ [med]
     | None => meds
     end)
  else
    match current_med with
    | Some med => (Some (continue_med med line), meds)
    | None => (None, meds)
    end.

Definition find_medications (lines : list pystr) : list PrescriptionMedication :=
  let '(current_med, meds) := fold_left med_step lines (None, []) in
  match current_med with
  | Some med => meds ++ [med]
  | None => meds
  end.

(** Fourth loop: the lines that are none of the extracted values. *)
Definition is_note (date name id : option pystr)
    (meds : list PrescriptionMedication) (line : pystr) : bool :=
  (negb (truthy_str date) || negb (contains line (default [] date)))
  && (negb (truthy_str name) || negb (eqb line (default [] name)))
  && (negb (truthy_str id) || negb (eqb line (default [] id)))
  && negb (existsb
             (fun m => truthy_str (drug_name m) && eqb line (default [] (drug_name m)))
             meds).

Definition _parse_data (lines : list pystr) : result Prescription :=
  date ← find_prescription_date lines;
  let '(name, id) := find_prescriber lines in
  let meds := find_medications lines in
  let note_lines := List.filter (is_note date name id meds) lines in
  let p :=
    {| prescription_date := date;
       prescriber_name := name;
       prescriber_id := id;
       language := u "it";
       medications := meds;
       notes :=
         if bool_decide (note_lines = []) then None else Some (join (u " ") note_lines);
       rx_warnings :=
         (if truthy_str date then [] else [u "Data della prescrizione non trovata"])
         ++ (if truthy_str name then [] else [u "Nome del prescrittore non trovato"])
         ++ (if bool_decide (meds = []) then [u "Nessun farmaco trovato nella prescrizione"]
             else []);
       rx_quality_score := 0%Q |} in
  Ok {| prescription_date := prescription_date p;
        prescriber_name := prescriber_name p;
        prescriber_id := prescriber_id p;
        language := language p;
        medications := medications p;
        notes := notes p;
        rx_warnings := rx_warnings p;
        rx_quality_score := _calculate_quality_score p |}.

(** [TextractPrescriptionParser(textract_json)]: the constructor. *)
Definition init (data : textract_json) : result Prescription :=
  _parse_data (_extract_lines data).

End TextractPrescriptionParser.

(** ** The entry points *)

Module TextractNormalizer.

Definition normalize_invoice (data : textract_json) : result Invoice :=
  TextractInvoiceParser.invoice <$> TextractInvoiceParser.init data.

Definition normalize_prescription (data : textract_json) : result Prescription :=
  TextractPrescriptionParser.init data.

End TextractNormalizer.

(** ** Definitions used in the statements below *)

(** The OCR line the invoice parser makes of a LINE block. *)
Definition line_of_block (b : Block) : TextractInvoiceParser.Line :=
  {| TextractInvoiceParser.text := strip (default [] (Text b));
     TextractInvoiceParser.confidence := default 0%Q (Confidence b) |}.

Definition count_some {A : Type} (o : option A) : nat :=
  match o with
  | Some _ => 1
  | None => 0
  end.

(** A line has the keyword of [_find_date] and carries a date that
    [strptime] accepts: the gated loop reaches its [return]. *)
Definition reaches_strftime (keyword_pattern : Re.regex)
    (line : TextractInvoiceParser.Line) : bool :=
  Re.test true keyword_pattern (TextractInvoiceParser.text line)
  && match Re.search false TextractInvoiceParser.date_re
             (TextractInvoiceParser.text line) with
     | Some m => bool_decide (is_Some (strptime_dmY (Re.group_text 1 m)))
     | None => false
     end.

(** ** Documents used as examples *)

Module Examples.

(** A LINE block with an id, a text and a confidence. *)
Definition line_block (id text : string) (conf : Q) : Block :=
  {| Id := Some (u id); BlockType := Some (u "LINE"); Text := Some (u text);
     Confidence := Some conf; RowIndex := None; ColumnIndex := None;
     Relationships := None |}.

(** A block tagged LINE that carries no text and no confidence. *)
Definition bare_line_block : Block :=
  {| Id := Some (u "l1"); BlockType := Some (u "LINE"); Text := None;
     Confidence := None; RowIndex := None; ColumnIndex := None;
     Relationships := None |}.

Definition word_block (id text : string) : Block :=
  {| Id := Some (u id); BlockType := Some (u "WORD"); Text := Some (u text);
     Confidence := Some 99%Q; RowIndex := None; ColumnIndex := None;
     Relationships := None |}.

Definition cell_block (id : string) (row col : Z) (word_ids : list string) : Block :=
  {| Id := Some (u id); BlockType := Some (u "CELL"); Text := None;
     Confidence := Some 99%Q; RowIndex := Some row; ColumnIndex := Some col;
     Relationships := Some [ {| Type_ := u "CHILD"; Ids := u <$> word_ids |} ] |}.

Definition table_block (id : string) (cell_ids : list string) : Block :=
  {| Id := Some (u id); BlockType := Some (u "TABLE"); Text := None;
     Confidence := Some 99%Q; RowIndex := None; ColumnIndex := None;
     Relationships := Some [ {| Type_ := u "CHILD"; Ids := u <$> cell_ids |} ] |}.

(** One line "TOTALE 100", read with confidence 99. *)
Definition total_only_doc : textract_json :=
  {| Blocks := Some [line_block "1" "TOTALE 100" 99] |}.

(** One line with the documented issue date. *)
Definition issue_date_doc : textract_json :=
  {| Blocks := Some [line_block "1" "Data documento 15/03/2024" 99] |}.

(** One line with the documented prescription date. *)
Definition prescription_date_doc : textract_json :=
  {| Blocks := Some [line_block "1" "Data: 15 marzo 2024" 99] |}.

(** One line with the documented total, read with confidence 98.2. *)
Definition documented_total_doc : textract_json :=
  {| Blocks := Some [line_block "1" "TOTALE € 1.234,56" (982 # 10)] |}.

(** Supplier, invoice number, a date without keyword, and the documented
    total. *)
Definition unparsed_total_doc : textract_json :=
  {| Blocks := Some [line_block "1" "ACME S.r.l." 99;
                     line_block "2" "Fattura n. 12345" 98;
                     line_block "3" "15/03/2024" 97;
                     line_block "4" "TOTALE € 1.234,56" (982 # 10)] |}.

(** The lines of the medication-grouping scenario. *)
Definition scenario_lines : list pystr :=
  [u "AMOXICILLINA"; u "500 mg"; u "2 volte al giorno"; u "per 7 giorni";
   u "ACICLOVIR CREMA"; u "applicare 2 volte al dì"].

(** A medication whose first continuation line gives a duration of 0. *)
Definition zero_duration_lines : list pystr :=
  [u "AMOXICILLINA"; u "per 0 giorni"; u "per 7 giorni"].

(** A table of three rows and four columns; its cells are listed out of
    row order, one cell has two words and one has none. *)
Definition table : Block :=
  table_block "t"
    ["c21"; "c22"; "c23"; "c24"; "c11"; "c12"; "c13"; "c14";
     "c31"; "c32"; "c33"; "c34"]%string.

Definition table_cells : list Block :=
  [ cell_block "c11" 1 1 ["w11a"; "w11b"]%string; cell_block "c12" 1 2 ["w12"]%string;
    cell_block "c13" 1 3 ["w13"]%string; cell_block "c14" 1 4 ["w14"]%string;
    cell_block "c21" 2 1 ["w21"]%string; cell_block "c22" 2 2 ["w22"]%string;
    cell_block "c23" 2 3 ["w23"]%string; cell_block "c24" 2 4 ["w24"]%string;
    cell_block "c31" 3 1 ["w31"]%string; cell_block "c32" 3 2 ["w32"]%string;
    cell_block "c33" 3 3 ["w33"]%string; cell_block "c34" 3 4 []%string ]%Z.

Definition table_words : list Block :=
  [ word_block "w11a" "Visita"; word_block "w11b" "medica"; word_block "w12" "1";
    word_block "w13" "80,00"; word_block "w14" "80,00";
    word_block "w21" "Analisi"; word_block "w22" "2";
    word_block "w23" "12,50"; word_block "w24" "25,00";
    word_block "w31" "Ticket"; word_block "w32" "x";
    word_block "w33" "3.5" ].

Definition table_doc : textract_json :=
  {| Blocks := Some (line_block "l1" "Fattura" 99 :: table :: table_cells ++ table_words) |}.



End Examples.

(** * Definitions for the further properties *)
(** ** What a match of a regular expression is *)

Module ReSpec.
Import Re.

(** [matches ic r t c]: the text [t] is matched by [r] (as a whole), the
    groups that take part being [c], the latest first. *)
Inductive matches (ic : bool) : regex → pystr → captures → Prop :=
| M_Eps : matches ic Eps [] []
| M_Lit c x : item_matches ic x (CChar c) = true → matches ic (Lit c) [x] []
| M_Cls cs x : in_set ic cs x = true → matches ic (Cls cs) [x] []
| M_Rep cs lo hi t :
    Forall (λ x, in_set ic cs x = true) t →
    (lo ≤ length t)%nat →
    (∀ h, hi = Some h → (length t ≤ h)%nat) →
    matches ic (Rep cs lo hi) t []
| M_Opt_none r : matches ic (Opt r) [] []
| M_Opt_some r t c : matches ic r t c → matches ic (Opt r) t c
| M_Seq r1 r2 t1 t2 c1 c2 :
    matches ic r1 t1 c1 → matches ic r2 t2 c2 →
    matches ic (Seq r1 r2) (t1 ++ t2) (c2 ++ c1)
| M_Alt_l r1 r2 t c : matches ic r1 t c → matches ic (Alt r1 r2) t c
| M_Alt_r r1 r2 t c : matches ic r2 t c → matches ic (Alt r1 r2) t c
| M_Grp i r t c : matches ic r t c → matches ic (Grp i r) t ((i, t) :: c).

End ReSpec.

(** The groups of a pattern with their bodies. *)
Fixpoint group_bodies (r : Re.regex) : list (nat * Re.regex) :=
  match r with
  | Re.Eps | Re.Lit _ | Re.Cls _ | Re.Rep _ _ _ => []
  | Re.Opt r1 => group_bodies r1
  | Re.Seq r1 r2 | Re.Alt r1 r2 => group_bodies r1 ++ group_bodies r2
  | Re.Grp i r1 => (i, r1) :: group_bodies r1
  end.

(** A computation that can only raise KeyError. *)
Definition only_key_error {A : Type} (r : result A) : Prop :=
  ∀ e, r = Raise e → e = KeyError.

(** The characters of the amount that [_find_total] takes from a line,
    and the number such an amount stands for when it has at most one
    separator: its digits, scaled by the number of characters that follow
    the separator. *)
Definition is_separator (c : char) : bool := (c =? 46) || (c =? 44).

Definition amount_char (c : char) : bool := is_digit c || is_separator c.


(** Digits and the full stop: what is left of an amount once
    [replace(",", ".")] is done. *)
Definition plain_char (c : char) : bool := is_digit c || (c =? 46).

(** The currency signs of the total pattern. *)
Definition currency_sign (c : char) : bool := (c =? 8364) || (c =? 36).

Definition not_amount_char (c : char) : bool := negb (amount_char c).

(** The leading characters of [s] that satisfy [p]. *)
Definition leading (p : char -> bool) (s : pystr) : pystr :=
  take (length s - length (lstrip p s)) s.

(** The first run of amount characters of a text, and the text before
    it. *)
Definition amount_run (s : pystr) : pystr :=
  leading amount_char (lstrip not_amount_char s).

Definition before_amount (s : pystr) : pystr := leading not_amount_char s.

(** The currency that goes with the first amount of a text: the sign
    right before the amount, or before the one white-space character that
    precedes the amount; "EUR" without such a sign. *)
Definition amount_currency (s : pystr) : pystr :=
  match rev (before_amount s) with
  | c :: r =>
      if currency_sign c then [c]
      else if is_space c then
        match r with
        | c' :: _ => if currency_sign c' then [c'] else u "EUR"
        | [] => u "EUR"
        end
      else u "EUR"
  | [] => u "EUR"
  end.

(** The total pattern at the head of a text, written out: an optional
    sign, an optional white-space character, a run of amount
    characters. *)
Definition amount_at (pre : pystr) (caps : Re.captures) (t : pystr)
  : option (Re.rematch * pystr) :=
  match t with
  | x :: _ =>
      if amount_char x
      then Some ({| Re.whole := pre ++ leading amount_char t;
                    Re.groups := (2%nat, leading amount_char t) :: caps |},
                 lstrip amount_char t)
      else None
  | [] => None
  end.

Definition spaced_amount_at (pre : pystr) (caps : Re.captures) (t : pystr)
  : option (Re.rematch * pystr) :=
  match t with
  | sp :: t' =>
      if is_space sp then amount_at (pre ++ [sp]) caps t' else amount_at pre caps t
  | [] => None
  end.

Definition total_prefix (s : pystr) : option (Re.rematch * pystr) :=
  match s with
  | x :: s' =>
      if currency_sign x then spaced_amount_at [x] [(1%nat, [x])] s'
      else spaced_amount_at [] [] s
  | [] => None
  end.

(** The currency [_find_total] reads off a match of the total pattern. *)
Definition currency_of_match (m : Re.rematch) : pystr :=
  match Re.group 1 m with
  | Some (c :: g) => c :: g
  | _ => u "EUR"
  end.

(** The lines [_find_total] can take a total from: a total keyword and an
    amount character. *)
Definition is_total_line (l : TextractInvoiceParser.Line) : bool :=
  Re.test true TextractInvoiceParser.total_kw (TextractInvoiceParser.text l)
  && existsb amount_char (TextractInvoiceParser.text l).

Module MoreExamples.

(** A total line on which a year comes before the amount. *)
Definition year_before_total_doc : textract_json :=
  {| Blocks := Some [Examples.line_block "1" "Totale fattura 2024: € 150,00" 99;
                     Examples.line_block "2" "Importo dovuto" 99] |}.

(** An invoice of one line and a page block that has no id. *)
Definition no_id_doc : textract_json :=
  {| Blocks := Some [ {| Id := None; BlockType := Some (u "PAGE"); Text := None;
                         Confidence := None; RowIndex := None; ColumnIndex := None;
                         Relationships := None |};
                      Examples.line_block "1" "TOTALE 100" 99 ] |}.

(** Two words with the same id. *)
Definition duplicate_id_doc : textract_json :=
  {| Blocks := Some [Examples.word_block "w" "first"; Examples.word_block "v" "other";
                     Examples.word_block "w" "second"] |}.

(** A LINE block of a prescription. *)
Definition rx_line (t : pystr) : Block :=
  {| Id := None; BlockType := Some (u "LINE"); Text := Some t; Confidence := None;
     RowIndex := None; ColumnIndex := None; Relationships := None |}.

(** Two lines that name a prescriber, and a line in capitals with an id
    that is longer than 16 characters. *)
Definition prescriber_doc : textract_json :=
  {| Blocks := Some (rx_line <$> [u "Dott. Mario Rossi"; u "Medico: Dr. Verdi";
                                  u "CF: RSSMRA80A01H501UX"; u "riposo"]) |}.

(** The medication-grouping scenario as a document. *)
Definition scenario_doc : textract_json :=
  {| Blocks := Some (rx_line <$> Examples.scenario_lines) |}.

End MoreExamples.

(** ** Well-formed block graphs *)

(** [key in d] *)
Definition has_key {A : Type} (o : option A) : bool :=
  match o with
  | Some _ => true
  | None => false
  end.

(** Some block of the graph has the id [cid]. *)
Definition resolves (blocks : list Block) (cid : pystr) : bool :=
  existsb (fun c => bool_decide (Id c = Some cid)) blocks.

(** A block with an id and a type, whose relationships point to blocks of
    the graph, and which has its row and column when it is a cell. *)
Definition well_formed_block (blocks : list Block) (b : Block) : bool :=
  has_key (Id b) && has_key (BlockType b)
  && (if has_type "CELL" b then has_key (RowIndex b) && has_key (ColumnIndex b)
      else true)
  && forallb (fun rel => forallb (resolves blocks) (Ids rel))
             (default [] (Relationships b)).

Definition well_formed (data : textract_json) : bool :=
  forallb (well_formed_block (blocks_of data)) (blocks_of data).

(** ** Prescriptions: the lines that name the prescriber *)

Definition is_prescriber_line (line : pystr) : bool :=
  TextractPrescriptionParser.any_term ["dott"; "dr."; "medico"; "farmacista"]%string line.

(** The identifier a line gives: the line has one of the id terms and a
    run of 11 capital letters or digits. *)
Definition id_of_line (line : pystr) : option pystr :=
  if TextractPrescriptionParser.any_term ["codice fiscale"; "cf:"; "id"]%string line
  then Re.whole <$> Re.search false TextractPrescriptionParser.prescriber_id_re line
  else None.

(** [[x] if o is None else []] *)
Definition when_none {A : Type} (o : option A) (x : pystr) : list pystr :=
  match o with
  | Some _ => []
  | None => [x]
  end.

(** The medications of a state of the third loop of [_parse_data]: those
    appended so far and the current one. *)
Definition option_list_med (o : option PrescriptionMedication)
  : list PrescriptionMedication :=
  match o with
  | Some m => [m]
  | None => []
  end.

Definition med_state_list
    (st : option PrescriptionMedication * list PrescriptionMedication)
  : list PrescriptionMedication :=
  st.2 ++ option_list_med st.1.

Definition med_names
    (st : option PrescriptionMedication * list PrescriptionMedication)
  : list (option pystr) :=
  drug_name <$> med_state_list st.

(** One point of the prescription score. *)
Definition point (b : bool) : Q := if b then 1%Q else 0%Q.

(** The letters and digits of a prescriber id. *)
Definition id_char (c : char) : bool := in_range 65 90 c || in_range 48 57 c.

(** A line that goes into the notes of a prescription with the prescriber
    [name] and [id]: it is neither of the two and it is no header line. *)
Definition is_note_line (name id : option pystr) (line : pystr) : bool :=
  negb (bool_decide (name = Some line)) && negb (bool_decide (id = Some line))
  && negb (TextractPrescriptionParser.is_header line).

(** ** Groups of a pattern *)

(** The groups that take part in every match of a pattern. *)
Fixpoint sure_groups (r : Re.regex) : list nat :=
  match r with
  | Re.Grp i r1 => i :: sure_groups r1
  | Re.Seq r1 r2 => sure_groups r1 ++ sure_groups r2
  | _ => []
  end.

(** The pattern [\d+]. *)
Definition is_digit_run (r : Re.regex) : bool :=
  match r with
  | Re.Rep [Re.CDigit] 1 None => true
  | _ => false
  end.

(** Group 1 of the pattern is [(\d+)] and takes part in every match. *)
Definition group1_is_digit_run (p : Re.regex) : bool :=
  bool_decide (1%nat ∈ sure_groups p)
  && forallb (fun g => negb (g.1 =? 1)%nat || is_digit_run g.2) (group_bodies p).



(** ** The text of a cell *)

(** The ids that [_get_text] looks up for a block: those of its CHILD
    relationships, in order. *)
Definition child_ids (b : Block) : list pystr :=
  flat_map (fun rel => if bool_decide (Type_ rel = u "CHILD") then Ids rel else [])
           (default [] (Relationships b)).

(** What the block with id [cid] adds to the text: its [Text] when it is
    a WORD or a SELECTION_ELEMENT. *)
Definition word_text (block_map : gmap pystr Block) (cid : pystr) : option pystr :=
  word ← block_map !! cid;
  if has_type "WORD" word || has_type "SELECTION_ELEMENT" word
  then Some (default [] (Text word))
  else None.

(** ** Processing one file ([TextractNormalizer.process_file]) *)

(** What [process_file] hands to [save_json]. *)
Inductive record :=
| InvoiceRecord (inv : Invoice)
| PrescriptionRecord (p : Prescription).

(** What a run does to the outside: it calls the OCR service, it calls
    [save_json], it sleeps. *)
Inductive event :=
| Submit (attempt : nat)
| Save (data : record) (filename : pystr)
| Sleep (seconds : nat).

Definition submits (events : list event) : list nat :=
  omap (fun e => match e with Submit a => Some a | _ => None end) events.

Definition sleeps (events : list event) : list nat :=
  omap (fun e => match e with Sleep s => Some s | _ => None end) events.

Definition saves (events : list event) : list pystr :=
  omap (fun e => match e with Save _ f => Some f | _ => None end) events.

(** An exception inside the [try] of [process_file]: one of the parsers',
    or one of the service or of [save_json]. *)
Inductive failure (E : Type) :=
| ParserError (e : exn)
| OtherError (e : E).
Arguments ParserError {E} e.
Arguments OtherError {E} e.

Section ProcessFile.

(** The surroundings of a run: the exceptions of the service and of
    [save_json] (instances of [Exception], which the [except] clause
    catches), what the service answers to the call of each attempt, and
    what [save_json] does there.  [max_retries] and [base_backoff] are
    natural numbers; logging raises nothing. *)
Context {E : Type}.
Variable analyze_document : nat -> textract_json + E.
Variable save_json : nat -> record -> pystr -> option E.

(** The body of the [try]: the events, and the exception if there is
    one. *)
Definition attempt_body (filename : pystr) (attempt : nat)
  : list event * option (failure E) :=
  match analyze_document attempt with
  | inr e => ([Submit attempt], Some (OtherError e))
  | inl response =>
      if contains (u "invoice") filename then
        match TextractNormalizer.normalize_invoice response with
        | Raise e => ([Submit attempt], Some (ParserError e))
        | Ok data =>
            ([Submit attempt; Save (InvoiceRecord data) (u "invoice_a.json")],
             OtherError <$> save_json attempt (InvoiceRecord data) (u "invoice_a.json"))
        end
      else if contains (u "prescription") filename then
        match TextractNormalizer.normalize_prescription response with
        | Raise e => ([Submit attempt], Some (ParserError e))
        | Ok data =>
            ([Submit attempt; Save (PrescriptionRecord data) (u "rx_it.json")],
             OtherError <$> save_json attempt (PrescriptionRecord data) (u "rx_it.json"))
        end
      else ([Submit attempt], None)
  end.

(** The loop over the attempts that are left. *)
Fixpoint attempts (filename : pystr) (max_retries base_backoff : nat)
    (todo : list nat) : list event * option (failure E) :=
  match todo with
  | [] => ([], None)
  | attempt :: rest =>
      match attempt_body filename attempt with
      | (events, None) => (events, None)
      | (events, Some e) =>
          if (attempt <? max_retries)%nat then
            let '(events', r) := attempts filename max_retries base_backoff rest in
            (events ++ Sleep (base_backoff ^ attempt) :: events', r)
          else (events, Some e)
      end
  end.

(** [process_file(file_path, file_bytes, max_retries, base_backoff)] for a
    file called [name]: the events, and the exception it raises, if any. *)
Definition process_file (name : pystr) (max_retries base_backoff : nat)
  : list event * option (failure E) :=
  attempts (lower name) max_retries base_backoff (seq 1 max_retries).

End ProcessFile.

(** * Properties *)

Import TextractNormalizer.

(** Closed facts are settled by evaluation. *)
Ltac by_evaluation := vm_compute; reflexivity.

(** ** Flattening of the block graph *)

Section Flattening.

Lemma invoice_lines_map_filter (bs : list Block) :
  flat_map (fun block => if has_type "LINE" block then [line_of_block block] else []) bs
  = line_of_block <$> filter (λ b, has_type "LINE" b) bs.
Proof.
  induction bs as [|b bs IH]; [done|].
  cbn [flat_map]. rewrite filter_cons, IH.
  destruct (has_type "LINE" b) eqn:E.
  - rewrite decide_True by done. done.
  - rewrite decide_False by (cbn; tauto). done.
Qed.

Lemma prescription_lines_omap_filter (bs : list Block) :
  flat_map (fun block =>
              if has_type "LINE" block
              then match Text block with Some t => [t] | None => [] end
              else []) bs
  = omap Text (filter (λ b, has_type "LINE" b) bs).
Proof.
  induction bs as [|b bs IH]; [done|].
  cbn [flat_map]. rewrite filter_cons, IH.
  destruct (has_type "LINE" b) eqn:E.
  - rewrite decide_True by done. cbn [omap list_omap]. by destruct (Text b).
  - rewrite decide_False by (cbn; tauto). done.
Qed.

(** C9, as stated, fails for the prescription parser: a LINE node without a
    Text field gets no entry in its line sequence, so the sequence is
    shorter than the list of LINE nodes. *)
Lemma C9_prescription_skips_textless_line :
  let data := {| Blocks := Some [Examples.bare_line_block] |} in
  length (filter (λ b, has_type "LINE" b) (blocks_of data)) = 1%nat
  ∧ TextractPrescriptionParser._extract_lines data = []
  ∧ length (TextractInvoiceParser._extract_lines data) = 1%nat.
Proof. repeat split; by_evaluation. Qed.

(** C9 (amended): the invoice parser's line sequence has one entry per node
    tagged LINE, in emission order, with the trimmed text (empty when the
    Text field is absent or blank) and the confidence (0 when absent); the
    prescription parser's line sequence holds the untrimmed text of the
    LINE nodes that have a Text field, in emission order, and skips the
    LINE nodes without one. *)
Theorem C9_flattened_lines (data : textract_json) :
  let line_nodes := filter (λ b, has_type "LINE" b) (blocks_of data) in
  TextractInvoiceParser._extract_lines data = line_of_block <$> line_nodes
  ∧ length (TextractInvoiceParser._extract_lines data) = length line_nodes
  ∧ (∀ b, Text b = None → TextractInvoiceParser.text (line_of_block b) = [])
  ∧ (∀ b, Confidence b = None →
          TextractInvoiceParser.confidence (line_of_block b) = 0%Q)
  ∧ TextractPrescriptionParser._extract_lines data = omap Text line_nodes.
Proof.
  cbv zeta.
  assert (E : TextractInvoiceParser._extract_lines data
              = line_of_block <$> filter (λ b, has_type "LINE" b) (blocks_of data))
    by apply invoice_lines_map_filter.
  split; [exact E|]. split; [by rewrite E, length_fmap|].
  split; [by intros b Hb; cbn; rewrite Hb|].
  split; [by intros b Hb; cbn; rewrite Hb|].
  apply prescription_lines_omap_filter.
Qed.

End Flattening.

(** ** The invoice parser *)

Section Invoice.
Import TextractInvoiceParser.

Lemma collect_warnings_set_warnings w inv n :
  _collect_warnings (set_warnings w inv) n = _collect_warnings inv n.
Proof. reflexivity. Qed.

(** What a run of [_parse_data] that returns has stored where. *)
Lemma parse_data_ok data lines st :
  _parse_data data lines = Ok st →
  ∃ issue due items,
    _find_date issue_date_kw true lines = Ok issue
    ∧ _find_date due_date_kw false lines = Ok due
    ∧ _extract_line_items data = Ok items
    ∧ supplier_name (invoice st) = value <$> _find_supplier_name lines
    ∧ invoice_number (invoice st) = value <$> _find_invoice_number lines
    ∧ issue_date (invoice st) = value <$> issue
    ∧ due_date (invoice st) = value <$> due
    ∧ invoice_total (invoice st) = _find_total lines ≫= total_value
    ∧ currency (invoice st) = total_currency <$> _find_total lines
    ∧ line_items (invoice st) = items
    ∧ found_fields st =
        (count_some (_find_supplier_name lines) + count_some (_find_invoice_number lines)
         + count_some issue + count_some (_find_total lines))%nat
    ∧ quality_score (invoice st)
      = calc_quality_score (confidences st) (found_fields st) (length REQUIRED_FIELDS)
    ∧ warnings (invoice st) = _collect_warnings (invoice st) (found_fields st).
Proof.
  unfold _parse_data. intros H.
  destruct (_find_date issue_date_kw true lines) as [issue|e] eqn:Ei; [|discriminate].
  destruct (_find_date due_date_kw false lines) as [due|e] eqn:Ed; [|discriminate].
  destruct (_extract_line_items data) as [items|e] eqn:Et; [|discriminate].
  exists issue, due, items.
  cbn [mbind result_bind] in H.
  destruct (_find_supplier_name lines), (_find_invoice_number lines), issue, due,
    (_find_total lines).
  all: injection H as <-.
  all: repeat apply conj.
  all: cbn [invoice confidences found_fields record_field set_supplier_name
            set_invoice_number set_issue_date set_due_date set_total set_line_items
            set_quality_score set_warnings supplier_name invoice_number issue_date
            due_date invoice_total currency line_items warnings quality_score
            fmap option_fmap option_map mbind option_bind count_some Nat.add].
  all: lazymatch goal with
       | |- _collect_warnings _ _ = _ => symmetry; apply collect_warnings_set_warnings
       | _ => reflexivity
       end.
Qed.

Lemma normalize_invoice_ok data inv :
  normalize_invoice data = Ok inv →
  ∃ st, init data = Ok st ∧ invoice st = inv.
Proof.
  unfold normalize_invoice. destruct (init data) as [st|e]; cbn; [|discriminate].
  intros [= <-]. by exists st.
Qed.

Lemma missing_warning_text :
  missing_warning F_invoice_number = u "Missing required field: invoice_number"
  ∧ missing_warning F_issue_date = u "Missing required field: issue_date"
  ∧ missing_warning F_supplier_name = u "Missing required field: supplier_name"
  ∧ missing_warning F_invoice_total = u "Missing required field: invoice_total".
Proof. repeat split; by_evaluation. Qed.

(** C5: the warnings of a parsed invoice are, in this order, one "Missing
    required field" entry for each of invoice_number, issue_date,
    supplier_name and invoice_total that is null in the final record, then
    the generic low-coverage warning exactly when found_fields < 4; nothing
    else. *)
Theorem C5_invoice_warnings (data : textract_json) (st : parse_state) :
  init data = Ok st →
  let inv := invoice st in
  warnings inv =
    (if bool_decide (invoice_number inv = None)
     then [u "Missing required field: invoice_number"] else [])
    ++ (if bool_decide (issue_date inv = None)
        then [u "Missing required field: issue_date"] else [])
    ++ (if bool_decide (supplier_name inv = None)
        then [u "Missing required field: supplier_name"] else [])
    ++ (if bool_decide (invoice_total inv = None)
        then [u "Missing required field: invoice_total"] else [])
    ++ (if (found_fields st <? 4)%nat
        then [u "Some key fields not extracted with high confidence"] else []).
Proof.
  intros H inv.
  destruct (parse_data_ok _ _ _ H) as (issue & due & items & _ & _ & _ & _ & _ & _ & _
                                        & _ & _ & _ & _ & _ & Hw).
  subst inv. rewrite Hw.
  destruct missing_warning_text as (<- & <- & <- & <-).
  unfold _collect_warnings, REQUIRED_FIELDS, low_coverage_warning.
  cbn [flat_map is_none length app].
  rewrite <- !app_assoc.
  repeat case_bool_decide; reflexivity.
Qed.

Lemma C5_invoice_warnings_witness :
  ∃ st, init Examples.total_only_doc = Ok st
    ∧ warnings (invoice st) =
        [u "Missing required field: invoice_number";
         u "Missing required field: issue_date";
         u "Missing required field: supplier_name";
         u "Some key fields not extracted with high confidence"].
Proof.
  assert (E : ∃ st, init Examples.total_only_doc = Ok st) by (vm_compute; eauto).
  destruct E as [st E]. exists st. split; [exact E|].
  rewrite (C5_invoice_warnings Examples.total_only_doc st E).
  revert E. vm_compute. intros [= <-]. reflexivity.
Defined.

(** *** Totals *)

Lemma first_some_app_none {A B : Type} (f : A -> option B) (l1 l2 : list A) :
  Forall (λ a, f a = None) l1 →
  first_some f (l1 ++ l2) = first_some f l2.
Proof.
  induction 1 as [|a l1 Ha _ IH]; [done|].
  cbn. by rewrite Ha.
Qed.

Lemma total_of_line_no_keyword l :
  Re.test true total_kw (text l) = false → total_of_line l = None.
Proof. unfold total_of_line. by intros ->. Qed.

Lemma total_of_documented_line l :
  text l = u "TOTALE € 1.234,56" →
  total_of_line l
  = Some {| total_value := None; total_currency := u "€";
            total_confidence := confidence l |}.
Proof.
  destruct l as [t c]. cbn [text confidence]. intros ->. by_evaluation.
Qed.

(** The last line that carries a total keyword decides the result when a
    number follows the keyword on it. *)
Lemma find_total_last_keyword_line pre l post t :
  Forall (λ l', Re.test true total_kw (text l') = false) post →
  total_of_line l = Some t →
  _find_total (pre ++ l :: post) = Some t.
Proof.
  intros Hpost Hl. unfold _find_total.
  rewrite rev_app_distr. cbn [rev]. rewrite <- !app_assoc.
  rewrite first_some_app_none.
  - cbn. by rewrite Hl.
  - apply Forall_forall. intros x Hx. apply total_of_line_no_keyword.
    rewrite Forall_forall in Hpost. apply Hpost.
    apply list_elem_of_In. apply list_elem_of_In in Hx.
    by apply in_rev.
Qed.

(** C4, as stated, fails: on the documented line the amount text
    "1.234,56" becomes "1.234.56", which is no number, so the total of
    the record is null (it is not 1234.56); the currency is "€". *)
Lemma C4_documented_total_is_null :
  invoice_total <$> normalize_invoice Examples.documented_total_doc = Ok None
  ∧ currency <$> normalize_invoice Examples.documented_total_doc = Ok (Some (u "€"))
  ∧ _safe_float (u "1.234,56") = None
  ∧ py_float (u "1.234.56") = None.
Proof. repeat split; by_evaluation. Qed.

(** C4 (amended): for an invoice whose line sequence contains the line
    "TOTALE € 1.234,56" and no later line matching a total keyword, total
    extraction yields invoice_total = null and currency = "€". *)
Theorem C4_total_extraction (data : textract_json) (inv : Invoice)
    (pre post : list Line) (l : Line) :
  _extract_lines data = pre ++ l :: post →
  text l = u "TOTALE € 1.234,56" →
  Forall (λ l', Re.test true total_kw (text l') = false) post →
  normalize_invoice data = Ok inv →
  invoice_total inv = None ∧ currency inv = Some (u "€").
Proof.
  intros Hlines Htext Hpost Hinv.
  destruct (normalize_invoice_ok _ _ Hinv) as (st & Hst & <-).
  unfold init in Hst. rewrite Hlines in Hst.
  destruct (parse_data_ok _ _ _ Hst) as (issue & due & items & _ & _ & _ & _ & _ & _ & _
                                          & Htot & Hcur & _).
  rewrite (find_total_last_keyword_line pre l post _ Hpost
             (total_of_documented_line l Htext)) in Htot, Hcur.
  split; [exact Htot | exact Hcur].
Qed.

Lemma C4_total_extraction_witness :
  ∃ inv, normalize_invoice Examples.documented_total_doc = Ok inv
    ∧ invoice_total inv = None ∧ currency inv = Some (u "€").
Proof.
  assert (E : ∃ inv, normalize_invoice Examples.documented_total_doc = Ok inv)
    by (vm_compute; eauto).
  destruct E as [inv E]. exists inv. split; [exact E|].
  apply (C4_total_extraction Examples.documented_total_doc inv [] []
           {| text := u "TOTALE € 1.234,56"; confidence := 982 # 10 |}).
  - by_evaluation.
  - reflexivity.
  - constructor.
  - exact E.
Defined.

(** C10: there is an invoice on which a line matches a total keyword while
    its amount fails numeric parsing: the record has invoice_total = null
    and the warning "Missing required field: invoice_total", the three
    other required fields are found, found_fields is 4, so coverage is 1
    and validation is 1, and the generic low-coverage warning is absent. *)
Theorem C10_unparsed_total_counts_as_found :
  ∃ (data : textract_json) (st : parse_state) (t : FoundTotal),
    init data = Ok st
    ∧ _find_total (_extract_lines data) = Some t
    ∧ total_value t = None
    ∧ invoice_total (invoice st) = None
    ∧ is_Some (supplier_name (invoice st))
    ∧ is_Some (invoice_number (invoice st))
    ∧ is_Some (issue_date (invoice st))
    ∧ found_fields st = 4%nat
    ∧ Qeq (coverage_of (found_fields st) (length REQUIRED_FIELDS)) 1
    ∧ validation_of (coverage_of (found_fields st) (length REQUIRED_FIELDS)) = 1%Q
    ∧ warnings (invoice st) = [u "Missing required field: invoice_total"]
    ∧ low_coverage_warning ∉ warnings (invoice st).
Proof.
  assert (E : ∃ st, init Examples.unparsed_total_doc = Ok st) by (vm_compute; eauto).
  destruct E as [st E].
  assert (T : ∃ t, _find_total (_extract_lines Examples.unparsed_total_doc) = Some t)
    by (vm_compute; eauto).
  destruct T as [t T].
  exists Examples.unparsed_total_doc, st, t.
  split; [exact E|]. split; [exact T|].
  revert E T. vm_compute. intros [= <-] [= <-].
  repeat split; eauto.
  intros H. apply list_elem_of_In in H. cbn in H. destruct H as [H|[]]. discriminate H.
Qed.

(** *** Dates *)

(** The gated loop has no way to return a date: it falls through or it
    raises. *)
Lemma find_date_gated_cases kw lines :
  find_date_gated kw lines = Ok None ∨ find_date_gated kw lines = Raise TypeError.
Proof.
  induction lines as [|l lines IH]; [by left|].
  cbn [find_date_gated].
  destruct (Re.test true kw (text l)); [|exact IH].
  destruct (Re.search false date_re (text l)) as [m|]; [|exact IH].
  destruct (strptime_dmY (Re.group_text 1 m)); [|exact IH].
  by right.
Qed.

Lemma find_date_gated_raises kw lines :
  Exists (λ l, reaches_strftime kw l = true) lines →
  find_date_gated kw lines = Raise TypeError.
Proof.
  induction lines as [|l lines IH]; intros H; [by apply Exists_nil in H|].
  cbn [find_date_gated]. unfold reaches_strftime in H.
  apply Exists_cons in H.
  destruct (Re.test true kw (text l)) eqn:Ek.
  - destruct (Re.search false date_re (text l)) as [m|] eqn:Em.
    + destruct (strptime_dmY (Re.group_text 1 m)) as [d|] eqn:Ed; [done|].
      destruct H as [H|H]; [|by apply IH].
      cbn in H. discriminate H.
    + destruct H as [H|H]; [done|by apply IH].
  - destruct H as [H|H]; [done|by apply IH].
Qed.

Lemma parse_data_raises data lines :
  find_date_gated issue_date_kw lines = Raise TypeError →
  _parse_data data lines = Raise TypeError.
Proof. intros H. unfold _parse_data, _find_date. rewrite H. reflexivity. Qed.

Lemma documented_issue_line_reaches_strftime l :
  text l = u "Data documento 15/03/2024" →
  reaches_strftime issue_date_kw l = true.
Proof. destruct l as [t c]. cbn [text]. intros ->. by_evaluation. Qed.

(** Every invoice with the documented issue-date line makes the parser
    raise. *)
Lemma invoice_with_documented_date_raises data :
  (∃ l, l ∈ _extract_lines data ∧ text l = u "Data documento 15/03/2024") →
  normalize_invoice data = Raise TypeError.
Proof.
  intros (l & Hin & Ht).
  unfold normalize_invoice, init.
  rewrite parse_data_raises; [reflexivity|].
  apply find_date_gated_raises, Exists_exists.
  exists l. split; [exact Hin|]. by apply documented_issue_line_reaches_strftime.
Qed.

Lemma find_date_fallback_cases lines :
  value <$> find_date_fallback lines = None
  ∨ ∃ d, value <$> find_date_fallback lines = Some (DateObj d).
Proof.
  unfold find_date_fallback.
  induction lines as [|l ls IH]; [by left|].
  cbn [first_some].
  destruct (Re.search false date_re (text l)) as [m|]; [|exact IH].
  cbn [mbind option_bind].
  destruct (strptime_dmY (Re.group_text 1 m)) as [d|]; [|exact IH].
  right. by exists d.
Qed.

(** The issue date of a parsed invoice is never the string of the gated
    path: it is absent or a [date] object of the fallback path; the due
    date, which has no fallback, is always absent. *)
Lemma invoice_dates_of_parsed data st :
  init data = Ok st →
  due_date (invoice st) = None
  ∧ (issue_date (invoice st) = None ∨ ∃ d, issue_date (invoice st) = Some (DateObj d)).
Proof.
  intros H. unfold init in H.
  destruct (parse_data_ok _ _ _ H) as (issue & due & items & Hi & Hd & _ & _ & _ & Hiss
                                        & Hdue & _).
  unfold _find_date in Hi, Hd.
  destruct (find_date_gated_cases due_date_kw (_extract_lines data)) as [E|E];
    rewrite E in Hd; [|discriminate].
  injection Hd as <-.
  destruct (find_date_gated_cases issue_date_kw (_extract_lines data)) as [E'|E'];
    rewrite E' in Hi; [|discriminate].
  injection Hi as <-.
  split; [exact Hdue|].
  rewrite Hiss. apply find_date_fallback_cases.
Qed.

End Invoice.

(** ** The prescription parser *)

Section Prescription.
Import TextractPrescriptionParser.

(** Whatever the text, the [try] body of [_parse_date] has no value to
    return: it ends without one or in the TypeError of [strftime()]. *)
Lemma parse_date_body_cases text m :
  parse_date_body text m = Ok None ∨ parse_date_body text m = Raise TypeError.
Proof.
  unfold parse_date_body.
  destruct (contains (u "/") text || contains (u "-") text || contains (u ".") text).
  - destruct (py_int (Re.group_text 1 m)) as [day|]; [|by left].
    destruct (py_int (Re.group_text 2 m)) as [month|]; [|by left].
    destruct (py_int (Re.group_text 3 m)) as [year|]; [|by left].
    cbv zeta. destruct (new_date _ month day); [by right|by left].
  - destruct (py_int (Re.group_text 1 m)) as [day|]; [|by left].
    destruct (py_int (Re.group_text 3 m)) as [year|]; [|by left].
    destruct (month_map_get _) as [month|]; [|by left].
    destruct (month =? 0)%Z; [by left|].
    destruct (new_date year month day); [by right|by left].
Qed.

Lemma parse_date_loop_none text patterns :
  parse_date_loop text patterns = Ok None.
Proof.
  induction patterns as [|p ps IH]; [done|].
  cbn [parse_date_loop].
  destruct (Re.search false p text) as [m|]; [|exact IH].
  destruct (parse_date_body_cases text m) as [-> | ->]; exact IH.
Qed.

(** [_parse_date] never finds a date. *)
Lemma parse_date_none text : _parse_date text = Ok None.
Proof. apply parse_date_loop_none. Qed.

Lemma find_prescription_date_none lines : find_prescription_date lines = Ok None.
Proof.
  induction lines as [|l ls IH]; [done|].
  cbn [find_prescription_date].
  destruct (contains (u "data") (lower l)); [|exact IH].
  rewrite parse_date_none. exact IH.
Qed.

(** The prescription parser returns a record on every line sequence. *)
Lemma prescription_parse_data_ok lines :
  ∃ p, _parse_data lines = Ok p ∧ prescription_date p = None.
Proof.
  unfold _parse_data. rewrite find_prescription_date_none.
  cbn [mbind result_bind].
  destruct (find_prescriber lines) as [name id].
  eexists. split; reflexivity.
Qed.

Lemma normalize_prescription_total data :
  ∃ p, normalize_prescription data = Ok p ∧ prescription_date p = None.
Proof. apply prescription_parse_data_ok. Qed.

(** The score of a prescription is one of 0, 1/5, ..., 1. *)
Lemma prescription_score_bounds p :
  (0 <= _calculate_quality_score p <= 1)%Q.
Proof.
  unfold _calculate_quality_score.
  destruct (truthy_str (prescription_date p)), (truthy_str (prescriber_name p)),
    (truthy_str (prescriber_id p)), (negb (bool_decide (medications p = []))),
    (existsb (λ m, truthy_str (drug_name m)) (medications p));
    vm_compute; split; discriminate.
Qed.

Lemma normalize_prescription_score_bounds data p :
  normalize_prescription data = Ok p →
  (0 <= rx_quality_score p <= 1)%Q.
Proof.
  unfold normalize_prescription, init, _parse_data.
  rewrite find_prescription_date_none. cbn [mbind result_bind].
  destruct (find_prescriber _) as [name id].
  intros [= <-]. cbn [rx_quality_score]. apply prescription_score_bounds.
Qed.

(** C2 fails on the code: on a one-line invoice "Data documento 15/03/2024"
    the invoice parser returns no record, it raises TypeError (the gated
    path of [_find_date] calls [strftime()] without a format and catches
    ValueError only).  The prescription parser, which catches TypeError as
    well, returns a record on every block graph. *)
Theorem C2_invoice_raises_type_error :
  normalize_invoice Examples.issue_date_doc = Raise TypeError
  ∧ (∀ data, ∃ p, normalize_prescription data = Ok p).
Proof.
  split; [by_evaluation|].
  intros data. destruct (normalize_prescription_total data) as (p & Hp & _).
  by exists p.
Qed.

(** C3 fails on the code in both documented cases, and for one reason:
    [strftime()] is called without a format.  Every invoice that has the
    line "Data documento 15/03/2024" makes the parser raise TypeError, so
    no issue date comes out; and the prescription parser, which swallows
    that TypeError, leaves prescription_date null on every document,
    "Data: 15 marzo 2024" included. *)
Theorem C3_documented_dates_do_not_resolve :
  (∀ data : textract_json,
     (∃ l, l ∈ TextractInvoiceParser._extract_lines data
           ∧ TextractInvoiceParser.text l = u "Data documento 15/03/2024") →
     normalize_invoice data = Raise TypeError)
  ∧ (∀ data : textract_json,
       prescription_date <$> normalize_prescription data = Ok None)
  ∧ prescription_date <$> normalize_prescription Examples.prescription_date_doc
    = Ok None.
Proof.
  split; [exact invoice_with_documented_date_raises|].
  assert (H : ∀ data, prescription_date <$> normalize_prescription data = Ok None).
  { intros data. destruct (normalize_prescription_total data) as (p & -> & Hp).
    cbn. by rewrite Hp. }
  split; [exact H | apply H].
Qed.

Lemma C3_documented_dates_witness :
  normalize_invoice Examples.issue_date_doc = Raise TypeError.
Proof.
  apply (proj1 C3_documented_dates_do_not_resolve Examples.issue_date_doc).
  exists {| TextractInvoiceParser.text := u "Data documento 15/03/2024";
            TextractInvoiceParser.confidence := 99 |}.
  split; [|reflexivity].
  vm_compute. apply list_elem_of_here.
Defined.

(** *** Medications *)

(** The extractors on the examples the source gives in its comments.  The
    last frequency pattern has [[cp]], one character, where its comment
    writes "cp": "2 cp al dì" is not matched, "2 c al dì" is. *)
Example parse_frequency_examples :
  _parse_frequency (u "2 volte al giorno") = Some (u "2 volte al giorno")
  ∧ _parse_frequency (u "2 x die") = Some (u "2 volte al giorno")
  ∧ _parse_frequency (u "ogni 8 ore") = Some (u "8 volte al giorno")
  ∧ _parse_frequency (u "2 c al dì") = Some (u "2 volte al giorno")
  ∧ _parse_frequency (u "2 cp al dì") = None.
Proof. repeat split; by_evaluation. Qed.

Example parse_dosage_examples :
  _parse_dosage (u "5mg") = Some (u "5 mg")
  ∧ _parse_dosage (u "2.5 ml") = Some (u "2.5 ml")
  ∧ _parse_dosage (u "dose: 5mg") = Some (u "5 mg")
  ∧ _parse_dosage (u "2,5 ML") = Some (u "2.5 ML").
Proof. repeat split; by_evaluation. Qed.

Example parse_duration_examples :
  _parse_duration (u "per 7 giorni") = Some 7%Z
  ∧ _parse_duration (u "7 giorni") = Some 7%Z
  ∧ _parse_duration (u "durata: 7g") = Some 7%Z.
Proof. repeat split; by_evaluation. Qed.

(** C7, as stated, fails: the parser does not produce the two medications
    of the scenario.  The line "500 mg" also matches the last quantity
    pattern, so the first medication gets quantity 500; and no frequency
    pattern matches "applicare 2 volte al dì", so the second medication
    has no frequency. *)
Lemma C7_scenario_medications_differ :
  medications <$> _parse_data Examples.scenario_lines
  ≠ Ok [ {| drug_name := Some (u "AMOXICILLINA");
            dosage_text := Some (u "500 mg");
            frequency_text := Some (u "2 volte al giorno");
            duration_days := Some 7%Z;
            quantity := None |};
         {| drug_name := Some (u "ACICLOVIR CREMA");
            dosage_text := None;
            frequency_text := Some (u "2 volte al giorno");
            duration_days := None;
            quantity := None |} ].
Proof. vm_compute. discriminate. Qed.

(** C7 (amended): the scenario yields exactly two medications: the first
    with drug_name "AMOXICILLINA", dosage_text "500 mg", frequency_text
    "2 volte al giorno", duration_days 7 and quantity 500; the second with
    drug_name "ACICLOVIR CREMA" and no other attribute set. *)
Theorem C7_medication_grouping :
  medications <$> _parse_data Examples.scenario_lines
  = Ok [ {| drug_name := Some (u "AMOXICILLINA");
            dosage_text := Some (u "500 mg");
            frequency_text := Some (u "2 volte al giorno");
            duration_days := Some 7%Z;
            quantity := Some 500%Z |};
         {| drug_name := Some (u "ACICLOVIR CREMA");
            dosage_text := None;
            frequency_text := None;
            duration_days := None;
            quantity := None |} ].
Proof. by_evaluation. Qed.

Lemma scenario_line_extractors :
  _parse_frequency (u "applicare 2 volte al dì") = None
  ∧ _parse_quantity (u "500 mg") = Some 500%Z.
Proof. split; by_evaluation. Qed.

(** C8 fails on the code: a duration (or quantity) of 0 counts as not set.
    After the header "AMOXICILLINA" the continuation line "per 0 giorni"
    sets duration_days to 0 and the next continuation line "per 7 giorni"
    changes it to 7. *)
Theorem C8_zero_duration_is_overwritten :
  let med1 := continue_med (new_med (u "AMOXICILLINA")) (u "per 0 giorni") in
  let med2 := continue_med med1 (u "per 7 giorni") in
  duration_days med1 = Some 0%Z
  ∧ duration_days med2 = Some 7%Z
  ∧ (λ p, duration_days <$> medications p) <$> _parse_data Examples.zero_duration_lines
    = Ok [Some 7%Z].
Proof. repeat split; by_evaluation. Qed.

(** What does hold: an attribute with a true value is never changed by a
    continuation line. *)
Lemma continue_med_keeps_filled med line :
  (truthy_str (dosage_text med) = true →
   dosage_text (continue_med med line) = dosage_text med)
  ∧ (truthy_str (frequency_text med) = true →
     frequency_text (continue_med med line) = frequency_text med)
  ∧ (truthy_int (duration_days med) = true →
     duration_days (continue_med med line) = duration_days med)
  ∧ (truthy_int (quantity med) = true →
     quantity (continue_med med line) = quantity med)
  ∧ drug_name (continue_med med line) = drug_name med.
Proof.
  unfold continue_med. cbn [dosage_text frequency_text duration_days quantity drug_name].
  repeat apply conj; try reflexivity; by intros ->.
Qed.

Lemma first_some_Some {A B : Type} (f : A -> option B) (l : list A) (b : B) :
  first_some f l = Some b → ∃ a, a ∈ l ∧ f a = Some b.
Proof.
  induction l as [|a l IH]; [done|]. cbn.
  destruct (f a) as [b'|] eqn:E.
  - intros [= <-]. exists a. split; [left|done].
  - intros H. destruct (IH H) as (a' & Hin & Ha'). exists a'. split; [by right|done].
Qed.

Lemma first_pattern_Some {A : Type} patterns (convert : Re.rematch -> option A) text a :
  first_pattern patterns convert text = Some a → ∃ m, convert m = Some a.
Proof.
  unfold first_pattern. intros E.
  apply first_some_Some in E as (p & _ & E).
  destruct (Re.search true p text) as [m|]; [|done].
  by exists m.
Qed.

Lemma truthy_app_r (g t : pystr) : t ≠ [] → truthy_str (Some (g ++ t)) = true.
Proof. destruct g, t; done. Qed.

(** The texts the dosage and frequency extractors produce are not empty,
    so a dosage or frequency that a line has set is never replaced. *)
Lemma parse_dosage_truthy line :
  _parse_dosage line = None ∨ truthy_str (_parse_dosage line) = true.
Proof.
  destruct (_parse_dosage line) as [s|] eqn:E; [right|by left].
  unfold _parse_dosage in E.
  apply first_pattern_Some in E as (m & E).
  apply (inj Some) in E. rewrite <- E.
  apply truthy_app_r. by destruct (Re.group_text 2 m).
Qed.

Lemma parse_frequency_truthy line :
  _parse_frequency line = None ∨ truthy_str (_parse_frequency line) = true.
Proof.
  destruct (_parse_frequency line) as [s|] eqn:E; [right|by left].
  unfold _parse_frequency in E.
  apply first_pattern_Some in E as (m & E).
  apply (inj Some) in E. rewrite <- E.
  apply truthy_app_r. vm_compute. discriminate.
Qed.

(** First match wins for the dosage and the frequency, and for a duration
    or quantity different from 0: once set, a later continuation line of
    the same medication leaves the attribute as it is. *)
Lemma first_match_wins_unless_zero med line later :
  let med1 := continue_med med line in
  let med2 := fold_left continue_med later med1 in
  (is_Some (dosage_text med1) → dosage_text med = None →
   dosage_text med2 = dosage_text med1)
  ∧ (is_Some (frequency_text med1) → frequency_text med = None →
     frequency_text med2 = frequency_text med1)
  ∧ (∀ n, duration_days med1 = Some n → n ≠ 0%Z →
     duration_days med2 = Some n)
  ∧ (∀ n, quantity med1 = Some n → n ≠ 0%Z → quantity med2 = Some n).
Proof.
  intros med1 med2.
  assert (K : ∀ ls m,
    (truthy_str (dosage_text m) = true →
     dosage_text (fold_left continue_med ls m) = dosage_text m)
    ∧ (truthy_str (frequency_text m) = true →
       frequency_text (fold_left continue_med ls m) = frequency_text m)
    ∧ (truthy_int (duration_days m) = true →
       duration_days (fold_left continue_med ls m) = duration_days m)
    ∧ (truthy_int (quantity m) = true →
       quantity (fold_left continue_med ls m) = quantity m)).
  { induction ls as [|l ls IH]; intros m; [done|].
    cbn [fold_left].
    destruct (continue_med_keeps_filled m l) as (H1 & H2 & H3 & H4 & _).
    destruct (IH (continue_med m l)) as (I1 & I2 & I3 & I4).
    repeat apply conj; intros T.
    - rewrite <- (H1 T). apply I1. by rewrite (H1 T).
    - rewrite <- (H2 T). apply I2. by rewrite (H2 T).
    - rewrite <- (H3 T). apply I3. by rewrite (H3 T).
    - rewrite <- (H4 T). apply I4. by rewrite (H4 T). }
  destruct (K later med1) as (K1 & K2 & K3 & K4).
  repeat apply conj.
  - intros Hs Hn. apply K1. subst med1. revert Hs.
    unfold continue_med. cbn [dosage_text]. rewrite Hn. cbn [truthy_str negb].
    destruct (parse_dosage_truthy line) as [-> | ->]; [by intros [? [=]]|done].
  - intros Hs Hn. apply K2. subst med1. revert Hs.
    unfold continue_med. cbn [frequency_text]. rewrite Hn. cbn [truthy_str negb].
    destruct (parse_frequency_truthy line) as [-> | ->]; [by intros [? [=]]|done].
  - intros n Hn Hz. fold med2. rewrite <- Hn. apply K3. rewrite Hn. cbn.
    by destruct (Z.eqb_spec n 0).
  - intros n Hn Hz. fold med2. rewrite <- Hn. apply K4. rewrite Hn. cbn.
    by destruct (Z.eqb_spec n 0).
Qed.

End Prescription.

(** ** Quality scores *)

Section QualityScores.

(** C1 fails on the code for invoices: a single line "TOTALE 100" read with
    confidence 99 gives the quality score 39.8, which is above 1.  For
    prescriptions the score does lie between 0 and 1 on every block
    graph. *)
Theorem C1_invoice_score_above_one :
  (∃ inv, normalize_invoice Examples.total_only_doc = Ok inv
     ∧ quality_score inv = (199 # 5)%Q
     ∧ (1 < quality_score inv)%Q)
  ∧ (∀ data p, normalize_prescription data = Ok p →
       (0 <= rx_quality_score p <= 1)%Q).
Proof.
  split; [|exact normalize_prescription_score_bounds].
  assert (E : ∃ inv, normalize_invoice Examples.total_only_doc = Ok inv)
    by (vm_compute; eauto).
  destruct E as [inv E]. exists inv. split; [exact E|].
  revert E. vm_compute. intros [= <-]. split; reflexivity.
Qed.

End QualityScores.

(** ** Table reconstruction *)

Section Tables.
Import TextractInvoiceParser.










Lemma add_table_items_other block_map items b :
  has_type "TABLE" b = false → add_table_items block_map items b = Ok items.
Proof. unfold add_table_items. by intros ->. Qed.


(** The loop of [_extract_line_items] passes over blocks that are not
    tables. *)
Lemma extract_loop_no_tables (block_map : gmap pystr Block) items bs :
  Forall (λ b, has_type "TABLE" b = false) bs →
  foldM (add_table_items block_map) items bs = Ok items.
Proof.
  induction 1 as [|b bs Hb _ IH]; [done|].
  cbn [foldM]. rewrite (add_table_items_other _ _ _ Hb). exact IH.
Qed.









End Tables.

(** * Further properties *)

(** ** Regular expressions: what the matcher finds is a match *)

Section RegexSoundness.
Import Re ReSpec.

Lemma rep_sound {A : Type} (p : char → bool) lo hi n s (k : pystr → option A) a :
  rep p lo hi n s k = Some a →
  ∃ t s', s = t ++ s' ∧ Forall (λ x, p x = true) t
          ∧ (lo ≤ n + length t)%nat
          ∧ (∀ h, hi = Some h → t ≠ [] → (n + length t ≤ h)%nat)
          ∧ k s' = Some a.
Proof.
  revert n. induction s as [|x s IH]; intros n; cbn [rep].
  - destruct (lo <=? n)%nat eqn:E; [|done]. intros Hk.
    exists [], []. cbn. repeat split; try done.
    apply Nat.leb_le in E. lia.
  - assert (Hstop : (if (lo <=? n)%nat then k (x :: s) else None) = Some a →
      ∃ t s', x :: s = t ++ s' ∧ Forall (λ x, p x = true) t
              ∧ (lo ≤ n + length t)%nat
              ∧ (∀ h, hi = Some h → t ≠ [] → (n + length t ≤ h)%nat)
              ∧ k s' = Some a).
    { destruct (lo <=? n)%nat eqn:E; [|done]. intros Hk.
      exists [], (x :: s). cbn. repeat split; try done.
      apply Nat.leb_le in E. lia. }
    destruct (p x && match hi with Some h => (n <? h)%nat | None => true end) eqn:Ep;
      [|exact Hstop].
    destruct (rep p lo hi (S n) s k) as [a'|] eqn:Er; [|exact Hstop].
    intros [= ->].
    destruct (IH _ Er) as (t & s' & -> & Ht & Hlo & Hhi & Hk).
    apply andb_true_iff in Ep as [Hpx Hn].
    exists (x :: t), s'. cbn [length app]. repeat split; try done.
    + by constructor.
    + lia.
    + intros h -> _. apply Nat.ltb_lt in Hn.
      destruct t as [|y t]; [cbn; lia|].
      specialize (Hhi h eq_refl). cbn [length] in *. 
      assert (y :: t ≠ []) by done. specialize (Hhi H). lia.
Qed.

(** The matcher only succeeds through a match: the continuation gets the
    text left over and the groups of the match on top of the earlier ones. *)
Lemma rmatch_sound {A : Type} ic r s caps (k : pystr → captures → option A) a :
  rmatch ic r s caps k = Some a →
  ∃ t s' c, s = t ++ s' ∧ matches ic r t c ∧ k s' (c ++ caps) = Some a.
Proof.
  revert s caps k. induction r as [|c|cs|cs lo hi|r IH|r1 IH1 r2 IH2|r1 IH1 r2 IH2|i r IH];
    intros s caps k; cbn [rmatch].
  - intros Hk. exists [], s, []. split; [done|]. split; [constructor|done].
  - destruct s as [|x s]; [done|].
    destruct (item_matches ic x (CChar c)) eqn:E; [|done]. intros Hk.
    exists [x], s, []. split; [done|]. split; [by constructor|done].
  - destruct s as [|x s]; [done|].
    destruct (in_set ic cs x) eqn:E; [|done]. intros Hk.
    exists [x], s, []. split; [done|]. split; [by constructor|done].
  - intros H. apply rep_sound in H as (t & s' & -> & Ht & Hlo & Hhi & Hk).
    exists t, s', []. split; [done|]. split; [|done].
    constructor; [done|lia|].
    intros h Hh. destruct t as [|y t]; [cbn; lia|]. by apply (Hhi h Hh).
  - destruct (rmatch ic r s caps k) as [a'|] eqn:E.
    + intros [= ->]. destruct (IH _ _ _ E) as (t & s' & c & -> & Hm & Hk).
      exists t, s', c. split; [done|]. split; [by constructor|done].
    + intros Hk. exists [], s, []. split; [done|]. split; [constructor|done].
  - intros H. destruct (IH1 _ _ _ H) as (t1 & s1 & c1 & -> & Hm1 & H1).
    destruct (IH2 _ _ _ H1) as (t2 & s2 & c2 & -> & Hm2 & H2).
    exists (t1 ++ t2), s2, (c2 ++ c1). split; [by rewrite app_assoc|].
    split; [by constructor|]. by rewrite <- app_assoc.
  - destruct (rmatch ic r1 s caps k) as [a'|] eqn:E.
    + intros [= ->]. destruct (IH1 _ _ _ E) as (t & s' & c & -> & Hm & Hk).
      exists t, s', c. split; [done|]. split; [by apply M_Alt_l|done].
    + intros H. destruct (IH2 _ _ _ H) as (t & s' & c & -> & Hm & Hk).
      exists t, s', c. split; [done|]. split; [by apply M_Alt_r|done].
  - intros H. destruct (IH _ _ _ H) as (t & s' & c & -> & Hm & Hk).
    exists t, s', ((i, t) :: c). split; [done|]. split; [by constructor|].
    revert Hk. rewrite length_app.
    replace (length t + length s' - length s')%nat with (length t) by lia.
    by rewrite take_app_length.
Qed.


Lemma take_length_app_sub (t s' : pystr) :
  take (length (t ++ s') - length s') (t ++ s') = t.
Proof.
  rewrite length_app.
  replace (length t + length s' - length s')%nat with (length t) by lia.
  apply take_app_length.
Qed.

Lemma match_prefix_sound ic r s m rest :
  match_prefix ic r s = Some (m, rest) →
  s = whole m ++ rest ∧ matches ic r (whole m) (groups m).
Proof.
  unfold match_prefix. intros E.
  apply rmatch_sound in E as (t & s' & c & -> & Hm & Hk).
  injection Hk as <- <-. cbn [whole groups].
  by rewrite take_length_app_sub, app_nil_r.
Qed.

(** [re.search] returns a match of the pattern inside the text. *)
Lemma search_sound ic r s m :
  search ic r s = Some m →
  ∃ before after, s = before ++ whole m ++ after ∧ matches ic r (whole m) (groups m).
Proof.
  induction s as [|x s IH]; cbn [search].
  - destruct (match_prefix ic r []) as [[m' rest]|] eqn:E; [|done].
    intros [= ->]. apply match_prefix_sound in E as [Hs Hm].
    by exists [], rest.
  - destruct (match_prefix ic r (x :: s)) as [[m' rest]|] eqn:E.
    + intros [= ->]. apply match_prefix_sound in E as [Hs Hm].
      by exists [], rest.
    + intros H. destruct (IH H) as (before & after & -> & Hm).
      by exists (x :: before), after.
Qed.

End RegexSoundness.

Section RegexGroups.
Import Re ReSpec.

(** Every group of a match holds a text matched by the body of that group. *)
Lemma matches_groups ic r t c :
  matches ic r t c →
  ∀ i x, (i, x) ∈ c → ∃ r' c', (i, r') ∈ group_bodies r ∧ matches ic r' x c'.
Proof.
  induction 1 as [| | | | |r t c Hm IH|r1 r2 t1 t2 c1 c2 Hm1 IH1 Hm2 IH2
                  |r1 r2 t c Hm IH|r1 r2 t c Hm IH|j r t c Hm IH];
    intros i' x' Hin; cbn [group_bodies].
  1-5: by apply elem_of_nil in Hin.
  - by apply IH.
  - apply elem_of_app in Hin as [Hin|Hin].
    + destruct (IH2 _ _ Hin) as (r' & c' & Hr & Hm). exists r', c'.
      split; [|done]. apply elem_of_app. by right.
    + destruct (IH1 _ _ Hin) as (r' & c' & Hr & Hm). exists r', c'.
      split; [|done]. apply elem_of_app. by left.
  - destruct (IH _ _ Hin) as (r' & c' & Hr & Hm'). exists r', c'.
    split; [|done]. apply elem_of_app. by left.
  - destruct (IH _ _ Hin) as (r' & c' & Hr & Hm'). exists r', c'.
    split; [|done]. apply elem_of_app. by right.
  - apply elem_of_cons in Hin as [[= -> ->]|Hin].
    + exists r, c. split; [left|done].
    + destruct (IH _ _ Hin) as (r' & c' & Hr & Hm'). exists r', c'.
      split; [by right|done].
Qed.

Lemma group_elem_of i m x : group i m = Some x → (i, x) ∈ groups m.
Proof.
  unfold group. induction (groups m) as [|[j y] l IH]; [done|].
  cbn. destruct (j =? i)%nat eqn:E.
  - cbn. intros [= ->]. apply Nat.eqb_eq in E as ->. left.
  - intros H. right. by apply IH.
Qed.

(** The text of a group of a search result is matched by the body of one
    of the pattern's groups with that number. *)
Lemma search_group ic r s m i x :
  search ic r s = Some m → group i m = Some x →
  ∃ r' c', (i, r') ∈ group_bodies r ∧ matches ic r' x c'.
Proof.
  intros Hs Hg. apply search_sound in Hs as (_ & _ & _ & Hm).
  eapply matches_groups; [exact Hm|]. by apply group_elem_of.
Qed.

Lemma matches_rep ic cs lo hi t c :
  matches ic (Rep cs lo hi) t c →
  Forall (λ x, in_set ic cs x = true) t ∧ (lo ≤ length t)%nat
  ∧ (∀ h, hi = Some h → (length t ≤ h)%nat).
Proof. by inversion 1. Qed.

Lemma search_rep ic cs lo hi s m :
  search ic (Rep cs lo hi) s = Some m →
  Forall (λ x, in_set ic cs x = true) (whole m) ∧ (lo ≤ length (whole m))%nat
  ∧ (∀ h, hi = Some h → (length (whole m) ≤ h)%nat)
  ∧ ∃ before after, s = before ++ whole m ++ after.
Proof.
  intros Hs. apply search_sound in Hs as (b & a & Hs & Hm).
  apply matches_rep in Hm as (H1 & H2 & H3). repeat split; eauto.
Qed.

End RegexGroups.

(** ** Further properties of the invoice parser *)

Section InvoiceFields.
Import TextractInvoiceParser.

Lemma in_set_digit x : Re.in_set false Re.digit x = is_digit x.
Proof. unfold Re.in_set, Re.digit. cbn. by rewrite orb_false_r. Qed.

(** X1: The invoice number of a parsed invoice is a run of at least three
    decimal digits, cut out of a line that carries an invoice-number
    keyword. *)
Theorem invoice_number_is_digit_run (data : textract_json) (inv : Invoice) (n : pystr) :
  normalize_invoice data = Ok inv →
  invoice_number inv = Some n →
  (3 ≤ length n)%nat
  ∧ Forall (λ c, is_digit c = true) n
  ∧ ∃ line before after,
      line ∈ _extract_lines data
      ∧ text line = before ++ n ++ after
      ∧ Re.test true invoice_number_kw (text line) = true.
Proof.
  intros Hinv Hn.
  destruct (normalize_invoice_ok _ _ Hinv) as (st & Hst & <-).
  destruct (parse_data_ok _ _ _ Hst) as (_ & _ & _ & _ & _ & _ & _ & Hnum & _).
  rewrite Hnum in Hn. clear Hnum.
  destruct (_find_invoice_number (_extract_lines data)) as [f|] eqn:E; [|done].
  injection Hn as <-. unfold _find_invoice_number in E.
  apply first_some_Some in E as (line & Hin & E).
  destruct (Re.test true invoice_number_kw (text line)) eqn:Ekw; [|done].
  destruct (Re.search false digits3_re (text line)) as [m|] eqn:Em; [|done].
  injection E as <-. cbn [value].
  apply search_rep in Em as (Hd & Hlen & _ & before & after & Htext).
  split; [exact Hlen|]. split.
  - eapply Forall_impl; [exact Hd|]. intros x Hx. rewrite <- in_set_digit. exact Hx.
  - by exists line, before, after.
Qed.

Lemma invoice_number_is_digit_run_witness :
  ∃ inv, normalize_invoice Examples.unparsed_total_doc = Ok inv
    ∧ invoice_number inv = Some (u "12345")
    ∧ (3 ≤ length (u "12345"))%nat.
Proof.
  assert (E : ∃ inv, normalize_invoice Examples.unparsed_total_doc = Ok inv
                     ∧ invoice_number inv = Some (u "12345")).
  { vm_compute. eauto. }
  destruct E as (inv & E & Hn). exists inv. split; [exact E|]. split; [exact Hn|].
  exact (proj1 (invoice_number_is_digit_run _ _ _ E Hn)).
Defined.

(** X2: The supplier name is the text of the first of the first five lines
    that holds a company token; the lines from the sixth on are never
    looked at. *)
Theorem supplier_name_from_first_five_lines (data : textract_json) (inv : Invoice) :
  normalize_invoice data = Ok inv →
  supplier_name inv
  = text <$> head (filter (λ l, Re.test true supplier_re (text l))
                          (take 5 (_extract_lines data))).
Proof.
  intros Hinv.
  destruct (normalize_invoice_ok _ _ Hinv) as (st & Hst & <-).
  destruct (parse_data_ok _ _ _ Hst) as (_ & _ & _ & _ & _ & _ & Hsup & _).
  rewrite Hsup. unfold _find_supplier_name.
  induction (take 5 (_extract_lines data)) as [|l ls IH]; [done|].
  cbn [first_some]. rewrite filter_cons.
  destruct (Re.test true supplier_re (text l)) eqn:E.
  - by rewrite decide_True.
  - rewrite decide_False by (cbn; tauto). exact IH.
Qed.

Lemma supplier_name_from_first_five_lines_witness :
  ∃ inv, normalize_invoice Examples.unparsed_total_doc = Ok inv
    ∧ supplier_name inv = Some (u "ACME S.r.l.").
Proof.
  assert (E : ∃ inv, normalize_invoice Examples.unparsed_total_doc = Ok inv)
    by (vm_compute; eauto).
  destruct E as (inv & E). exists inv. split; [exact E|].
  rewrite (supplier_name_from_first_five_lines _ _ E). by_evaluation.
Defined.

End InvoiceFields.

Section InvoiceOutcome.
Import TextractInvoiceParser.

Lemma only_key_error_ok {A : Type} (a : A) : only_key_error (Ok a).
Proof. by intros e. Qed.

Lemma only_key_error_getitem {A : Type} (o : option A) : only_key_error (getitem o).
Proof. destruct o; intros e; [done|]. by intros [= <-]. Qed.

Lemma only_key_error_bind {A B : Type} (r : result A) (f : A → result B) :
  only_key_error r → (∀ a, only_key_error (f a)) → only_key_error (r ≫= f).
Proof.
  intros Hr Hf e. destruct r as [a|e']; cbn.
  - apply Hf.
  - intros [= <-]. by apply Hr.
Qed.

Lemma only_key_error_foldM {A S : Type} (f : S → A → result S) s l :
  (∀ s a, only_key_error (f s a)) → only_key_error (foldM f s l).
Proof.
  intros Hf. revert s. induction l as [|a l IH]; intros s; cbn [foldM].
  - apply only_key_error_ok.
  - apply only_key_error_bind; [apply Hf|]. intros s'. apply IH.
Qed.

Lemma only_key_error_get_text cell block_map :
  only_key_error (_get_text cell block_map).
Proof.
  unfold _get_text. apply only_key_error_bind; [|intros; apply only_key_error_ok].
  apply only_key_error_foldM. intros words rel.
  destruct (bool_decide _); [|apply only_key_error_ok].
  apply only_key_error_foldM. intros ws cid.
  apply only_key_error_bind; [apply only_key_error_getitem|].
  intros word. destruct (_ || _); apply only_key_error_ok.
Qed.

Lemma only_key_error_table_rows block_map block :
  only_key_error (table_rows block_map block).
Proof.
  unfold table_rows. apply only_key_error_foldM. intros rows rel.
  destruct (bool_decide _); [|apply only_key_error_ok].
  apply only_key_error_foldM. intros rs cid.
  apply only_key_error_bind; [apply only_key_error_getitem|]. intros cell.
  apply only_key_error_bind; [apply only_key_error_getitem|]. intros ty.
  destruct (bool_decide _); [|apply only_key_error_ok].
  apply only_key_error_bind; [apply only_key_error_getitem|]. intros row.
  apply only_key_error_bind; [apply only_key_error_getitem|]. intros col.
  apply only_key_error_bind; [apply only_key_error_get_text|]. intros text.
  apply only_key_error_ok.
Qed.

(** Table reconstruction fails with KeyError only. *)
Lemma only_key_error_extract_line_items data :
  only_key_error (_extract_line_items data).
Proof.
  unfold _extract_line_items. apply only_key_error_bind.
  - unfold build_block_map. apply only_key_error_foldM. intros m b.
    apply only_key_error_bind; [apply only_key_error_getitem|].
    intros; apply only_key_error_ok.
  - intros bm. apply only_key_error_foldM. intros items b.
    unfold add_table_items. destruct (has_type "TABLE" b); [|apply only_key_error_ok].
    apply only_key_error_bind; [apply only_key_error_table_rows|].
    intros; apply only_key_error_ok.
Qed.

Lemma find_date_gated_falls_through kw lines :
  ¬ Exists (λ l, reaches_strftime kw l = true) lines →
  find_date_gated kw lines = Ok None.
Proof.
  induction lines as [|l lines IH]; intros H; [done|].
  rewrite Exists_cons in H. cbn [find_date_gated].
  assert (Hl : reaches_strftime kw l ≠ true) by tauto.
  assert (Hls : find_date_gated kw lines = Ok None) by (apply IH; tauto).
  unfold reaches_strftime in Hl.
  destruct (Re.test true kw (text l)); [|done].
  destruct (Re.search false date_re (text l)) as [m|]; [|done].
  destruct (strptime_dmY (Re.group_text 1 m)) as [d|]; [|done].
  exfalso. apply Hl. reflexivity.
Qed.

Lemma find_date_gated_raises_iff kw lines :
  find_date_gated kw lines = Raise TypeError
  ↔ Exists (λ l, reaches_strftime kw l = true) lines.
Proof.
  split; [|apply find_date_gated_raises].
  intros H. destruct (decide (Exists (λ l, reaches_strftime kw l = true) lines))
    as [|Hn]; [done|].
  by rewrite (find_date_gated_falls_through _ _ Hn) in H.
Qed.

(** X3: The three outcomes of the invoice parser.  It raises TypeError
    exactly when some line has an issue-date or due-date keyword together
    with a date that parses; otherwise it raises KeyError exactly when
    table reconstruction does, and returns a record exactly when table
    reconstruction succeeds.  The other extractors never fail. *)
Theorem invoice_parse_outcome (data : textract_json) :
  let lines := _extract_lines data in
  let dated :=
    Exists (λ l, reaches_strftime issue_date_kw l = true) lines
    ∨ Exists (λ l, reaches_strftime due_date_kw l = true) lines in
  (normalize_invoice data = Raise TypeError ↔ dated)
  ∧ (normalize_invoice data = Raise KeyError
     ↔ ¬ dated ∧ _extract_line_items data = Raise KeyError)
  ∧ ((∃ inv, normalize_invoice data = Ok inv)
     ↔ ¬ dated ∧ ∃ items, _extract_line_items data = Ok items).
Proof.
  cbv zeta. unfold normalize_invoice, init, _parse_data, _find_date.
  rewrite <- !find_date_gated_raises_iff.
  destruct (find_date_gated_cases issue_date_kw (_extract_lines data)) as [-> | ->];
    [|cbn [mbind result_bind fmap result_fmap]; naive_solver].
  destruct (find_date_gated_cases due_date_kw (_extract_lines data)) as [-> | ->];
    [|cbn [mbind result_bind fmap result_fmap]; naive_solver].
  cbn [mbind result_bind].
  pose proof (only_key_error_extract_line_items data) as Hk.
  destruct (_extract_line_items data) as [items|e];
    cbn [mbind result_bind fmap result_fmap].
  - naive_solver.
  - rewrite (Hk e eq_refl). naive_solver.
Qed.

End InvoiceOutcome.

Section InvoiceDatesAndWarnings.
Import TextractInvoiceParser.

Lemma new_date_valid y m d dt :
  new_date y m d = Some dt →
  dt = {| year := y; month := m; day := d |}
  ∧ (1 ≤ y ≤ 9999)%Z ∧ (1 ≤ m ≤ 12)%Z ∧ (1 ≤ d ≤ days_in_month y m)%Z.
Proof.
  unfold new_date.
  destruct (_ && _) eqn:E; [|done]. intros [= <-].
  repeat (apply andb_true_iff in E as [E ?]).
  split; [done|]. lia.
Qed.

Lemma strptime_valid s dt :
  strptime_dmY s = Some dt →
  (1 ≤ year dt ≤ 9999)%Z ∧ (1 ≤ month dt ≤ 12)%Z
  ∧ (1 ≤ day dt ≤ days_in_month (year dt) (month dt))%Z.
Proof.
  unfold strptime_dmY.
  destruct (Re.match_prefix true format_dmY s) as [[m rest]|]; [|done].
  cbn [mbind option_bind]. destruct (bool_decide (rest = [])); [|done].
  destruct (Re.group 1 m ≫= py_int) as [d|]; [|done].
  destruct (Re.group 2 m ≫= py_int) as [mo|]; [|done].
  destruct (Re.group 3 m ≫= py_int) as [y|]; [|done].
  cbn [mbind option_bind]. intros H.
  by apply new_date_valid in H as (-> & ? & ? & ?).
Qed.

(** X4: The dates of a parsed invoice.  The due date is always null.  The
    issue date is never a string: it is null or the [date] object of the
    first line, keyword or not, that holds a text d/m/Y [strptime]
    accepts, and that date is a date of the calendar. *)
Theorem parsed_invoice_dates (data : textract_json) (inv : Invoice) :
  normalize_invoice data = Ok inv →
  due_date inv = None
  ∧ issue_date inv = value <$> find_date_fallback (_extract_lines data)
  ∧ (issue_date inv = None
     ∨ ∃ d line m,
         issue_date inv = Some (DateObj d)
         ∧ line ∈ _extract_lines data
         ∧ Re.search false date_re (text line) = Some m
         ∧ strptime_dmY (Re.group_text 1 m) = Some d
         ∧ (1 ≤ year d ≤ 9999)%Z ∧ (1 ≤ month d ≤ 12)%Z
         ∧ (1 ≤ day d ≤ days_in_month (year d) (month d))%Z).
Proof.
  intros Hinv.
  destruct (normalize_invoice_ok _ _ Hinv) as (st & Hst & <-).
  destruct (invoice_dates_of_parsed _ _ Hst) as [Hdue _].
  unfold init in Hst.
  destruct (parse_data_ok _ _ _ Hst) as (issue & due & items & Hi & _ & _ & _ & _ & Hiss
                                          & _).
  unfold _find_date in Hi.
  destruct (find_date_gated_cases issue_date_kw (_extract_lines data)) as [E|E];
    rewrite E in Hi; [|discriminate].
  injection Hi as <-.
  split; [exact Hdue|]. split; [exact Hiss|].
  rewrite Hiss. unfold find_date_fallback.
  destruct (first_some _ (_extract_lines data)) as [f|] eqn:Ef; [right|by left].
  apply first_some_Some in Ef as (line & Hin & Ef).
  destruct (Re.search false date_re (text line)) as [m|] eqn:Em; [|done].
  cbn [mbind option_bind] in Ef.
  destruct (strptime_dmY (Re.group_text 1 m)) as [d|] eqn:Ed; [|done].
  injection Ef as <-. exists d, line, m.
  destruct (strptime_valid _ _ Ed) as (? & ? & ?). by repeat (split; [done|]).
Qed.

Lemma parsed_invoice_dates_witness :
  ∃ inv, normalize_invoice Examples.unparsed_total_doc = Ok inv
    ∧ due_date inv = None
    ∧ issue_date inv = Some (DateObj {| year := 2024; month := 3; day := 15 |}).
Proof.
  assert (E : ∃ inv, normalize_invoice Examples.unparsed_total_doc = Ok inv)
    by (vm_compute; eauto).
  destruct E as (inv & E). exists inv. split; [exact E|].
  destruct (parsed_invoice_dates _ _ E) as (Hdue & Hiss & _).
  split; [exact Hdue|]. rewrite Hiss. by_evaluation.
Defined.

Lemma collect_warnings_missing inv n f :
  is_none inv f = true → missing_warning f ∈ _collect_warnings inv n.
Proof.
  intros Hf. unfold _collect_warnings. apply elem_of_app. left.
  apply list_elem_of_In, in_flat_map. exists f. split.
  - unfold REQUIRED_FIELDS. destruct f; cbn [In]; tauto.
  - rewrite Hf. left. reflexivity.
Qed.

Lemma collect_warnings_nil inv n :
  (∀ f, is_none inv f = false) → (4 ≤ n)%nat → _collect_warnings inv n = [].
Proof.
  intros Hf Hn. unfold _collect_warnings, REQUIRED_FIELDS.
  cbn [flat_map length]. rewrite !Hf. cbn [app].
  destruct (Nat.ltb_spec n 4) as [?|_]; [lia|reflexivity].
Qed.

Lemma is_none_false inv f :
  is_none inv f = false ↔
  match f with
  | F_invoice_number => is_Some (invoice_number inv)
  | F_issue_date => is_Some (issue_date inv)
  | F_supplier_name => is_Some (supplier_name inv)
  | F_invoice_total => is_Some (invoice_total inv)
  end.
Proof.
  destruct f; cbn [is_none]; rewrite bool_decide_eq_false, <- not_eq_None_Some; done.
Qed.

(** X5: The warnings of a parsed invoice are empty exactly when its four
    required fields are all filled, at most four fields are counted as
    found, and the generic low-coverage warning never comes alone: when it
    is given, one of invoice number, issue date, supplier name and total
    is null and has its own warning.  A total is never given without a
    currency. *)
Theorem parsed_invoice_warnings_and_fields (data : textract_json) (st : parse_state) :
  init data = Ok st →
  let inv := invoice st in
  (found_fields st ≤ 4)%nat
  ∧ (warnings inv = []
     ↔ is_Some (invoice_number inv) ∧ is_Some (issue_date inv)
       ∧ is_Some (supplier_name inv) ∧ is_Some (invoice_total inv))
  ∧ (low_coverage_warning ∈ warnings inv →
     ∃ f, is_none inv f = true ∧ missing_warning f ∈ warnings inv)
  ∧ (is_Some (invoice_total inv) → is_Some (currency inv)).
Proof.
  intros H inv.
  destruct (parse_data_ok _ _ _ H) as (issue & due & items & _ & _ & _ & Hsup & Hnum
                                        & Hiss & _ & Htot & Hcur & _ & Hfound & _ & Hw).
  fold inv in Hsup, Hnum, Hiss, Htot, Hcur, Hw.
  assert (Hle : (found_fields st ≤ 4)%nat).
  { rewrite Hfound. unfold count_some.
    destruct (_find_supplier_name _), (_find_invoice_number _), issue, (_find_total _);
      cbn; lia. }
  assert (Hall : (∀ f, is_none inv f = false) → (4 ≤ found_fields st)%nat).
  { intros Hf.
    pose proof (proj1 (is_none_false inv F_invoice_number) (Hf _)) as [? E1].
    pose proof (proj1 (is_none_false inv F_issue_date) (Hf _)) as [? E2].
    pose proof (proj1 (is_none_false inv F_supplier_name) (Hf _)) as [? E3].
    pose proof (proj1 (is_none_false inv F_invoice_total) (Hf _)) as [? E4].
    rewrite Hfound. rewrite Hsup in E3. rewrite Hnum in E1. rewrite Hiss in E2.
    rewrite Htot in E4. unfold count_some.
    destruct (_find_supplier_name _), (_find_invoice_number _), issue, (_find_total _);
      try discriminate; cbn; lia. }
  assert (Hsome : (∃ f, is_none inv f = true) ∨ (∀ f, is_none inv f = false)).
  { destruct (is_none inv F_invoice_number) eqn:E1; [left; eauto|].
    destruct (is_none inv F_issue_date) eqn:E2; [left; eauto|].
    destruct (is_none inv F_supplier_name) eqn:E3; [left; eauto|].
    destruct (is_none inv F_invoice_total) eqn:E4; [left; eauto|].
    right. intros []; assumption. }
  split; [exact Hle|]. rewrite Hw. split; [|split].
  - split.
    + intros Hnil. destruct Hsome as [(f & Hf)|Hf].
      * pose proof (collect_warnings_missing inv (found_fields st) f Hf) as Hin.
        rewrite Hnil in Hin. by apply elem_of_nil in Hin.
      * pose proof (λ f, proj1 (is_none_false inv f) (Hf f)) as Hs.
        exact (conj (Hs F_invoice_number) (conj (Hs F_issue_date)
                 (conj (Hs F_supplier_name) (Hs F_invoice_total)))).
    + intros (H1 & H2 & H3 & H4).
      assert (Hf : ∀ f, is_none inv f = false)
        by (intros []; apply is_none_false; assumption).
      apply collect_warnings_nil; [exact Hf|exact (Hall Hf)].
  - intros Hin. destruct Hsome as [(f & Hf)|Hf].
    + exists f. split; [exact Hf|]. by apply collect_warnings_missing.
    + rewrite (collect_warnings_nil inv _ Hf (Hall Hf)) in Hin.
      by apply elem_of_nil in Hin.
  - rewrite Htot, Hcur. destruct (_find_total _); [eauto|].
    cbn [mbind option_bind]. intros [? [=]].
Qed.

Lemma parsed_invoice_warnings_and_fields_witness :
  ∃ st, init Examples.total_only_doc = Ok st
    ∧ (found_fields st ≤ 4)%nat
    ∧ low_coverage_warning ∈ warnings (invoice st)
    ∧ ∃ f, is_none (invoice st) f = true ∧ missing_warning f ∈ warnings (invoice st).
Proof.
  assert (E : ∃ st, init Examples.total_only_doc = Ok st
                ∧ low_coverage_warning ∈ warnings (invoice st)).
  { eexists. split; [by_evaluation|].
    apply (bool_decide_unpack _). vm_compute. exact I. }
  destruct E as (st & E & Hin). exists st. split; [exact E|].
  destruct (parsed_invoice_warnings_and_fields _ _ E) as (Hle & _ & Hlow & _).
  split; [exact Hle|]. split; [exact Hin|]. exact (Hlow Hin).
Defined.

End InvoiceDatesAndWarnings.

Section SafeFloat.
Import TextractInvoiceParser.

Local Abbreviation plain := plain_char.

Lemma plain_cases c : plain c = true → (48 ≤ c ≤ 57 ∨ c = 46).
Proof.
  unfold plain_char, is_digit, in_range.
  rewrite orb_true_iff, andb_true_iff, !N.leb_le, N.eqb_eq. tauto.
Qed.

Lemma plain_not_space c : plain c = true → num_space c = false.
Proof.
  intros H%plain_cases. unfold num_space, in_range.
  rewrite !orb_false_iff, !andb_false_iff, !N.leb_gt, !N.eqb_neq. lia.
Qed.



Lemma plain_lstrip s : forallb plain s = true → lstrip num_space s = s.
Proof.
  destruct s as [|c s]; [done|]. cbn [forallb lstrip].
  intros [H _]%andb_true_iff. by rewrite (plain_not_space _ H).
Qed.

Lemma plain_strip_num s : forallb plain s = true → strip_num s = s.
Proof.
  intros H. unfold strip_num, rstrip. rewrite (plain_lstrip _ H).
  rewrite plain_lstrip, rev_involutive; [done|].
  rewrite forallb_forall in *. intros c Hc. apply H. by apply in_rev.
Qed.

Lemma plain_split_sign s : forallb plain s = true → split_sign s = (false, s).
Proof.
  destruct s as [|c s]; [done|]. cbn [forallb].
  intros [H%plain_cases _]%andb_true_iff. unfold split_sign.
  destruct c as [|p]; [lia|].
  do 6 (destruct p as [p|p|]; try lia; try reflexivity).
Qed.



Lemma plain_drop_underscores s b :
  forallb plain s = true → drop_underscores b s = Some s.
Proof.
  revert b. induction s as [|c s IH]; intros b; [done|]. cbn [forallb drop_underscores].
  intros [H Hs]%andb_true_iff. pose proof (plain_cases _ H).
  destruct (c =? 95) eqn:E; [apply N.eqb_eq in E; lia|]. by rewrite IH.
Qed.

















Lemma digits_val_nonneg ds : forallb is_digit ds = true → (0 ≤ digits_val ds)%Z.
Proof.
  unfold digits_val. generalize (Z.le_refl 0). generalize 0%Z at 2 4.
  induction ds as [|d ds IH]; intros a Ha; [done|]. cbn [fold_left forallb].
  intros [Hd Hds]%andb_true_iff. apply IH; [|exact Hds].
  unfold is_digit, in_range in Hd. apply andb_true_iff in Hd as [Hd _].
  apply N.leb_le in Hd. lia.
Qed.



End SafeFloat.

Section TotalPattern.
Import Re TextractInvoiceParser.

Lemma lstrip_length_le p s : (length (lstrip p s) ≤ length s)%nat.
Proof.
  induction s as [|x s IH]; [done|]. cbn [lstrip].
  destruct (p x); cbn [length]; lia.
Qed.

Lemma lstrip_ext p q s : (∀ x, p x = q x) → lstrip p s = lstrip q s.
Proof.
  intros H. induction s as [|x s IH]; [done|]. cbn [lstrip]. by rewrite H, IH.
Qed.

Lemma leading_lstrip p s : s = leading p s ++ lstrip p s.
Proof.
  unfold leading. induction s as [|x s IH]; [done|]. cbn [lstrip].
  destruct (p x).
  - pose proof (lstrip_length_le p s).
    replace (length (x :: s) - length (lstrip p s))%nat
      with (S (length s - length (lstrip p s))) by (cbn [length]; lia).
    cbn [take app]. by rewrite <- IH.
  - by rewrite Nat.sub_diag.
Qed.

Lemma leading_cons p x s :
  leading p (x :: s) = if p x then x :: leading p s else [].
Proof.
  unfold leading. cbn [lstrip]. destruct (p x).
  - pose proof (lstrip_length_le p s).
    replace (length (x :: s) - length (lstrip p s))%nat
      with (S (length s - length (lstrip p s))) by (cbn [length]; lia).
    done.
  - by rewrite Nat.sub_diag.
Qed.

Lemma leading_forall p s : forallb p (leading p s) = true.
Proof.
  induction s as [|x s IH]; [done|]. rewrite leading_cons.
  destruct (p x) eqn:E; [|done]. cbn [forallb]. by rewrite E.
Qed.

Lemma take_pre_leading (pre t : pystr) p :
  take (length (pre ++ t) - length (lstrip p t)) (pre ++ t) = pre ++ leading p t.
Proof.
  rewrite (leading_lstrip p t) at 1 3. rewrite app_assoc.
  rewrite (length_app (pre ++ leading p t)).
  replace (length (pre ++ leading p t) + length (lstrip p t) - length (lstrip p t))%nat
    with (length (pre ++ leading p t)) by lia.
  by rewrite take_app_length.
Qed.

(** Greedy repetition without an upper bound, followed by a rest that
    cannot fail: all the characters of the class are taken. *)
Lemma rep_total {A : Type} p lo n s (k : pystr → option A) f :
  (∀ s', k s' = Some (f s')) →
  rep p lo None n s k =
    if (lo <=? n + length (leading p s))%nat then Some (f (lstrip p s)) else None.
Proof.
  intros Hk. revert n. induction s as [|x s IH]; intros n.
  - cbn. by rewrite Nat.add_0_r, Hk.
  - cbn [rep lstrip]. rewrite leading_cons. destruct (p x); cbn [andb length].
    + rewrite IH. rewrite <- Nat.add_succ_comm.
      destruct (lo <=? S n + length (leading p s))%nat eqn:E; [done|].
      apply Nat.leb_gt in E. destruct (Nat.leb_spec lo n); [lia|done].
    + by rewrite Nat.add_0_r, Hk.
Qed.

Lemma in_set_amount x : in_set false (CDigit :: chars ".,") x = amount_char x.
Proof.
  replace (chars ".,") with [CChar 46; CChar 44] by (vm_compute; reflexivity).
  unfold amount_char, is_separator. cbn [in_set existsb item_matches].
  by rewrite orb_false_r.
Qed.

Lemma in_set_space x : in_set false space x = is_space x.
Proof. cbn [in_set space existsb item_matches]. by rewrite orb_false_r. Qed.

Lemma in_set_currency x : in_set false (chars "€$") x = currency_sign x.
Proof.
  replace (chars "€$") with [CChar 8364; CChar 36] by (vm_compute; reflexivity).
  unfold currency_sign. cbn [in_set existsb item_matches]. by rewrite orb_false_r.
Qed.

Lemma amount_not_space x : amount_char x = true → is_space x = false.
Proof.
  unfold amount_char, is_separator, is_digit, is_space, in_range.
  rewrite !orb_true_iff, !andb_true_iff, !N.leb_le, !N.eqb_eq. intros H.
  rewrite !orb_false_iff, !andb_false_iff, !N.leb_gt, !N.eqb_neq. lia.
Qed.

Lemma amount_not_currency x : amount_char x = true → currency_sign x = false.
Proof.
  unfold amount_char, is_separator, is_digit, currency_sign, in_range.
  rewrite !orb_true_iff, !andb_true_iff, !N.leb_le, !N.eqb_eq. intros H.
  rewrite !orb_false_iff, !N.eqb_neq. lia.
Qed.

Lemma currency_not_space x : currency_sign x = true → is_space x = false.
Proof.
  unfold currency_sign, is_space, in_range.
  rewrite !orb_true_iff, !N.eqb_eq. intros H.
  rewrite !orb_false_iff, !andb_false_iff, !N.leb_gt, !N.eqb_neq. lia.
Qed.

Lemma currency_not_amount x : currency_sign x = true → amount_char x = false.
Proof.
  intros H. destruct (amount_char x) eqn:E; [|done].
  apply amount_not_currency in E. congruence.
Qed.

Lemma space_not_amount x : is_space x = true → amount_char x = false.
Proof.
  intros H. destruct (amount_char x) eqn:E; [|done].
  apply amount_not_space in E. congruence.
Qed.

Lemma rmatch_amount (s0 pre t : pystr) caps :
  s0 = pre ++ t →
  rmatch false (Grp 2 (plus (CDigit :: chars ".,"))) t caps
    (λ s' caps', Some ({| whole := take (length s0 - length s') s0; groups := caps' |}, s'))
  = amount_at pre caps t.
Proof.
  intros ->. cbn [rmatch plus].
  erewrite (rep_total _ 1 0 t _
             (λ s', ({| whole := take (length (pre ++ t) - length s') (pre ++ t);
                        groups := (2%nat, take (length t - length s') t) :: caps |}, s')));
    [|done].
  rewrite (lstrip_ext _ amount_char) by apply in_set_amount.
  rewrite take_pre_leading. fold (leading amount_char t).
  assert (El : leading (in_set false (CDigit :: chars ".,")) t = leading amount_char t).
  { unfold leading. by rewrite (lstrip_ext _ amount_char) by apply in_set_amount. }
  rewrite El. unfold amount_at. destruct t as [|x t]; [done|].
  rewrite leading_cons. by destruct (amount_char x).
Qed.

Lemma amount_at_space pre caps sp t :
  is_space sp = true → amount_at pre caps (sp :: t) = None.
Proof. intros H. unfold amount_at. by rewrite (space_not_amount _ H). Qed.

Lemma rmatch_seq {A : Type} ic r1 r2 s caps (k : pystr → captures → option A) :
  rmatch ic (Seq r1 r2) s caps k
  = rmatch ic r1 s caps (λ s' caps', rmatch ic r2 s' caps' k).
Proof. reflexivity. Qed.

Lemma rmatch_rep {A : Type} ic cs lo hi s caps (k : pystr → captures → option A) :
  rmatch ic (Rep cs lo hi) s caps k = rep (in_set ic cs) lo hi 0 s (λ s', k s' caps).
Proof. reflexivity. Qed.

Lemma rmatch_opt {A : Type} ic r s caps (k : pystr → captures → option A) :
  rmatch ic (Opt r) s caps k
  = match rmatch ic r s caps k with Some a => Some a | None => k s caps end.
Proof. reflexivity. Qed.

Lemma rmatch_grp_cls {A : Type} ic i cs x s caps (k : pystr → captures → option A) :
  rmatch ic (Grp i (Cls cs)) (x :: s) caps k
  = if in_set ic cs x then k s ((i, [x]) :: caps) else None.
Proof.
  cbn [rmatch]. destruct (in_set ic cs x); [|done].
  cbn [length]. replace (S (length s) - length s)%nat with 1%nat by lia. done.
Qed.

Lemma rmatch_spaced_amount (s0 pre t : pystr) caps :
  s0 = pre ++ t →
  rmatch false (Seq (opt1 space) (Grp 2 (plus (CDigit :: chars ".,")))) t caps
    (λ s' caps', Some ({| whole := take (length s0 - length s') s0; groups := caps' |}, s'))
  = spaced_amount_at pre caps t.
Proof.
  intros Hs. rewrite rmatch_seq. unfold opt1. rewrite rmatch_rep.
  unfold spaced_amount_at.
  destruct t as [|sp t].
  - cbn [rep Nat.leb]. by rewrite (rmatch_amount s0 pre [] caps Hs).
  - cbn [rep Nat.leb Nat.ltb]. rewrite in_set_space.
    destruct (is_space sp) eqn:Esp; cbn [andb].
    + assert (Hs' : s0 = (pre ++ [sp]) ++ t) by (by rewrite <- app_assoc).
      destruct t as [|y t]; cbn [rep Nat.leb Nat.ltb andb].
      * rewrite (rmatch_amount s0 _ [] caps Hs'). cbn [amount_at].
        rewrite (rmatch_amount s0 _ _ caps Hs). by rewrite amount_at_space.
      * rewrite andb_false_r.
        rewrite (rmatch_amount s0 _ _ caps Hs'), (rmatch_amount s0 _ _ caps Hs).
        rewrite (amount_at_space pre caps sp _ Esp).
        by destruct (amount_at (pre ++ [sp]) caps (y :: t)).
    + by rewrite (rmatch_amount s0 _ _ caps Hs).
Qed.

Lemma spaced_amount_at_currency pre caps x t :
  currency_sign x = true → spaced_amount_at pre caps (x :: t) = None.
Proof.
  intros H. unfold spaced_amount_at, amount_at.
  by rewrite (currency_not_space _ H), (currency_not_amount _ H).
Qed.

(** The total pattern at the head of a text. *)
Lemma match_prefix_total_re s :
  match_prefix false total_re s = total_prefix s.
Proof.
  unfold match_prefix, total_re. cbn [seqs]. rewrite rmatch_seq, rmatch_opt.
  unfold total_prefix. destruct s as [|x s].
  - cbn [rmatch]. exact (rmatch_spaced_amount [] [] [] [] eq_refl).
  - rewrite rmatch_grp_cls, in_set_currency. destruct (currency_sign x) eqn:Ec.
    + rewrite (rmatch_spaced_amount (x :: s) [x] s _ eq_refl).
      rewrite (rmatch_spaced_amount (x :: s) [] (x :: s) _ eq_refl).
      rewrite (spaced_amount_at_currency [] [] x s Ec).
      by destruct (spaced_amount_at [x] [(1%nat, [x])] s).
    + exact (rmatch_spaced_amount (x :: s) [] (x :: s) [] eq_refl).
Qed.

Lemma search_step ic r s :
  search ic r s =
    match match_prefix ic r s with
    | Some (m, _) => Some m
    | None => match s with [] => None | _ :: s' => search ic r s' end
    end.
Proof. by destruct s. Qed.

Lemma space_not_currency x : is_space x = true → currency_sign x = false.
Proof.
  intros H. destruct (currency_sign x) eqn:E; [|done].
  apply currency_not_space in E. congruence.
Qed.

Lemma lstrip_head p s :
  lstrip p s = [] ∨ ∃ z r, lstrip p s = z :: r ∧ p z = false.
Proof.
  induction s as [|x s IH]; [by left|]. cbn [lstrip].
  destruct (p x) eqn:E; [exact IH|]. right. by exists x, s.
Qed.

Lemma first_amount_split s :
  existsb amount_char s = true →
  ∃ z r, s = before_amount s ++ z :: r ∧ amount_char z = true.
Proof.
  intros H. unfold before_amount.
  destruct (lstrip_head not_amount_char s) as [E|(z & r & E & Hz)].
  - exfalso. pose proof (leading_lstrip not_amount_char s) as Hs.
    rewrite E, app_nil_r in Hs. pose proof (leading_forall not_amount_char s) as Hf.
    rewrite <- Hs in Hf. clear -H Hf.
    induction s as [|x s IH]; [done|]. cbn [existsb forallb] in *.
    apply andb_true_iff in Hf as [Hx Hf]. unfold not_amount_char in Hx.
    destruct (amount_char x); [done|]. by apply IH.
  - exists z, r. split.
    + rewrite <- E. apply leading_lstrip.
    + unfold not_amount_char in Hz. by destruct (amount_char z).
Qed.

Lemma amount_run_skip x s :
  amount_char x = false → amount_run (x :: s) = amount_run s.
Proof. intros H. unfold amount_run, not_amount_char. cbn [lstrip]. by rewrite H. Qed.

Lemma amount_run_here x s :
  amount_char x = true → amount_run (x :: s) = leading amount_char (x :: s).
Proof. intros H. unfold amount_run, not_amount_char. cbn [lstrip]. by rewrite H. Qed.

Lemma before_amount_skip x s :
  amount_char x = false → before_amount (x :: s) = x :: before_amount s.
Proof.
  intros H. unfold before_amount. rewrite leading_cons. unfold not_amount_char.
  by rewrite H.
Qed.

Lemma before_amount_here x s : amount_char x = true → before_amount (x :: s) = [].
Proof.
  intros H. unfold before_amount. rewrite leading_cons. unfold not_amount_char.
  by rewrite H.
Qed.

Lemma total_prefix_Some s m rest :
  total_prefix s = Some (m, rest) →
  existsb amount_char s = true
  ∧ group 2 m = Some (amount_run s)
  ∧ amount_run s ≠ []
  ∧ currency_of_match m = amount_currency s.
Proof.
  unfold total_prefix. destruct s as [|x s]; [done|].
  destruct (currency_sign x) eqn:Ec.
  - pose proof (currency_not_amount _ Ec) as Ex.
    unfold spaced_amount_at. destruct s as [|y s]; [done|].
    destruct (is_space y) eqn:Ey.
    + pose proof (space_not_amount _ Ey) as Ey'.
      unfold amount_at. destruct s as [|z s]; [done|].
      destruct (amount_char z) eqn:Ez; [|done]. intros [= <- <-].
      rewrite !amount_run_skip, amount_run_here by done.
      unfold amount_currency, currency_of_match.
      rewrite !before_amount_skip, before_amount_here by done.
      cbn [existsb rev app group groups List.find fst snd Nat.eqb fmap option_fmap
           option_map].
      rewrite Ez, (space_not_currency _ Ey), Ey, Ec, !orb_true_r.
      repeat split. rewrite leading_cons, Ez. done.
    + unfold amount_at. destruct (amount_char y) eqn:Ey'; [|done]. intros [= <- <-].
      rewrite amount_run_skip, amount_run_here by done.
      unfold amount_currency, currency_of_match.
      rewrite before_amount_skip, before_amount_here by done.
      cbn [existsb rev app group groups List.find fst snd Nat.eqb fmap option_fmap
           option_map].
      rewrite Ey', Ec, !orb_true_r.
      repeat split. rewrite leading_cons, Ey'. done.
  - unfold spaced_amount_at. destruct (is_space x) eqn:Ex.
    + pose proof (space_not_amount _ Ex) as Ex'.
      unfold amount_at. destruct s as [|z s]; [done|].
      destruct (amount_char z) eqn:Ez; [|done]. intros [= <- <-].
      rewrite amount_run_skip, amount_run_here by done.
      unfold amount_currency, currency_of_match.
      rewrite before_amount_skip, before_amount_here by done.
      cbn [existsb rev app group groups List.find fst snd Nat.eqb fmap option_fmap
           option_map].
      rewrite Ez, Ec, Ex, !orb_true_r.
      repeat split. rewrite leading_cons, Ez. done.
    + unfold amount_at. destruct (amount_char x) eqn:Ex'; [|done]. intros [= <- <-].
      rewrite amount_run_here by done.
      unfold amount_currency, currency_of_match.
      rewrite before_amount_here by done.
      cbn [existsb rev app group groups List.find fst snd Nat.eqb fmap option_fmap
           option_map].
      rewrite Ex'.
      repeat split. rewrite leading_cons, Ex'. done.
Qed.

Lemma total_prefix_None x s :
  total_prefix (x :: s) = None →
  amount_char x = false
  ∧ (existsb amount_char s = true → amount_currency (x :: s) = amount_currency s).
Proof.
  intros Hp.
  assert (Hx : amount_char x = false).
  { revert Hp. unfold total_prefix.
    destruct (currency_sign x) eqn:Ec; [intros _; by apply currency_not_amount|].
    unfold spaced_amount_at.
    destruct (is_space x) eqn:Ex; [intros _; by apply space_not_amount|].
    unfold amount_at. by destruct (amount_char x). }
  split; [exact Hx|]. intros Hs.
  destruct (first_amount_split s Hs) as (z & r & Es & Hz).
  unfold amount_currency. rewrite (before_amount_skip _ _ Hx). cbn [rev].
  destruct (rev (before_amount s)) as [|c [|c' l]] eqn:Er; cbn [app]; [| |done].
  - apply (f_equal (@rev _)) in Er. rewrite rev_involutive in Er. cbn [rev] in Er.
    rewrite Er in Es. cbn [app] in Es. subst s.
    revert Hp. unfold total_prefix, spaced_amount_at, amount_at.
    rewrite (amount_not_space _ Hz), Hz.
    destruct (currency_sign x); [done|]. by destruct (is_space x).
  - apply (f_equal (@rev _)) in Er. rewrite rev_involutive in Er. cbn [rev app] in Er.
    rewrite Er in Es. cbn [app] in Es. subst s.
    destruct (currency_sign c) eqn:Ec; [done|].
    destruct (is_space c) eqn:Esp; [|done].
    revert Hp. unfold total_prefix, spaced_amount_at, amount_at.
    rewrite Esp, Hz. by destruct (currency_sign x).
Qed.

(** [re.search] with the total pattern: it finds something exactly when
    the text has an amount character; group 2 is then the first run of
    amount characters of the text, and the currency is the sign in front
    of that run. *)
Lemma search_total_re s :
  match search false total_re s with
  | Some m =>
      existsb amount_char s = true
      ∧ group 2 m = Some (amount_run s)
      ∧ amount_run s ≠ []
      ∧ currency_of_match m = amount_currency s
  | None => existsb amount_char s = false
  end.
Proof.
  induction s as [|x s IH]; [done|].
  rewrite search_step, match_prefix_total_re.
  destruct (total_prefix (x :: s)) as [[m rest]|] eqn:Ep.
  - by apply total_prefix_Some in Ep.
  - apply total_prefix_None in Ep as [Hx Hc]. cbn [existsb]. rewrite Hx. cbn [orb].
    destruct (search false total_re s) as [m|]; [|exact IH].
    destruct IH as (He & Hg & Hr & Hcur).
    rewrite (amount_run_skip _ _ Hx), (Hc He). done.
Qed.

End TotalPattern.

Section InvoiceTotal.
Import Re TextractInvoiceParser.

Lemma first_some_rev_filter {A B : Type} (P : A → bool) (g : A → B)
    (f : A → option B) (l : list A) :
  (∀ a, f a = if P a then Some (g a) else None) →
  first_some f (rev l) = g <$> last (List.filter P l).
Proof.
  intros Hf. induction l as [|x l IH] using rev_ind; [done|].
  rewrite rev_app_distr, List.filter_app. cbn [rev app first_some List.filter].
  rewrite Hf. destruct (P x).
  - by rewrite last_snoc.
  - by rewrite app_nil_r.
Qed.

Lemma total_of_line_spec (line : Line) :
  total_of_line line =
    if is_total_line line
    then Some {| total_value := _safe_float (amount_run (text line));
                 total_currency := amount_currency (text line);
                 total_confidence := confidence line |}
    else None.
Proof.
  unfold total_of_line, is_total_line.
  destruct (test true total_kw (text line)); [|done]. cbn [andb].
  pose proof (search_total_re (text line)) as H.
  destruct (search false total_re (text line)) as [m|]; cbn [mbind option_bind].
  - destruct H as (-> & Hg & _ & Hc). unfold group_text. rewrite Hg.
    cbn [default from_option id]. unfold currency_of_match in Hc. by rewrite Hc.
  - by rewrite H.
Qed.

Lemma find_total_spec lines :
  _find_total lines
  = (λ l, {| total_value := _safe_float (amount_run (text l));
             total_currency := amount_currency (text l);
             total_confidence := confidence l |})
    <$> last (List.filter is_total_line lines).
Proof.
  unfold _find_total.
  apply (first_some_rev_filter is_total_line _ _ _ total_of_line_spec).
Qed.

(** X7: Where the total of a parsed invoice comes from: the last line that
    has a total keyword and a digit, full stop or comma.  The amount is
    the first run of such characters on that line, wherever the keyword
    is, and the currency is the sign in front of that run, or "EUR". *)
Theorem invoice_total_from_last_total_line (data : textract_json) (inv : Invoice) :
  normalize_invoice data = Ok inv →
  let line := last (List.filter is_total_line (_extract_lines data)) in
  invoice_total inv = (l ← line; _safe_float (amount_run (text l)))
  ∧ currency inv = (λ l, amount_currency (text l)) <$> line.
Proof.
  intros Hinv line.
  destruct (normalize_invoice_ok _ _ Hinv) as (st & Hst & <-).
  unfold init in Hst.
  destruct (parse_data_ok _ _ _ Hst) as (issue & due & items & _ & _ & _ & _ & _ & _ & _
                                          & Htot & Hcur & _).
  rewrite Htot, Hcur, find_total_spec. fold line. by destruct line.
Qed.

Lemma invoice_total_from_last_total_line_witness :
  ∃ inv, normalize_invoice MoreExamples.year_before_total_doc = Ok inv
    ∧ invoice_total inv = Some (FNum 2024)
    ∧ currency inv = Some (u "EUR").
Proof.
  assert (E : ∃ inv, normalize_invoice MoreExamples.year_before_total_doc = Ok inv)
    by (vm_compute; eauto).
  destruct E as (inv & E). exists inv. split; [exact E|].
  destruct (invoice_total_from_last_total_line _ _ E) as [-> ->].
  split; by_evaluation.
Defined.



End InvoiceTotal.

Section InvoiceScore.
Import TextractInvoiceParser.
Local Open Scope Q_scope.



Lemma round_half_even_Z k : round_half_even (inject_Z k) = k.
Proof.
  unfold round_half_even. cbv zeta. rewrite Qfloor_Z.
  destruct (Qcompare (inject_Z k - inject_Z k) (1 # 2)) eqn:C; [| done |].
  - apply Qeq_alt in C. exfalso. lra.
  - apply Qgt_alt in C. exfalso. lra.
Qed.














End InvoiceScore.

Section BlockGraph.
Import TextractInvoiceParser.

Lemma foldM_ok {A S : Type} (P : S → Prop) (f : S → A → result S) (s : S) (l : list A) :
  P s →
  (∀ s a, a ∈ l → P s → ∃ s', f s a = Ok s' ∧ P s') →
  ∃ s', foldM f s l = Ok s' ∧ P s'.
Proof.
  revert s. induction l as [|a l IH]; intros s Hs Hf; [by exists s|].
  cbn [foldM]. destruct (Hf s a) as (s' & -> & Hs'); [left|done|].
  cbn [mbind result_bind]. apply IH; [done|].
  intros s0 a0 Ha0. apply Hf. by right.
Qed.

Lemma foldM_raise {A S : Type} (f : S → A → result S) (s : S) (l : list A) e :
  (∀ s a, f s a = Raise e ∨ ∃ s', f s a = Ok s') →
  Exists (λ a, ∀ s, f s a = Raise e) l →
  foldM f s l = Raise e.
Proof.
  intros Hf Hex. revert s. induction Hex as [a l Ha|a l Hex IH]; intros s; cbn [foldM].
  - by rewrite Ha.
  - destruct (Hf s a) as [-> | (s' & ->)]; [done|]. apply IH.
Qed.

(** The block map of a graph whose blocks all have an id: it holds blocks
    of the graph, one for every id that occurs. *)
Lemma build_block_map_ok blocks :
  forallb (λ b, has_key (Id b)) blocks = true →
  ∃ m, build_block_map blocks = Ok m
       ∧ (∀ cid c, m !! cid = Some c → c ∈ blocks)
       ∧ (∀ cid, resolves blocks cid = true → is_Some (m !! cid)).
Proof.
  intros Hids. unfold build_block_map.
  assert (G : ∀ (seen : list Block) (m0 : gmap pystr Block),
            (∀ cid c, m0 !! cid = Some c → c ∈ seen) →
            (∀ cid, resolves seen cid = true → is_Some (m0 !! cid)) →
            ∃ m, foldM (λ m b, id ← getitem (Id b); Ok (<[id := b]> m)) m0 blocks = Ok m
                 ∧ (∀ cid c, m !! cid = Some c → c ∈ seen ++ blocks)
                 ∧ (∀ cid, resolves (seen ++ blocks) cid = true → is_Some (m !! cid))).
  { induction blocks as [|b blocks IH]; intros seen m0 H1 H2.
    - exists m0. rewrite app_nil_r. done.
    - cbn [forallb] in Hids. apply andb_true_iff in Hids as [Hb Hids].
      destruct (Id b) as [id|] eqn:Eid; [|done]. cbn [foldM getitem mbind result_bind].
      destruct (IH Hids (seen ++ [b]) (<[id := b]> m0)) as (m & Hm & G1 & G2).
      + intros cid c. destruct (decide (cid = id)) as [->|Hne].
        * rewrite lookup_insert_eq. intros [= <-]. apply elem_of_app. right. left.
        * rewrite lookup_insert_ne by done. intros H. apply elem_of_app. left.
          by eapply H1.
      + intros cid. unfold resolves. rewrite existsb_app. cbn [existsb].
        rewrite orb_false_r. intros [H|H]%orb_true_iff.
        * destruct (decide (cid = id)) as [->|Hne];
            [by rewrite lookup_insert_eq|].
          rewrite lookup_insert_ne by done. by apply H2.
        * apply bool_decide_eq_true in H. rewrite Eid in H. injection H as <-.
          by rewrite lookup_insert_eq.
      + exists m. rewrite <- app_assoc in G1, G2. cbn [foldM]. rewrite Eid.
        split; [exact Hm|]. split; [exact G1|exact G2]. }
  destruct (G [] ∅) as (m & Hm & G1 & G2).
  - intros cid c. by rewrite lookup_empty.
  - done.
  - by exists m.
Qed.

Lemma build_block_map_missing_id blocks :
  existsb (λ b, negb (has_key (Id b))) blocks = true →
  build_block_map blocks = Raise KeyError.
Proof.
  intros H. unfold build_block_map. apply foldM_raise.
  - intros m b. destruct (Id b); [right; by eexists|by left].
  - apply existsb_exists in H as (b & Hb & Hid). apply Exists_exists.
    exists b. split; [by apply list_elem_of_In|].
    intros m. by destruct (Id b).
Qed.

Lemma well_formed_block_elem blocks b :
  forallb (well_formed_block blocks) blocks = true → b ∈ blocks →
  well_formed_block blocks b = true.
Proof.
  intros H Hb. rewrite forallb_forall in H. apply H. by apply list_elem_of_In.
Qed.

Lemma foldM_total {A S : Type} (f : S → A → result S) (s : S) (l : list A) :
  (∀ s a, a ∈ l → ∃ s', f s a = Ok s') → ∃ s', foldM f s l = Ok s'.
Proof.
  intros Hf. destruct (foldM_ok (λ _, True) f s l I) as (s' & Hs' & _); [|by exists s'].
  intros s0 a Ha _. destruct (Hf s0 a Ha) as (s' & ->). by exists s'.
Qed.

Lemma bind_total {A B : Type} (r : result A) (f : A → result B) :
  (∃ a, r = Ok a) → (∀ a, ∃ b, f a = Ok b) → ∃ b, r ≫= f = Ok b.
Proof. intros (a & ->) Hf. apply Hf. Qed.

Lemma get_text_ok blocks bm cell :
  (∀ cid, resolves blocks cid = true → is_Some (bm !! cid)) →
  well_formed_block blocks cell = true →
  ∃ t, _get_text cell bm = Ok t.
Proof.
  intros Hbm Hwf. unfold well_formed_block in Hwf.
  apply andb_true_iff in Hwf as [_ Hrels]. rewrite forallb_forall in Hrels.
  unfold _get_text. apply bind_total; [|intros ws; by eexists].
  apply foldM_total. intros words rel Hrel.
  destruct (bool_decide (Type_ rel = u "CHILD")); [|by exists words].
  apply foldM_total. intros ws cid Hcid.
  destruct (Hbm cid) as [word ->].
  { specialize (Hrels rel). rewrite forallb_forall in Hrels.
    apply Hrels; by apply list_elem_of_In. }
  cbn [getitem mbind result_bind]. destruct (_ || _); by eexists.
Qed.

Lemma table_rows_ok blocks bm table :
  forallb (well_formed_block blocks) blocks = true →
  (∀ cid c, bm !! cid = Some c → c ∈ blocks) →
  (∀ cid, resolves blocks cid = true → is_Some (bm !! cid)) →
  table ∈ blocks →
  ∃ rows, table_rows bm table = Ok rows.
Proof.
  intros Hwf H1 H2 Ht.
  pose proof (well_formed_block_elem _ _ Hwf Ht) as Hb.
  unfold well_formed_block in Hb.
  apply andb_true_iff in Hb as [_ Hrels]. rewrite forallb_forall in Hrels.
  unfold table_rows. apply foldM_total. intros rows rel Hrel.
  destruct (bool_decide (Type_ rel = u "CHILD")); [|by exists rows].
  apply foldM_total. intros rs cid Hcid.
  destruct (H2 cid) as [cell Hcell].
  { specialize (Hrels rel). rewrite forallb_forall in Hrels.
    apply Hrels; by apply list_elem_of_In. }
  rewrite Hcell. cbn [getitem mbind result_bind].
  pose proof (well_formed_block_elem _ _ Hwf (H1 _ _ Hcell)) as Hc.
  destruct (get_text_ok blocks bm cell H2 Hc) as (t & Ht').
  unfold well_formed_block in Hc.
  apply andb_true_iff in Hc as [Hc _]. apply andb_true_iff in Hc as [Hc Hrc].
  apply andb_true_iff in Hc as [_ Hty].
  destruct (BlockType cell) as [ty|] eqn:Ety; [|done].
  cbn [getitem mbind result_bind].
  destruct (bool_decide (ty = u "CELL")) eqn:Ecell; [|by eexists].
  apply bool_decide_eq_true in Ecell as ->.
  unfold has_type in Hrc. rewrite Ety, bool_decide_eq_true_2 in Hrc by done.
  apply andb_true_iff in Hrc as [Hr Hcol].
  destruct (RowIndex cell); [|done]. destruct (ColumnIndex cell); [|done].
  cbn [getitem mbind result_bind]. rewrite Ht'. cbn [mbind result_bind]. by eexists.
Qed.

(** X10: On a well-formed block graph (every block has an id and a type,
    every cell has its row and column, every relationship points to blocks
    of the graph) table reconstruction raises nothing, and it gives no
    line item when the graph has no TABLE block. *)
Theorem line_items_of_well_formed_graph (data : textract_json) :
  well_formed data = true →
  (∃ items, _extract_line_items data = Ok items)
  ∧ (forallb (λ b, negb (has_type "TABLE" b)) (blocks_of data) = true →
     _extract_line_items data = Ok []).
Proof.
  unfold well_formed. intros Hwf.
  destruct (build_block_map_ok (blocks_of data)) as (bm & Hbm & H1 & H2).
  { rewrite forallb_forall in *. intros b Hb. specialize (Hwf b Hb).
    unfold well_formed_block in Hwf. by repeat (apply andb_true_iff in Hwf as [Hwf _]). }
  unfold _extract_line_items. rewrite Hbm. cbn [mbind result_bind]. split.
  - apply foldM_total. intros items b Hb. unfold add_table_items.
    destruct (has_type "TABLE" b); [|by eexists].
    destruct (table_rows_ok _ bm b Hwf H1 H2 Hb) as (rows & ->).
    cbn [mbind result_bind]. by eexists.
  - intros Hnt. apply extract_loop_no_tables. apply Forall_forall.
    intros b Hb. rewrite forallb_forall in Hnt.
    apply negb_true_iff, Hnt. by apply list_elem_of_In.
Qed.

Lemma line_items_of_well_formed_graph_witness :
  (∃ items, _extract_line_items Examples.table_doc = Ok items)
  ∧ _extract_line_items Examples.unparsed_total_doc = Ok [].
Proof.
  split.
  - apply (line_items_of_well_formed_graph Examples.table_doc). by_evaluation.
  - apply (line_items_of_well_formed_graph Examples.unparsed_total_doc); by_evaluation.
Defined.

(** X11: One block without an id is enough for the invoice parser to
    return no record, tables or no tables: the block map cannot be built. *)
Theorem block_without_id_fails_invoice (data : textract_json) :
  existsb (λ b, negb (has_key (Id b))) (blocks_of data) = true →
  _extract_line_items data = Raise KeyError
  ∧ ∃ e, normalize_invoice data = Raise e.
Proof.
  intros H. assert (E : _extract_line_items data = Raise KeyError).
  { unfold _extract_line_items. by rewrite (build_block_map_missing_id _ H). }
  split; [exact E|].
  unfold normalize_invoice, init, _parse_data. rewrite E.
  destruct (_find_date issue_date_kw true _) as [issue|e]; [|by exists e].
  destruct (_find_date due_date_kw false _) as [due|e]; [|by exists e].
  by exists KeyError.
Qed.

Lemma block_without_id_fails_invoice_witness :
  ∃ e, normalize_invoice MoreExamples.no_id_doc = Raise e.
Proof.
  apply (block_without_id_fails_invoice MoreExamples.no_id_doc). by_evaluation.
Defined.

Lemma build_block_map_fold (blocks : list Block) (m0 m : gmap pystr Block)
    (cid : pystr) :
  foldM (λ m b, id ← getitem (Id b); Ok (<[id := b]> m)) m0 blocks = Ok m →
  m !! cid
  = from_option Some (m0 !! cid)
      (last (List.filter (λ b, bool_decide (Id b = Some cid)) blocks)).
Proof.
  revert m0. induction blocks as [|b blocks IH]; intros m0; cbn [foldM List.filter].
  { by intros [= <-]. }
  destruct (Id b) as [id|] eqn:Eid; [|done]. cbn [getitem mbind result_bind].
  intros H. rewrite (IH _ H).
  destruct (decide (id = cid)) as [->|Hne].
  - rewrite bool_decide_eq_true_2, lookup_insert_eq, last_cons by done.
    by destruct (last _).
  - rewrite bool_decide_eq_false_2, lookup_insert_ne by congruence. done.
Qed.

(** X12: When two blocks have the same id, the block map holds the later
    one: an id stands for the last block of the response that carries it,
    and for no block when none does. *)
Theorem block_map_last_block_wins (blocks : list Block) (m : gmap pystr Block)
    (cid : pystr) :
  build_block_map blocks = Ok m →
  m !! cid = last (List.filter (λ b, bool_decide (Id b = Some cid)) blocks).
Proof.
  intros H. rewrite (build_block_map_fold _ _ _ cid H), lookup_empty.
  by destruct (last _).
Qed.

Lemma block_map_last_block_wins_witness :
  ∃ m, build_block_map (blocks_of MoreExamples.duplicate_id_doc) = Ok m
    ∧ m !! u "w" = Some (Examples.word_block "w" "second").
Proof.
  assert (E : ∃ m, build_block_map (blocks_of MoreExamples.duplicate_id_doc) = Ok m).
  { destruct (build_block_map_ok (blocks_of MoreExamples.duplicate_id_doc))
      as (m & Hm & _); [by_evaluation|by exists m]. }
  destruct E as (m & E). exists m. split; [exact E|].
  rewrite (block_map_last_block_wins _ _ (u "w") E). by_evaluation.
Defined.

Lemma get_text_inner (bm : gmap pystr Block) (ids : list pystr)
    (words : list pystr) :
  foldM (λ words cid,
           word ← getitem (bm !! cid);
           if has_type "WORD" word || has_type "SELECTION_ELEMENT" word
           then Ok (words ++ [default [] (Text word)])
           else Ok words) words ids
  = if forallb (λ cid, has_key (bm !! cid)) ids
    then Ok (words ++ omap (word_text bm) ids)
    else Raise KeyError.
Proof.
  revert words. induction ids as [|cid ids IH]; intros words.
  { cbn. by rewrite app_nil_r. }
  cbn [foldM forallb omap list_omap]. unfold word_text at 1.
  destruct (bm !! cid) as [word|]; cbn [getitem has_key mbind result_bind option_bind andb];
    [|done].
  destruct (_ || _); cbn [mbind result_bind]; rewrite IH;
    destruct (forallb _ ids); try done.
  by rewrite <- app_assoc.
Qed.

Lemma get_text_outer (bm : gmap pystr Block) (rels : list Relationship)
    (words : list pystr) :
  let ids := flat_map (λ rel, if bool_decide (Type_ rel = u "CHILD") then Ids rel
                              else []) rels in
  foldM (λ words rel,
           if bool_decide (Type_ rel = u "CHILD") then
             foldM (λ words cid,
                      word ← getitem (bm !! cid);
                      if has_type "WORD" word || has_type "SELECTION_ELEMENT" word
                      then Ok (words ++ [default [] (Text word)])
                      else Ok words) words (Ids rel)
           else Ok words) words rels
  = if forallb (λ cid, has_key (bm !! cid)) ids
    then Ok (words ++ omap (word_text bm) ids)
    else Raise KeyError.
Proof.
  cbv zeta. revert words. induction rels as [|rel rels IH]; intros words.
  { cbn. by rewrite app_nil_r. }
  cbn [foldM flat_map]. destruct (bool_decide (Type_ rel = u "CHILD")).
  - rewrite get_text_inner, forallb_app, omap_app.
    destruct (forallb _ (Ids rel)); cbn [mbind result_bind andb]; [|done].
    rewrite IH. destruct (forallb _ _); [|done]. by rewrite <- app_assoc.
  - cbn [mbind result_bind app]. apply IH.
Qed.

(** X13: The text of a cell.  When every id of its CHILD relationships is
    in the block map, it is the texts of the WORD and SELECTION_ELEMENT
    blocks among them, in order, an absent text counting as empty, joined
    by one space and stripped; blocks of other types add nothing.  When
    one of the ids is not in the block map, KeyError. *)
Theorem get_text_of_cell (cell : Block) (block_map : gmap pystr Block) :
  _get_text cell block_map
  = if forallb (λ cid, has_key (block_map !! cid)) (child_ids cell)
    then Ok (strip (join (u " ") (omap (word_text block_map) (child_ids cell))))
    else Raise KeyError.
Proof.
  unfold _get_text, child_ids.
  rewrite (get_text_outer block_map (default [] (Relationships cell)) []).
  by destruct (forallb _ _).
Qed.

End BlockGraph.

(** ** Further properties of the prescription parser *)

Section PrescriptionRecord.
Import TextractPrescriptionParser.

(** The record [_parse_data] builds, field by field. *)
Lemma prescription_parse_data_shape lines p :
  _parse_data lines = Ok p →
  prescription_date p = None
  ∧ prescriber_name p = (find_prescriber lines).1
  ∧ prescriber_id p = (find_prescriber lines).2
  ∧ language p = u "it"
  ∧ medications p = find_medications lines
  ∧ notes p =
      (let note_lines :=
         List.filter (is_note None (find_prescriber lines).1 (find_prescriber lines).2
                        (find_medications lines)) lines in
       if bool_decide (note_lines = []) then None else Some (join (u " ") note_lines))
  ∧ rx_warnings p =
      [u "Data della prescrizione non trovata"]
      ++ (if truthy_str (find_prescriber lines).1 then []
          else [u "Nome del prescrittore non trovato"])
      ++ (if bool_decide (find_medications lines = [])
          then [u "Nessun farmaco trovato nella prescrizione"] else [])
  ∧ rx_quality_score p =
      _calculate_quality_score
        {| prescription_date := None; prescriber_name := prescriber_name p;
           prescriber_id := prescriber_id p; language := language p;
           medications := medications p; notes := notes p;
           rx_warnings := rx_warnings p; rx_quality_score := 0 |}.
Proof.
  unfold _parse_data. rewrite find_prescription_date_none.
  cbn [mbind result_bind].
  destruct (find_prescriber lines) as [name id]. cbn [fst snd].
  intros [= <-].
  cbn [prescription_date prescriber_name prescriber_id language medications notes
       rx_warnings rx_quality_score truthy_str].
  repeat apply conj; reflexivity.
Qed.

(** *** Medications *)

Lemma med_step_names st l :
  med_names (med_step st l)
  = med_names st ++ (if is_header l then [Some l] else []).
Proof.
  destruct st as [cur meds]. unfold med_step, med_names.
  destruct (is_header l), cur as [med|]; unfold med_state_list;
    cbn [fst snd option_list_med];
    rewrite ?fmap_app, ?app_nil_r, <- ?app_assoc; done.
Qed.

Lemma med_fold_names lines st :
  med_names (fold_left med_step lines st)
  = med_names st ++ (Some <$> List.filter is_header lines).
Proof.
  revert st. induction lines as [|l lines IH]; intros st; cbn [fold_left List.filter].
  { by rewrite app_nil_r. }
  rewrite IH, med_step_names, <- app_assoc. by destruct (is_header l).
Qed.

Lemma find_medications_fold lines :
  find_medications lines = med_state_list (fold_left med_step lines (None, [])).
Proof.
  unfold find_medications, med_state_list.
  destruct (fold_left med_step lines (None, [])) as [[m|] ms];
    cbn [fst snd option_list_med]; by rewrite ?app_nil_r.
Qed.

Lemma find_medications_names lines :
  drug_name <$> find_medications lines = Some <$> List.filter is_header lines.
Proof.
  rewrite find_medications_fold. fold (med_names (fold_left med_step lines (None, []))).
  by rewrite med_fold_names.
Qed.

(** X14: The medications of a prescription are as many as the header lines
    (lines in capitals or with a pharmaceutical form), in the same order,
    and each is named by its header line as it stands. *)
Theorem medications_are_named_by_header_lines (data : textract_json) (p : Prescription) :
  normalize_prescription data = Ok p →
  drug_name <$> medications p = Some <$> List.filter is_header (_extract_lines data).
Proof.
  intros H. destruct (prescription_parse_data_shape _ _ H) as (_ & _ & _ & _ & -> & _).
  apply find_medications_names.
Qed.

Lemma medications_are_named_by_header_lines_witness :
  ∃ p, _parse_data Examples.scenario_lines = Ok p
    ∧ drug_name <$> medications p = [Some (u "AMOXICILLINA"); Some (u "ACICLOVIR CREMA")].
Proof.
  destruct (prescription_parse_data_ok Examples.scenario_lines) as (p & Hp & _).
  exists p. split; [exact Hp|].
  pose proof (medications_are_named_by_header_lines
                MoreExamples.scenario_doc p) as H.
  replace (normalize_prescription MoreExamples.scenario_doc)
    with (_parse_data Examples.scenario_lines) in H by (vm_compute; reflexivity).
  rewrite (H Hp). by_evaluation.
Defined.

(** The state of the medication loop after a header line: the current
    medication is the one the header opens. *)
Lemma med_fold_app_header l1 h l2 st :
  is_header h = true →
  med_state_list (fold_left med_step (l1 ++ h :: l2) st)
  = med_state_list (fold_left med_step l1 st)
    ++ med_state_list (fold_left med_step (h :: l2) (None, [])).
Proof.
  intros Hh. rewrite fold_left_app. cbn [fold_left].
  destruct (fold_left med_step l1 st) as [cur meds].
  unfold med_step at 2 4. rewrite Hh.
  assert (G : ∀ l c ms ms',
            med_state_list (fold_left med_step l (c, ms' ++ ms))
            = ms' ++ med_state_list (fold_left med_step l (c, ms))).
  { clear. induction l as [|x l IH]; intros c ms ms'.
    - unfold med_state_list. cbn. by rewrite app_assoc.
    - cbn [fold_left]. unfold med_step at 2 4.
      destruct (is_header x); [|destruct c; apply IH].
      destruct c; [|apply IH]. rewrite <- app_assoc. apply IH. }
  unfold med_state_list at 2. cbn [fst snd].
  rewrite <- (G l2 (Some (new_med h)) [] (meds ++ option_list_med cur)).
  rewrite app_nil_r. destruct cur; cbn [option_list_med]; by rewrite ?app_nil_r.
Qed.

Lemma med_fold_body body med :
  forallb (λ l, negb (is_header l)) body = true →
  fold_left med_step body (Some med, []) = (Some (fold_left continue_med body med), []).
Proof.
  revert med. induction body as [|l body IH]; intros med; [done|].
  cbn [forallb fold_left]. intros [Hl Hb]%andb_true_iff.
  unfold med_step at 2. apply negb_true_iff in Hl. rewrite Hl. by apply IH.
Qed.

Lemma med_fold_no_header lines :
  forallb (λ l, negb (is_header l)) lines = true →
  fold_left med_step lines (None, []) = (None, []).
Proof.
  induction lines as [|l lines IH]; [done|].
  cbn [forallb fold_left]. intros [Hl Hb]%andb_true_iff.
  unfold med_step at 2. apply negb_true_iff in Hl. rewrite Hl. by apply IH.
Qed.

(** X15: How the medications are put together: the lines before the first
    header give nothing; a header line opens a medication, and the lines
    up to the next header, and only they, fill its attributes one after
    the other. *)
Theorem medication_groups (pre body post : list pystr) (h : pystr) :
  is_header h = true →
  forallb (λ l, negb (is_header l)) body = true →
  (post = [] ∨ ∃ h' post', post = h' :: post' ∧ is_header h' = true) →
  find_medications (pre ++ h :: body ++ post)
  = find_medications pre ++ [fold_left continue_med body (new_med h)]
    ++ find_medications post
  ∧ (forallb (λ l, negb (is_header l)) pre = true → find_medications pre = []).
Proof.
  intros Hh Hbody Hpost. split.
  - rewrite !find_medications_fold, (med_fold_app_header pre h _ _ Hh). f_equal.
    assert (Hgroup : med_state_list (fold_left med_step (h :: body) (None, []))
                     = [fold_left continue_med body (new_med h)]).
    { cbn [fold_left]. unfold med_step at 2. rewrite Hh.
      by rewrite (med_fold_body _ _ Hbody). }
    destruct Hpost as [->|(h' & post' & -> & Hh')].
    + rewrite app_nil_r, Hgroup. done.
    + change (h :: body ++ h' :: post') with ((h :: body) ++ h' :: post').
      rewrite (med_fold_app_header _ h' _ _ Hh'), Hgroup. done.
  - intros Hpre. rewrite find_medications_fold, (med_fold_no_header _ Hpre). done.
Qed.

Lemma medication_groups_witness :
  find_medications Examples.scenario_lines
  = [fold_left continue_med [u "500 mg"; u "2 volte al giorno"; u "per 7 giorni"]
       (new_med (u "AMOXICILLINA"));
     fold_left continue_med [u "applicare 2 volte al dì"] (new_med (u "ACICLOVIR CREMA"))].
Proof.
  pose proof (medication_groups [] [u "500 mg"; u "2 volte al giorno"; u "per 7 giorni"]
                [u "ACICLOVIR CREMA"; u "applicare 2 volte al dì"] (u "AMOXICILLINA"))
    as H.
  destruct H as [H _]; [by_evaluation|by_evaluation| |].
  { right. exists (u "ACICLOVIR CREMA"), [u "applicare 2 volte al dì"].
    split; [reflexivity|by_evaluation]. }
  change Examples.scenario_lines
    with ([] ++ u "AMOXICILLINA"
             :: [u "500 mg"; u "2 volte al giorno"; u "per 7 giorni"]
             ++ [u "ACICLOVIR CREMA"; u "applicare 2 volte al dì"]).
  rewrite H. by_evaluation.
Defined.

End PrescriptionRecord.

Section Prescriber.
Import TextractPrescriptionParser.

Lemma prescriber_step_spec name id line :
  prescriber_step (name, id) line
  = (if is_prescriber_line line then Some line else name,
     match id_of_line line with Some i => Some i | None => id end).
Proof.
  unfold prescriber_step, is_prescriber_line, id_of_line.
  destruct (any_term ["dott"; "dr."; "medico"; "farmacista"]%string line);
    destruct (any_term ["codice fiscale"; "cf:"; "id"]%string line); try done;
    by destruct (Re.search false prescriber_id_re line).
Qed.

Lemma prescriber_fold lines name id :
  fold_left prescriber_step lines (name, id)
  = (from_option Some name (last (List.filter is_prescriber_line lines)),
     from_option Some id (last (omap id_of_line lines))).
Proof.
  revert name id. induction lines as [|l lines IH]; intros name id; [done|].
  cbn [fold_left List.filter omap list_omap]. rewrite prescriber_step_spec, IH. f_equal.
  - destruct (is_prescriber_line l); [|done]. rewrite last_cons.
    destruct (last (List.filter is_prescriber_line lines)); reflexivity.
  - destruct (id_of_line l); [|done]. rewrite last_cons.
    destruct (last (omap id_of_line lines)); reflexivity.
Qed.

Lemma find_prescriber_spec lines :
  find_prescriber lines
  = (last (List.filter is_prescriber_line lines), last (omap id_of_line lines)).
Proof.
  unfold find_prescriber. rewrite prescriber_fold.
  by destruct (last (List.filter _ _)), (last (omap _ _)).
Qed.

Lemma in_set_id_char x :
  Re.in_set false [Re.CRange 65 90; Re.CRange 48 57] x = id_char x.
Proof. unfold id_char. cbn [Re.in_set existsb Re.item_matches]. by rewrite orb_false_r. Qed.

Lemma id_of_line_shape line i :
  id_of_line line = Some i →
  (11 ≤ length i ≤ 16)%nat ∧ forallb id_char i = true
  ∧ any_term ["codice fiscale"; "cf:"; "id"]%string line = true
  ∧ ∃ before after, line = before ++ i ++ after.
Proof.
  unfold id_of_line. destruct (any_term _ line); [|done].
  destruct (Re.search false prescriber_id_re line) as [m|] eqn:Es; [|done].
  intros [= <-]. apply search_rep in Es as (Hall & Hlo & Hhi & Hsplit).
  split; [split; [exact Hlo|by apply Hhi]|]. split; [|done].
  apply forallb_forall. intros x Hx. rewrite <- in_set_id_char.
  rewrite Forall_forall in Hall. apply Hall. by apply list_elem_of_In.
Qed.

Lemma prescriber_fields (data : textract_json) (p : Prescription) :
  normalize_prescription data = Ok p →
  prescriber_name p = last (List.filter is_prescriber_line (_extract_lines data))
  ∧ prescriber_id p = last (omap id_of_line (_extract_lines data)).
Proof.
  intros H. destruct (prescription_parse_data_shape _ _ H) as (_ & Hn & Hi & _).
  rewrite find_prescriber_spec in Hn, Hi. by cbn [fst snd] in Hn, Hi.
Qed.

(** X16: The prescriber of a prescription: the name is the last line, as
    it stands, that has one of the prescriber terms; the id comes from the
    last line that has an id term and a run of 11 capital letters or
    digits: it is a part of that line, 11 to 16 characters long, of
    capital letters and digits only. *)
Theorem prescriber_is_last_match (data : textract_json) (p : Prescription) :
  normalize_prescription data = Ok p →
  prescriber_name p = last (List.filter is_prescriber_line (_extract_lines data))
  ∧ prescriber_id p = last (omap id_of_line (_extract_lines data))
  ∧ (∀ i, prescriber_id p = Some i →
       (11 ≤ length i ≤ 16)%nat ∧ forallb id_char i = true
       ∧ ∃ line before after,
           line ∈ _extract_lines data
           ∧ any_term ["codice fiscale"; "cf:"; "id"]%string line = true
           ∧ line = before ++ i ++ after).
Proof.
  intros H. destruct (prescriber_fields _ _ H) as (Hn & Hi).
  split; [exact Hn|]. split; [exact Hi|].
  intros i Hid. rewrite Hi in Hid. apply last_Some_elem_of in Hid.
  apply list_elem_of_omap in Hid as (line & Hline & Hid).
  apply id_of_line_shape in Hid as (Hlen & Hall & Hterm & before & after & Hsplit).
  split; [exact Hlen|]. split; [exact Hall|]. by exists line, before, after.
Qed.

Lemma prescriber_is_last_match_witness :
  ∃ p, normalize_prescription MoreExamples.prescriber_doc = Ok p
    ∧ prescriber_name p = Some (u "Medico: Dr. Verdi")
    ∧ prescriber_id p = Some (u "RSSMRA80A01H501U").
Proof.
  destruct (normalize_prescription_total MoreExamples.prescriber_doc) as (p & Hp & _).
  exists p. split; [exact Hp|].
  destruct (prescriber_is_last_match _ _ Hp) as (-> & -> & _).
  split; by_evaluation.
Defined.

End Prescriber.

Section PrescriptionScoreAndNotes.
Import TextractPrescriptionParser.
Local Open Scope Q_scope.

Lemma is_prescriber_line_nonempty l : is_prescriber_line l = true → l ≠ [].
Proof. intros H ->. vm_compute in H. discriminate. Qed.

Lemma is_header_nonempty l : is_header l = true → l ≠ [].
Proof. intros H ->. vm_compute in H. discriminate. Qed.

Lemma truthy_str_nonempty (l : pystr) : l ≠ [] → truthy_str (Some l) = true.
Proof. by destruct l. Qed.

Lemma prescriber_name_truthy lines :
  truthy_str (find_prescriber lines).1 = has_key (find_prescriber lines).1.
Proof.
  rewrite find_prescriber_spec. cbn [fst].
  destruct (last _) as [n|] eqn:E; [|done].
  apply last_Some_elem_of, list_elem_of_In, filter_In in E as [_ E].
  cbn [has_key]. by apply truthy_str_nonempty, is_prescriber_line_nonempty.
Qed.

Lemma prescriber_id_truthy lines :
  truthy_str (find_prescriber lines).2 = has_key (find_prescriber lines).2.
Proof.
  rewrite find_prescriber_spec. cbn [snd].
  destruct (last _) as [i|] eqn:E; [|done].
  apply last_Some_elem_of, list_elem_of_omap in E as (line & _ & E).
  apply id_of_line_shape in E as ([Hlen _] & _).
  cbn [has_key]. apply truthy_str_nonempty. intros ->. cbn in Hlen. lia.
Qed.

Lemma find_medications_header lines m :
  m ∈ find_medications lines →
  ∃ h, drug_name m = Some h ∧ is_header h = true ∧ h ∈ lines.
Proof.
  intros Hm. apply (list_elem_of_fmap_2 drug_name) in Hm.
  rewrite find_medications_names in Hm.
  apply list_elem_of_fmap in Hm as (h & Hh & Hin).
  apply list_elem_of_In, filter_In in Hin as [Hin Hhead].
  exists h. split; [done|]. split; [done|]. by apply list_elem_of_In.
Qed.

Lemma find_medications_nil lines :
  bool_decide (find_medications lines = [])
  = bool_decide (List.filter is_header lines = []).
Proof.
  pose proof (find_medications_names lines) as H.
  apply (f_equal length) in H. rewrite !length_fmap in H.
  destruct (find_medications lines), (List.filter is_header lines); done.
Qed.

Lemma find_medications_named lines :
  existsb (λ m, truthy_str (drug_name m)) (find_medications lines)
  = negb (bool_decide (find_medications lines = [])).
Proof.
  destruct (find_medications lines) as [|m ms] eqn:E; [done|].
  destruct (find_medications_header lines m) as (h & Hn & Hh & _).
  { rewrite E. left. }
  cbn [existsb]. rewrite Hn, (truthy_str_nonempty _ (is_header_nonempty _ Hh)). done.
Qed.

Lemma calculate_quality_score_value p :
  _calculate_quality_score p
  == (point (truthy_str (prescription_date p)) + point (truthy_str (prescriber_name p))
      + point (truthy_str (prescriber_id p))
      + point (negb (bool_decide (medications p = [])))
      + point (existsb (λ m, truthy_str (drug_name m)) (medications p))) / 5.
Proof.
  unfold _calculate_quality_score.
  destruct (truthy_str (prescription_date p)), (truthy_str (prescriber_name p)),
    (truthy_str (prescriber_id p)), (negb (bool_decide (medications p = []))),
    (existsb (λ m, truthy_str (drug_name m)) (medications p));
    vm_compute; reflexivity.
Qed.

(** X17: The score and the warnings of a prescription.  No date is ever
    found, so the date warning always comes first and the score stops at
    4/5: one point of five for the prescriber name, one for the id, and
    two for having a header line at all. *)
Theorem prescription_score_and_warnings (data : textract_json) (p : Prescription) :
  normalize_prescription data = Ok p →
  let has_meds := negb (bool_decide (List.filter is_header (_extract_lines data) = [])) in
  prescription_date p = None
  ∧ rx_quality_score p
    == (point (has_key (prescriber_name p)) + point (has_key (prescriber_id p))
        + 2 * point has_meds) / 5
  ∧ rx_quality_score p <= 4 # 5
  ∧ rx_warnings p
    = [u "Data della prescrizione non trovata"]
      ++ when_none (prescriber_name p) (u "Nome del prescrittore non trovato")
      ++ (if has_meds then [] else [u "Nessun farmaco trovato nella prescrizione"]).
Proof.
  intros H has_meds.
  destruct (prescription_parse_data_shape _ _ H)
    as (Hd & Hn & Hi & _ & Hm & _ & Hw & Hs).
  assert (Hscore : rx_quality_score p
            == (point (has_key (prescriber_name p)) + point (has_key (prescriber_id p))
                + 2 * point has_meds) / 5).
  { rewrite Hs, calculate_quality_score_value.
    cbn [prescription_date prescriber_name prescriber_id medications truthy_str].
    rewrite Hm, find_medications_named, find_medications_nil. fold has_meds.
    rewrite Hn, Hi, prescriber_name_truthy, prescriber_id_truthy.
    destruct (has_key _), (has_key _), has_meds; vm_compute; reflexivity. }
  split; [exact Hd|]. split; [exact Hscore|]. split.
  - rewrite Hscore.
    destruct (has_key _), (has_key _), has_meds; vm_compute; discriminate.
  - rewrite Hw, prescriber_name_truthy, find_medications_nil, <- Hn. fold has_meds.
    f_equal. f_equal; [by destruct (prescriber_name p)|].
    unfold has_meds. by destruct (bool_decide _).
Qed.

Lemma prescription_score_and_warnings_witness :
  ∃ p, normalize_prescription MoreExamples.prescriber_doc = Ok p
    ∧ rx_quality_score p == 4 # 5
    ∧ rx_warnings p = [u "Data della prescrizione non trovata"].
Proof.
  destruct (normalize_prescription_total MoreExamples.prescriber_doc) as (p & Hp & _).
  exists p. split; [exact Hp|].
  destruct (prescription_score_and_warnings _ _ Hp) as (_ & Hs & _ & Hw).
  destruct (prescriber_fields _ _ Hp) as (Hn & Hi).
  rewrite Hs, Hw, Hn, Hi. split; by_evaluation.
Defined.

Lemma is_note_spec lines line :
  line ∈ lines →
  is_note None (find_prescriber lines).1 (find_prescriber lines).2
    (find_medications lines) line
  = is_note_line (find_prescriber lines).1 (find_prescriber lines).2 line.
Proof.
  intros Hline. unfold is_note, is_note_line. cbn [truthy_str negb orb andb].
  f_equal; [f_equal|].
  - pose proof (prescriber_name_truthy lines) as Ht.
    destruct (find_prescriber lines).1 as [n|]; [|done]. rewrite Ht.
    cbn [has_key negb orb default from_option id]. unfold eqb. f_equal.
    apply bool_decide_ext. split; [by intros ->|by intros [= ->]].
  - pose proof (prescriber_id_truthy lines) as Ht.
    destruct (find_prescriber lines).2 as [i|]; [|done]. rewrite Ht.
    cbn [has_key negb orb default from_option id]. unfold eqb. f_equal.
    apply bool_decide_ext. split; [by intros ->|by intros [= ->]].
  - f_equal. destruct (is_header line) eqn:Eh.
    + apply existsb_exists.
      assert (Hin : Some line ∈ drug_name <$> find_medications lines).
      { rewrite find_medications_names. apply list_elem_of_fmap_2.
        apply list_elem_of_In, filter_In. split; [by apply list_elem_of_In|done]. }
      apply list_elem_of_fmap in Hin as (m & Hm & Hin).
      exists m. split; [by apply list_elem_of_In|]. rewrite <- Hm.
      rewrite (truthy_str_nonempty _ (is_header_nonempty _ Eh)).
      cbn [default from_option id andb]. unfold eqb. by apply bool_decide_eq_true_2.
    + apply not_true_iff_false. intros (m & Hm & Hx)%existsb_exists.
      apply list_elem_of_In, find_medications_header in Hm as (h & Hn & Hh & _).
      rewrite Hn in Hx. cbn [default from_option id] in Hx.
      apply andb_true_iff in Hx as [_ Hx]. unfold eqb in Hx.
      apply bool_decide_eq_true in Hx as ->. congruence.
Qed.

(** X18: The notes of a prescription: the lines that are no header line
    and are not, as a whole, the prescriber name or the prescriber id,
    joined by one space in the order of the document; null when there is
    no such line. *)
Theorem prescription_notes (data : textract_json) (p : Prescription) :
  normalize_prescription data = Ok p →
  let note_lines :=
    List.filter (is_note_line (prescriber_name p) (prescriber_id p))
                (_extract_lines data) in
  notes p = if bool_decide (note_lines = []) then None
            else Some (join (u " ") note_lines).
Proof.
  intros H.
  destruct (prescription_parse_data_shape _ _ H) as (_ & Hn & Hi & _ & _ & Hnotes & _).
  cbv zeta in *. rewrite Hnotes, Hn, Hi.
  rewrite (List.filter_ext_in _ (is_note_line (find_prescriber (_extract_lines data)).1
                                   (find_prescriber (_extract_lines data)).2)); [done|].
  intros line Hline. apply is_note_spec. by apply list_elem_of_In.
Qed.

Lemma prescription_notes_witness :
  ∃ p, normalize_prescription MoreExamples.prescriber_doc = Ok p
    ∧ notes p = Some (u "Dott. Mario Rossi riposo").
Proof.
  destruct (normalize_prescription_total MoreExamples.prescriber_doc) as (p & Hp & _).
  exists p. split; [exact Hp|].
  rewrite (prescription_notes _ _ Hp).
  destruct (prescriber_fields _ _ Hp) as (-> & ->).
  by_evaluation.
Defined.

End PrescriptionScoreAndNotes.

Section Extractors.
Import Re ReSpec TextractPrescriptionParser.

Lemma first_pattern_match {A : Type} patterns (convert : rematch → option A) text a :
  first_pattern patterns convert text = Some a →
  ∃ p m, p ∈ patterns ∧ search true p text = Some m ∧ convert m = Some a.
Proof.
  unfold first_pattern. intros (p & Hp & E)%first_some_Some.
  destruct (search true p text) as [m|] eqn:Es; [|done]. by exists p, m.
Qed.

Lemma matches_sure_groups ic r t c :
  matches ic r t c → ∀ i, i ∈ sure_groups r → ∃ x, (i, x) ∈ c.
Proof.
  induction 1 as [| | | | |r t c Hm IH|r1 r2 t1 t2 c1 c2 Hm1 IH1 Hm2 IH2
                  |r1 r2 t c Hm IH|r1 r2 t c Hm IH|j r t c Hm IH];
    intros i Hi; cbn [sure_groups] in Hi; try by apply elem_of_nil in Hi.
  - apply elem_of_app in Hi as [Hi|Hi].
    + destruct (IH1 i Hi) as (x & Hx). exists x. apply elem_of_app. by right.
    + destruct (IH2 i Hi) as (x & Hx). exists x. apply elem_of_app. by left.
  - apply elem_of_cons in Hi as [->|Hi].
    + exists t. left.
    + destruct (IH i Hi) as (x & Hx). exists x. by right.
Qed.

Lemma group_is_Some i x m : (i, x) ∈ groups m → is_Some (group i m).
Proof.
  unfold group. induction (groups m) as [|[j y] l IH]; [by intros ?%elem_of_nil|].
  cbn [List.find fst]. destruct (j =? i)%nat eqn:E; [by eexists|].
  intros [[= -> ->]|H]%elem_of_cons; [by rewrite Nat.eqb_refl in E|by apply IH].
Qed.

(** A group that takes part in every match of the pattern has a text in
    the result of [re.search], matched by a body of that group. *)
Lemma search_sure_group ic r s m i :
  search ic r s = Some m → i ∈ sure_groups r →
  ∃ x r' c', group i m = Some x ∧ (i, r') ∈ group_bodies r ∧ matches ic r' x c'.
Proof.
  intros Hs Hi. pose proof Hs as (_ & _ & _ & Hm)%search_sound.
  destruct (matches_sure_groups _ _ _ _ Hm i Hi) as (y & Hy).
  destruct (group_is_Some _ _ _ Hy) as (x & Hx).
  destruct (search_group _ _ _ _ _ _ Hs Hx) as (r' & c' & Hr & Hm').
  by exists x, r', c'.
Qed.

Lemma is_digit_run_spec r : is_digit_run r = true → r = plus digit.
Proof.
  destruct r as [|?|?|cs lo hi|?|? ?|? ?|? ?]; try done.
  destruct cs as [|[] [|]]; try done.
  destruct lo as [|[|]]; try done. by destruct hi.
Qed.

Lemma in_set_ic_digit ic x : in_set ic digit x = is_digit x.
Proof. cbn [in_set digit existsb item_matches]. by rewrite orb_false_r. Qed.

(** Group 1 of a match of a pattern whose group 1 is [(\d+)]: a run of
    digits that is not empty. *)
Lemma search_digit_group ic p s m :
  group1_is_digit_run p = true → search ic p s = Some m →
  ∃ n, group 1 m = Some n ∧ n ≠ [] ∧ forallb is_digit n = true.
Proof.
  unfold group1_is_digit_run. intros [H1 H2]%andb_true_iff Hs.
  apply bool_decide_eq_true in H1.
  destruct (search_sure_group _ _ _ _ _ Hs H1) as (n & r' & c' & Hg & Hr & Hm).
  rewrite forallb_forall in H2. apply list_elem_of_In, H2 in Hr. cbn [fst snd] in Hr.
  rewrite Nat.eqb_refl in Hr. apply is_digit_run_spec in Hr as ->.
  apply matches_rep in Hm as (Hall & Hlen & _).
  exists n. split; [done|]. split; [intros ->; cbn in Hlen; lia|].
  apply forallb_forall. intros x Hx. rewrite <- (in_set_ic_digit ic).
  rewrite Forall_forall in Hall. apply Hall. by apply list_elem_of_In.
Qed.

Lemma digit_plain s : forallb is_digit s = true → forallb plain_char s = true.
Proof.
  rewrite !forallb_forall. intros H x Hx. unfold plain_char. by rewrite (H x Hx).
Qed.

(** [int] on a run of digits. *)
Lemma py_int_digits n :
  n ≠ [] → forallb is_digit n = true → py_int n = Some (digits_val n).
Proof.
  intros Hne Hd. pose proof (digit_plain _ Hd) as Hp. unfold py_int.
  rewrite (plain_strip_num _ Hp), (plain_split_sign _ Hp).
  rewrite (plain_drop_underscores _ _ Hp). cbn [mbind option_bind].
  unfold all_digits. rewrite Hd, bool_decide_eq_false_2 by done. done.
Qed.

(** X19: The durations and quantities that the extractors read are the
    value of a run of digits of the line, so they are never negative. *)
Theorem duration_and_quantity_are_not_negative (text : pystr) (n : Z) :
  _parse_duration text = Some n ∨ _parse_quantity text = Some n →
  (0 ≤ n)%Z
  ∧ ∃ digits, digits ≠ [] ∧ forallb is_digit digits = true ∧ n = digits_val digits.
Proof.
  assert (G : ∀ patterns,
            forallb group1_is_digit_run patterns = true →
            first_pattern patterns (λ m, py_int (group_text 1 m)) text = Some n →
            (0 ≤ n)%Z
            ∧ ∃ digits, digits ≠ [] ∧ forallb is_digit digits = true
                        ∧ n = digits_val digits).
  { intros patterns Hp (p & m & Hin & Hs & Hc)%first_pattern_match.
    rewrite forallb_forall in Hp. apply list_elem_of_In, Hp in Hin.
    destruct (search_digit_group _ _ _ _ Hin Hs) as (d & Hg & Hne & Hd).
    unfold group_text in Hc. rewrite Hg in Hc. cbn [default from_option id] in Hc.
    rewrite (py_int_digits _ Hne Hd) in Hc. injection Hc as <-.
    split; [by apply digits_val_nonneg|]. by exists d. }
  intros [H|H].
  - apply (G duration_patterns); [by_evaluation|exact H].
  - apply (G quantity_patterns); [by_evaluation|exact H].
Qed.

Lemma duration_and_quantity_are_not_negative_witness :
  _parse_duration (u "per 7 giorni") = Some 7%Z ∧ (0 ≤ 7)%Z.
Proof.
  assert (E : _parse_duration (u "per 7 giorni") = Some 7%Z) by by_evaluation.
  split; [exact E|].
  exact (proj1 (duration_and_quantity_are_not_negative (u "per 7 giorni") 7
                  (or_introl E))).
Defined.

(** X20: A frequency is always written as a run of digits of the line
    followed by " volte al giorno", whichever of the four forms the line
    has: for "ogni 8 ore" it is "8 volte al giorno". *)
Theorem frequency_text_shape (text f : pystr) :
  _parse_frequency text = Some f →
  ∃ n, f = n ++ u " volte al giorno" ∧ n ≠ [] ∧ forallb is_digit n = true.
Proof.
  unfold _parse_frequency. intros (p & m & Hin & Hs & Hc)%first_pattern_match.
  assert (Hp : forallb group1_is_digit_run frequency_patterns = true) by by_evaluation.
  rewrite forallb_forall in Hp. apply list_elem_of_In, Hp in Hin.
  destruct (search_digit_group _ _ _ _ Hin Hs) as (n & Hg & Hne & Hd).
  unfold group_text in Hc. rewrite Hg in Hc. cbn [default from_option id] in Hc.
  apply (inj Some) in Hc. by exists n.
Qed.

Lemma frequency_text_shape_witness :
  _parse_frequency (u "ogni 8 ore") = Some (u "8 volte al giorno")
  ∧ ∃ n, u "8 volte al giorno" = n ++ u " volte al giorno" ∧ n ≠ []
         ∧ forallb is_digit n = true.
Proof.
  assert (E : _parse_frequency (u "ogni 8 ore") = Some (u "8 volte al giorno"))
    by by_evaluation.
  split; [exact E|]. exact (frequency_text_shape _ _ E).
Defined.









End Extractors.

(** ** Processing one file *)

Section ProcessFileProperties.
Local Open Scope nat_scope.
Context {E : Type}.
Variable analyze_document : nat → textract_json + E.
Variable save_json : nat → record → pystr → option E.

Local Abbreviation body := (attempt_body analyze_document save_json).
Local Abbreviation loop := (attempts analyze_document save_json).

Lemma attempt_body_events filename attempt :
  submits (body filename attempt).1 = [attempt]
  ∧ sleeps (body filename attempt).1 = [].
Proof.
  unfold attempt_body. destruct (analyze_document attempt) as [response|e]; [|done].
  destruct (contains (u "invoice") filename).
  { by destruct (normalize_invoice response). }
  destruct (contains (u "prescription") filename); [|done].
  by destruct (normalize_prescription response).
Qed.

Lemma attempts_spec filename max_retries base_backoff n a :
  a + n = S max_retries →
  ∃ k, k ≤ n
    ∧ submits (loop filename max_retries base_backoff (seq a n)).1 = seq a k
    ∧ sleeps (loop filename max_retries base_backoff (seq a n)).1
      = (λ i, base_backoff ^ i) <$> seq a (k - 1)
    ∧ (∀ i, a ≤ i < a + k - 1 → (body filename i).2 ≠ None)
    ∧ match (loop filename max_retries base_backoff (seq a n)).2 with
      | Some e => 0 < n ∧ a + k = S max_retries
                  ∧ (body filename max_retries).2 = Some e
      | None => (n = 0 ∧ k = 0) ∨ (0 < k ∧ (body filename (a + k - 1)).2 = None)
      end.
Proof.
  revert a. induction n as [|n IH]; intros a Ha.
  { exists 0. cbn. repeat split; try done; [lia|by left]. }
  cbn [seq attempts].
  destruct (attempt_body_events filename a) as [Hsub Hsl].
  destruct (body filename a) as [events [e|]] eqn:Eb; cbn [fst snd] in Hsub, Hsl.
  - destruct (Nat.ltb_spec a max_retries) as [Hlt|Hge].
    + destruct (IH (S a)) as (k & Hk & Hs & Hp & Hf & Hr); [lia|].
      destruct (loop filename max_retries base_backoff (seq (S a) n)) as [events' r].
      cbn [fst snd] in *. exists (S k). split; [lia|].
      unfold submits, sleeps in *. rewrite !omap_app. cbn [omap list_omap].
      fold (omap (λ e, match e with Submit a => Some a | _ => None end) events').
      fold (omap (λ e, match e with Sleep s => Some s | _ => None end) events').
      rewrite Hsub, Hsl, Hs, Hp. split; [reflexivity|]. split.
      { destruct k as [|k]; [exfalso|cbn; by rewrite Nat.sub_0_r].
        destruct r as [e'|]; [destruct Hr as (_ & ? & _); lia|].
        destruct Hr as [[? _]|[? _]]; lia. }
      split.
      { intros i Hi. destruct (decide (i = a)) as [->|Hne]; [by rewrite Eb|].
        apply Hf. lia. }
      destruct r as [e'|].
      * destruct Hr as (? & ? & ?). split; [lia|]. split; [lia|done].
      * right. split; [lia|]. destruct Hr as [[-> ->]|[? Hr]]; [lia|].
        replace (a + S k - 1) with (S a + k - 1) by lia. done.
    + assert (a = max_retries) as -> by lia. exists 1. cbn [fst snd].
      split; [lia|]. split; [done|]. split; [done|]. split; [intros i; lia|].
      split; [lia|]. split; [lia|]. by rewrite Eb.
  - exists 1. cbn [fst snd]. split; [lia|]. split; [done|]. split; [done|].
    split; [intros i; lia|]. right. split; [lia|].
    replace (a + 1 - 1) with a by lia. by rewrite Eb.
Qed.

(** X22: The retries of [process_file].  It makes [k] attempts, numbered
    from 1, with [k] at most [max_retries]; every attempt calls the
    service once; after a failed attempt [i] that is not the last it
    sleeps [base_backoff ^ i] seconds.  It stops at the first attempt that
    goes through and returns; when all [max_retries] attempts fail it
    raises the exception of the last one.  With [max_retries = 0] it does
    nothing and returns. *)
Theorem process_file_retries (name : pystr) (max_retries base_backoff : nat) :
  let run := process_file analyze_document save_json name max_retries base_backoff in
  ∃ k, k ≤ max_retries
    ∧ submits run.1 = seq 1 k
    ∧ sleeps run.1 = (λ i, base_backoff ^ i) <$> seq 1 (k - 1)
    ∧ (∀ i, 1 ≤ i < k → (body (lower name) i).2 ≠ None)
    ∧ match run.2 with
      | Some e => 0 < max_retries ∧ k = max_retries
                  ∧ (body (lower name) max_retries).2 = Some e
      | None => (max_retries = 0 ∧ k = 0)
                ∨ (0 < k ∧ (body (lower name) k).2 = None)
      end.
Proof.
  cbv zeta. unfold process_file.
  destruct (attempts_spec (lower name) max_retries base_backoff max_retries 1)
    as (k & Hk & Hs & Hp & Hf & Hr); [lia|].
  exists k. split; [done|]. split; [done|]. split; [done|]. split.
  { intros i Hi. apply Hf. lia. }
  destruct (loop _ _ _ _).2 as [e|].
  - destruct Hr as (? & ? & ?). split; [done|]. split; [lia|done].
  - destruct Hr as [[-> ->]|[? Hr]]; [by left|]. right. split; [done|].
    by replace (1 + k - 1) with k in Hr by lia.
Qed.

Lemma attempts_all_fail filename max_retries base_backoff err n a :
  (∀ i, body filename i = ([Submit i], Some err)) →
  a + n = S max_retries → 0 < n →
  loop filename max_retries base_backoff (seq a n)
  = (flat_map (λ i, Submit i :: if i <? max_retries then [Sleep (base_backoff ^ i)]
                                else []) (seq a n),
     Some err).
Proof.
  intros Hb. revert a. induction n as [|n IH]; intros a Ha Hn; [lia|].
  cbn [seq attempts flat_map]. rewrite Hb.
  destruct (Nat.ltb_spec a max_retries) as [Hlt|Hge].
  - rewrite IH by lia. done.
  - assert (n = 0) as -> by lia. done.
Qed.

(** X23: An invoice that the parser rejects is sent again and again: when
    the name of the file has "invoice" in it and every answer of the
    service has a keyword line with a valid date, [process_file] calls the
    service [max_retries] times, sleeps [base_backoff ^ i] seconds after
    each attempt [i] but the last, saves nothing, and raises the TypeError
    of the last attempt. *)
Theorem rejected_invoice_is_resubmitted (name : pystr) (max_retries base_backoff : nat) :
  contains (u "invoice") (lower name) = true →
  (∀ attempt, ∃ response,
     analyze_document attempt = inl response
     ∧ Exists (λ l, reaches_strftime TextractInvoiceParser.issue_date_kw l = true)
              (TextractInvoiceParser._extract_lines response)) →
  0 < max_retries →
  process_file analyze_document save_json name max_retries base_backoff
  = (flat_map (λ i, Submit i :: if i <? max_retries then [Sleep (base_backoff ^ i)]
                                else []) (seq 1 max_retries),
     Some (ParserError TypeError)).
Proof.
  intros Hname Hresp Hmax. unfold process_file.
  apply attempts_all_fail; [|lia|done].
  intros i. unfold attempt_body. destruct (Hresp i) as (response & -> & Hdated).
  rewrite Hname. unfold normalize_invoice, TextractInvoiceParser.init.
  rewrite parse_data_raises; [done|]. by apply find_date_gated_raises.
Qed.

(** X24: A file whose name has neither "invoice" nor "prescription" in it
    is sent to the service all the same, once; its answer is not parsed,
    nothing is saved, and [process_file] returns as after a success. *)
Theorem other_file_is_submitted_and_dropped (name : pystr)
    (max_retries base_backoff : nat) (response : textract_json) :
  contains (u "invoice") (lower name) = false →
  contains (u "prescription") (lower name) = false →
  analyze_document 1 = inl response →
  0 < max_retries →
  process_file analyze_document save_json name max_retries base_backoff
  = ([Submit 1], None).
Proof.
  intros Hi Hp Hr Hmax. unfold process_file.
  destruct max_retries as [|n]; [lia|]. cbn [seq attempts].
  unfold attempt_body. by rewrite Hr, Hi, Hp.
Qed.

End ProcessFileProperties.

Lemma rejected_invoice_is_resubmitted_witness :
  process_file (E := Empty_set) (λ _, inl Examples.issue_date_doc) (λ _ _ _, None)
    (u "Invoice_A.pdf") 3 2
  = ([Submit 1; Sleep 2; Submit 2; Sleep 4; Submit 3], Some (ParserError TypeError)).
Proof.
  rewrite (rejected_invoice_is_resubmitted (E := Empty_set)
             (λ _, inl Examples.issue_date_doc) (λ _ _ _, None) (u "Invoice_A.pdf") 3 2).
  - reflexivity.
  - by_evaluation.
  - intros _. exists Examples.issue_date_doc. split; [reflexivity|].
    apply Exists_exists.
    exists {| TextractInvoiceParser.text := u "Data documento 15/03/2024";
              TextractInvoiceParser.confidence := 99 |}.
    split; [vm_compute; apply list_elem_of_here|by_evaluation].
  - repeat constructor.
Defined.

Lemma other_file_is_submitted_and_dropped_witness :
  process_file (E := Empty_set) (λ _, inl Examples.total_only_doc) (λ _ _ _, None)
    (u "Scan_01.PDF") 3 2
  = ([Submit 1], None).
Proof.
  apply (other_file_is_submitted_and_dropped (E := Empty_set)
           (λ _, inl Examples.total_only_doc) (λ _ _ _, None) (u "Scan_01.PDF") 3 2
           Examples.total_only_doc).
  - by_evaluation.
  - by_evaluation.
  - reflexivity.
  - repeat constructor.
Defined.
